(** * steamanalysis: the aggregation engine of [analysis/data_loader.py]

    A shallow embedding of the period increment calculator, the rollup
    aggregators, the overlap ranker, and the filters and listings beside
    them, with the properties the specification states about them and
    further properties of the code.

    Conventions of the embedding.
    - Python numbers (int and float alike) are exact rationals [Q]; the
      rounding of binary floating point is outside the model, except in
      [Binary64], which reads the arithmetic of the reach score in the
      binary64 numbers that Python's [float] is.
    - A Python [dict] is an association list with unique keys in insertion
      order, which is the order Python iterates and stable sorts observe.
    - An operation that can raise ([d[k]], [l[i]], [x / y]) returns an
      [outcome]; a function that uses one is in the [outcome] monad, and
      is proved to return.
    - [datetime.fromtimestamp] depends on the local time zone; it is a
      parameter of the development, [None] standing for a raised
      exception. *)

From Stdlib Require Import PrimFloat.
From Stdlib Require Uint63.
From Stdlib Require Import List ZArith QArith Qround String Ascii Bool.
From Stdlib Require Import Lia Lqa Permutation Sorted.
From Stdlib Require Import DecimalString.
Import ListNotations.

Local Open Scope Q_scope.

(* ================================================================== *)
(** ** Python values and built-ins *)

Module Py.

(** Exceptions the modelled operations can raise. *)
Inductive exn : Type :=
| ZeroDivisionError
| KeyError
| IndexError.

Inductive outcome (A : Type) : Type :=
| Returned (a : A)
| Raised (e : exn).
Arguments Returned {A} a.
Arguments Raised {A} e.

Definition bind {A B} (m : outcome A) (f : A -> outcome B) : outcome B :=
  match m with
  | Returned a => f a
  | Raised e => Raised e
  end.

(** [for x in l: st = body(st, x)] where the body may raise. *)
Fixpoint for_each {S A} (body : S -> A -> outcome S) (l : list A) (st : S)
  : outcome S :=
  match l with
  | [] => Returned st
  | x :: l' => bind (body st x) (for_each body l')
  end.

(** A comprehension [[f(x) for x in l]] where [f] may raise. *)
Fixpoint map_each {A B} (f : A -> outcome B) (l : list A)
  : outcome (list B) :=
  match l with
  | [] => Returned []
  | x :: l' =>
    bind (f x) (fun y => bind (map_each f l') (fun ys => Returned (y :: ys)))
  end.

(** *** Numbers *)

Definition gtb (x y : Q) : bool := negb (Qle_bool x y).

(** Truth value of a number: [bool(x)]. *)
Definition truthy (x : Q) : bool := negb (Qeq_bool x 0).

(** [d.get(key) or dflt] on a numeric field that may be absent. *)
Definition get_or (o : option Q) (dflt : Q) : Q :=
  match o with
  | Some x => if truthy x then x else dflt
  | None => dflt
  end.

(** [max(a, b)]: the first argument unless the second is greater. *)
Definition max2 (a b : Q) : Q := if gtb b a then b else a.

(** [max(l, default=d)]. *)
Definition max_default (l : list Q) (d : Q) : Q :=
  match l with
  | [] => d
  | x :: l' => fold_left max2 l' x
  end.

(** [sum(l)]. *)
Definition sum (l : list Q) : Q := fold_left Qplus l 0.

(** [len(l)] as a number. *)
Definition len {A} (l : list A) : Q := inject_Z (Z.of_nat (List.length l)).

(** [x / y], true division. *)
Definition div (x y : Q) : outcome Q :=
  if Qeq_bool y 0 then Raised ZeroDivisionError else Returned (x / y).

(** [round(x, ndigits)]: to the nearest multiple of [10^-ndigits],
    ties to the even one. *)
Definition round_half_even (x : Q) : Z :=
  let f := Qfloor x in
  match Qcompare (x - inject_Z f) (1 # 2) with
  | Lt => f
  | Gt => (f + 1)%Z
  | Eq => if Z.even f then f else (f + 1)%Z
  end.

Definition round (x : Q) (ndigits : nat) : Q :=
  let s := inject_Z (10 ^ Z.of_nat ndigits) in
  inject_Z (round_half_even (x * s)) / s.

(** *** Stable sorting

    [sorted(l, key=k)] is [sorted le l] with [le x y := k x <= k y], and
    [sorted(l, key=k, reverse=True)] is [sorted le l] with
    [le x y := k y <= k x]: in both, of two elements neither of which has
    to precede the other, the one that came first stays first. *)

Section Sorting.
Context {A : Type} (le : A -> A -> bool).

Fixpoint insert (x : A) (l : list A) : list A :=
  match l with
  | [] => [x]
  | y :: l' => if le x y then x :: l else y :: insert x l'
  end.

Definition sorted (l : list A) : list A := fold_right insert [] l.
End Sorting.

(** [l[i]] for [i >= 0]. *)
Definition index {A} (l : list A) (i : nat) : outcome A :=
  match nth_error l i with
  | Some x => Returned x
  | None => Raised IndexError
  end.

(** [l[:n]]: the first [n] elements, all but the last [-n] when [n < 0]. *)
Definition slice_to {A} (l : list A) (n : Z) : list A :=
  if (n <? 0)%Z
  then firstn (List.length l - Z.to_nat (- n)) l
  else firstn (Z.to_nat n) l.

(** *** Keys *)

Class Key (K : Type) : Type := { eqb : K -> K -> bool }.

#[export] Instance Z_Key : Key Z := {| eqb := Z.eqb |}.

#[export] Instance string_Key : Key string := {| eqb := String.eqb |}.

#[export] Instance option_Key {K} `{Key K} : Key (option K) :=
  {| eqb := fun a b =>
       match a, b with
       | Some x, Some y => eqb x y
       | None, None => true
       | _, _ => false
       end |}.

(** *** Dictionaries *)

Abbreviation dict K V := (list (K * V)) (only parsing).

Section Dict.
Context {K V : Type} `{Key K}.

Fixpoint get (d : dict K V) (k : K) : option V :=
  match d with
  | [] => None
  | (k', v) :: d' => if eqb k k' then Some v else get d' k
  end.

(** [d[k] = v]: in place when [k] is present, appended otherwise. *)
Fixpoint set (d : dict K V) (k : K) (v : V) : dict K V :=
  match d with
  | [] => [(k, v)]
  | (k', v') :: d' =>
      if eqb k k' then (k', v) :: d' else (k', v') :: set d' k v
  end.

(** [d[k]] on a plain dict. *)
Definition subscript (d : dict K V) (k : K) : outcome V :=
  match get d k with
  | Some v => Returned v
  | None => Raised KeyError
  end.

(** [d[k] = f(d[k])] on a [defaultdict] whose factory gives [dflt]. *)
Definition update (d : dict K V) (k : K) (f : V -> V) (dflt : V) : dict K V :=
  match get d k with
  | Some v => set d k (f v)
  | None => set d k (f dflt)
  end.

Definition keys (d : dict K V) : list K := map fst d.
End Dict.

End Py.

Import Py.

Declare Scope py_scope.
Delimit Scope py_scope with py.
Notation "x <- m ;; k" := (Py.bind m (fun x => k))
  (at level 61, m at next level, right associativity) : py_scope.
Notation "' pat <- m ;; k" := (Py.bind m (fun x => match x with pat => k end))
  (at level 61, pat pattern, m at next level, right associativity) : py_scope.
Local Open Scope py_scope.

(* ================================================================== *)
(** ** Data model *)

(** What is read of a [datetime]. *)
Record datetime : Type := {
  year : Z;
  month : Z
}.

(** One element of a game's [history]. A field that is absent from the
    mapping is [None]; a field that is present holds a number. *)
Module Snapshot.
Record t : Type := {
  timeStamp : option Z;
  sales : option Q;
  revenue : option Q;
  score : option Q;
  players : option Q;
  avgPlaytime : option Q;
  price : option Q;
  followers : option Q;
  wishlists : option Q;
  reviews : option Q
}.
End Snapshot.

(** The value [_get_yearly_increments] stores per year. *)
Module Increment.
Record t : Type := {
  sales : Q;
  revenue : Q;
  cumulative_sales : Q;
  cumulative_revenue : Q;
  score : Q
}.
End Increment.

(** A period key: [dt.year] or [dt.strftime("%Y-%m")]. *)
Inductive period : Type :=
| PYear (y : Z)
| PMonth (s : string).

#[export] Instance period_Key : Key period :=
  {| eqb := fun a b =>
       match a, b with
       | PYear x, PYear y => Z.eqb x y
       | PMonth x, PMonth y => String.eqb x y
       | _, _ => false
       end |}.

(** The order [sorted] puts period keys in: integers by value, strings
    lexicographically. One call produces keys of one kind only; between
    the kinds the order is fixed so as to be total. *)
Definition period_leb (a b : period) : bool :=
  match a, b with
  | PYear x, PYear y => Z.leb x y
  | PMonth x, PMonth y => String.leb x y
  | PYear _, PMonth _ => true
  | PMonth _, PYear _ => false
  end.

(** The value [get_history_for_game] stores per period. *)
Module PeriodRow.
Record t : Type := {
  sales_inc : Q;
  revenue_inc : Q;
  cumul_sales : Q;
  cumul_revenue : Q;
  ccu : Q;
  score : Q;
  playtime : Q;
  price : Q;
  followers : Q;
  wishlists : Q;
  reviews : Q
}.
End PeriodRow.

(** One element of a game's [audienceOverlap]. *)
Module Overlap.
Record t : Type := {
  steamId : option Z;
  name : option string;
  link : option Q;
  genres : list string;
  copiesSold : option Q;
  revenue : option Q;
  players : option Q
}.
End Overlap.

(** A game record, with the fields the aggregation reads. A numeric field
    that is absent is [None]; a list field that is absent is empty;
    [countryData] is [None] when absent or not a mapping. *)
Module Game.
Record t : Type := {
  genres : list string;
  tags : list string;
  revenue : option Q;
  copiesSold : option Q;
  reviewScore : option Q;
  reviews : option Q;
  players : option Q;
  avgPlaytime : option Q;
  followers : option Q;
  wishlists : option Q;
  owners : option Q;
  steamPercent : option Q;
  price : option Q;
  history : list Snapshot.t;
  countryData : option (dict string Q);
  audienceOverlap : list Overlap.t
}.
End Game.

(** The accumulator of [get_yearly_trends]. *)
Module Totals.
Record t : Type := {
  revenue : Q;
  sales : Q;
  game_count : Z;
  score_sum : Q;
  score_count : Z
}.
Definition zero : t :=
  {| revenue := 0; sales := 0; game_count := 0; score_sum := 0;
     score_count := 0 |}.
End Totals.

(** The value [get_yearly_trends] stores per year. *)
Module Trend.
Record t : Type := {
  revenue : Q;
  sales : Q;
  game_count : Z;
  avg_score : Q
}.
End Trend.

(** The lists [get_history_aggregate] collects per period. *)
Module Buckets.
Record t : Type := {
  sales_inc : list Q;
  revenue_inc : list Q;
  ccu : list Q;
  score : list Q;
  playtime : list Q;
  price : list Q;
  followers : list Q;
  wishlists : list Q
}.
Definition empty : t :=
  {| sales_inc := []; revenue_inc := []; ccu := []; score := [];
     playtime := []; price := []; followers := []; wishlists := [] |}.
End Buckets.

(** The value [get_history_aggregate] stores per period. *)
Module Aggregate.
Record t : Type := {
  sales_inc : Q;
  revenue_inc : Q;
  avg_ccu : Q;
  max_ccu : Q;
  total_ccu : Q;
  avg_score : Q;
  avg_playtime : Q;
  avg_price : Q;
  avg_followers : Q;
  avg_wishlists : Q;
  total_games : Z
}.
End Aggregate.

(** The accumulator of [get_genre_stats] and [get_tag_stats]. *)
Module Stats.
Record t : Type := {
  revenue_sum : Q;
  sales_sum : Q;
  score_sum : Q;
  count : Z;
  score_count : Z
}.
Definition zero : t :=
  {| revenue_sum := 0; sales_sum := 0; score_sum := 0; count := 0;
     score_count := 0 |}.
End Stats.

(** The value [get_genre_stats] and [get_tag_stats] store per category. *)
Module Category.
Record t : Type := {
  game_count : Z;
  avg_revenue : Q;
  avg_sales : Q;
  avg_score : Q;
  total_revenue : Q
}.
End Category.

(** What [ao.get("name", sid)] gives: the name, or the id when the edge
    has no name. *)
Inductive label : Type :=
| Name (s : string)
| Sid (sid : option Z).

(** What [get_audience_overlap_top] keeps of an edge. *)
Module Edge.
Record t : Type := {
  name : label;
  link : Q;
  genres : list string;
  copiesSold : Q;
  revenue : Q;
  ccu : Q
}.
End Edge.

(** One element of the ranking [get_audience_overlap_top] returns. *)
Module Reach.
Record t : Type := {
  steamId : option Z;
  name : label;
  overlap_game_count : Z;
  overlap_pct : Q;
  avg_link : Q;
  copies_sold : Q;
  revenue : Q;
  ccu : Q;
  reach_score : Q;
  genres : list string
}.
End Reach.

(* ================================================================== *)
(** ** The period increment calculator *)

Definition digit (n : Z) : ascii := ascii_of_nat (48 + Z.to_nat (n mod 10)).

(** [dt.strftime("%Y-%m")]: four digits of year, two of month, which is
    the text for the years 1000 to 9999. *)
Definition strftime_Ym (dt : datetime) : string :=
  let y := year dt in
  let m := month dt in
  String (digit (y / 1000)) (String (digit (y / 100)) (String (digit (y / 10))
    (String (digit y) (String "-" (String (digit (m / 10))
      (String (digit m) EmptyString)))))).

(** [dt.year if freq == "yearly" else dt.strftime("%Y-%m")] *)
Definition period_of (freq : string) (dt : datetime) : period :=
  if String.eqb freq "yearly" then PYear (year dt) else PMonth (strftime_Ym dt).

(** [lambda x: x.get("timeStamp", 0)] *)
Definition timeStamp_key (x : Snapshot.t) : Z :=
  match Snapshot.timeStamp x with
  | Some ts => ts
  | None => 0%Z
  end.

Definition by_timeStamp (x y : Snapshot.t) : bool :=
  Z.leb (timeStamp_key x) (timeStamp_key y).

Section Calendar.

(** [fromtimestamp ts] is [datetime.fromtimestamp(int(ts) / 1000)] in the
    time zone of the process, [None] when it raises. *)
Variable fromtimestamp : Z -> option datetime.

(** The head of every loop over a history:
    [ts = item.get("timeStamp")], [if not ts: continue], then the
    conversion with [continue] on an exception. *)
Definition snapshot_datetime (item : Snapshot.t) : option datetime :=
  match Snapshot.timeStamp item with
  | None => None
  | Some ts => if (ts =? 0)%Z then None else fromtimestamp ts
  end.

(** First loop of [_get_yearly_increments]: [by_year[yr] = item]. *)
Definition collect_by_year (history : list Snapshot.t) : dict Z Snapshot.t :=
  fold_left
    (fun by_year item =>
       match snapshot_datetime item with
       | Some dt => set by_year (year dt) item
       | None => by_year
       end)
    history [].

(** Body of the second loop of [_get_yearly_increments]; the state is
    [(increments, prev_sales, prev_revenue)]. *)
Definition yearly_step (by_year : dict Z Snapshot.t)
  (st : dict Z Increment.t * Q * Q) (yr : Z)
  : outcome (dict Z Increment.t * Q * Q) :=
  let '(increments, prev_sales, prev_revenue) := st in
  item <- subscript by_year yr ;;
  let cur_sales := get_or (Snapshot.sales item) 0 in
  let cur_revenue := get_or (Snapshot.revenue item) 0 in
  Returned
    (set increments yr
       {| Increment.sales := max2 0 (cur_sales - prev_sales);
          Increment.revenue := max2 0 (cur_revenue - prev_revenue);
          Increment.cumulative_sales := cur_sales;
          Increment.cumulative_revenue := cur_revenue;
          Increment.score := get_or (Snapshot.score item) 0 |},
     cur_sales, cur_revenue).

Definition _get_yearly_increments (history : list Snapshot.t)
  : outcome (dict Z Increment.t) :=
  let by_year := collect_by_year history in
  let years := sorted Z.leb (keys by_year) in
  '(increments, _, _) <- for_each (yearly_step by_year) years ([], 0, 0) ;;
  Returned increments.

(** First loop of [get_history_for_game], over the history sorted by
    time stamp: [by_period[period] = item]. *)
Definition collect_by_period (freq : string) (history : list Snapshot.t)
  : dict period Snapshot.t :=
  fold_left
    (fun by_period item =>
       match snapshot_datetime item with
       | Some dt => set by_period (period_of freq dt) item
       | None => by_period
       end)
    history [].

Definition period_step (by_period : dict period Snapshot.t)
  (st : dict period PeriodRow.t * Q * Q) (p : period)
  : outcome (dict period PeriodRow.t * Q * Q) :=
  let '(result, prev_sales, prev_revenue) := st in
  item <- subscript by_period p ;;
  let cur_sales := get_or (Snapshot.sales item) 0 in
  let cur_revenue := get_or (Snapshot.revenue item) 0 in
  Returned
    (set result p
       {| PeriodRow.sales_inc := max2 0 (cur_sales - prev_sales);
          PeriodRow.revenue_inc := max2 0 (cur_revenue - prev_revenue);
          PeriodRow.cumul_sales := cur_sales;
          PeriodRow.cumul_revenue := cur_revenue;
          PeriodRow.ccu := get_or (Snapshot.players item) 0;
          PeriodRow.score := get_or (Snapshot.score item) 0;
          PeriodRow.playtime := get_or (Snapshot.avgPlaytime item) 0;
          PeriodRow.price := get_or (Snapshot.price item) 0;
          PeriodRow.followers := get_or (Snapshot.followers item) 0;
          PeriodRow.wishlists := get_or (Snapshot.wishlists item) 0;
          PeriodRow.reviews := get_or (Snapshot.reviews item) 0 |},
     cur_sales, cur_revenue).

Definition get_history_for_game (game : Game.t) (freq : string)
  : outcome (dict period PeriodRow.t) :=
  let history := sorted by_timeStamp (Game.history game) in
  let by_period := collect_by_period freq history in
  '(result, _, _) <-
    for_each (period_step by_period) (sorted period_leb (keys by_period))
      ([], 0, 0) ;;
  Returned result.

(* ------------------------------------------------------------------ *)
(** *** [get_yearly_trends] *)

(** The body of [for yr, data in increments.items()]. *)
Definition trends_add (totals : dict Z Totals.t) (entry : Z * Increment.t)
  : dict Z Totals.t :=
  let '(yr, data) := entry in
  update totals yr
    (fun t =>
       {| Totals.revenue := Totals.revenue t + Increment.revenue data;
          Totals.sales := Totals.sales t + Increment.sales data;
          Totals.game_count :=
            if gtb (Increment.sales data) 0
            then (Totals.game_count t + 1)%Z else Totals.game_count t;
          Totals.score_sum :=
            if gtb (Increment.score data) 0
            then Totals.score_sum t + Increment.score data
            else Totals.score_sum t;
          Totals.score_count :=
            if gtb (Increment.score data) 0
            then (Totals.score_count t + 1)%Z else Totals.score_count t |})
    Totals.zero.

(** The body of [for game in games]. *)
Definition trends_game (totals : dict Z Totals.t) (game : Game.t)
  : outcome (dict Z Totals.t) :=
  increments <- _get_yearly_increments (Game.history game) ;;
  Returned (fold_left trends_add increments totals).

Definition trend_row (data : Totals.t) : outcome Trend.t :=
  avg_score <-
    (if (Totals.score_count data >? 0)%Z
     then div (Totals.score_sum data) (inject_Z (Totals.score_count data))
     else Returned 0) ;;
  Returned
    {| Trend.revenue := Totals.revenue data;
       Trend.sales := Totals.sales data;
       Trend.game_count := Totals.game_count data;
       Trend.avg_score := avg_score |}.

Definition get_yearly_trends (games : list Game.t)
  : outcome (dict Z Trend.t) :=
  totals <- for_each trends_game games [] ;;
  for_each
    (fun result '(yr, data) =>
       row <- trend_row data ;; Returned (set result yr row))
    (sorted (fun x y => Z.leb (fst x) (fst y)) totals) [].

(* ------------------------------------------------------------------ *)
(** *** [get_history_aggregate] *)

(** First inner loop: [by_period[period] = item] for the snapshots whose
    year is within the bounds. *)
Definition collect_within (freq : string) (year_min year_max : Z)
  (history : list Snapshot.t) : dict period Snapshot.t :=
  fold_left
    (fun by_period item =>
       match snapshot_datetime item with
       | Some dt =>
           if ((year dt <? year_min) || (year dt >? year_max))%Z%bool
           then by_period
           else set by_period (period_of freq dt) item
       | None => by_period
       end)
    history [].

(** The eight [append]s of the second inner loop. *)
Definition bucket_append (item : Snapshot.t) (prev_sales prev_revenue : Q)
  (b : Buckets.t) : Buckets.t :=
  let cur_sales := get_or (Snapshot.sales item) 0 in
  let cur_revenue := get_or (Snapshot.revenue item) 0 in
  {| Buckets.sales_inc :=
       Buckets.sales_inc b ++ [max2 0 (cur_sales - prev_sales)];
     Buckets.revenue_inc :=
       Buckets.revenue_inc b ++ [max2 0 (cur_revenue - prev_revenue)];
     Buckets.ccu := Buckets.ccu b ++ [get_or (Snapshot.players item) 0];
     Buckets.score := Buckets.score b ++ [get_or (Snapshot.score item) 0];
     Buckets.playtime :=
       Buckets.playtime b ++ [get_or (Snapshot.avgPlaytime item) 0];
     Buckets.price := Buckets.price b ++ [get_or (Snapshot.price item) 0];
     Buckets.followers :=
       Buckets.followers b ++ [get_or (Snapshot.followers item) 0];
     Buckets.wishlists :=
       Buckets.wishlists b ++ [get_or (Snapshot.wishlists item) 0] |}.

Definition bucket_step (by_period : dict period Snapshot.t)
  (st : dict period Buckets.t * Q * Q) (p : period)
  : outcome (dict period Buckets.t * Q * Q) :=
  let '(period_buckets, prev_sales, prev_revenue) := st in
  item <- subscript by_period p ;;
  Returned
    (update period_buckets p (bucket_append item prev_sales prev_revenue)
       Buckets.empty,
     get_or (Snapshot.sales item) 0, get_or (Snapshot.revenue item) 0).

(** The body of [for game in games]. *)
Definition aggregate_game (freq : string) (year_min year_max : Z)
  (period_buckets : dict period Buckets.t) (game : Game.t)
  : outcome (dict period Buckets.t) :=
  match sorted by_timeStamp (Game.history game) with
  | [] => Returned period_buckets
  | history =>
      let by_period := collect_within freq year_min year_max history in
      '(period_buckets, _, _) <-
        for_each (bucket_step by_period)
          (sorted period_leb (keys by_period)) (period_buckets, 0, 0) ;;
      Returned period_buckets
  end.

Definition _avg (lst : list Q) : outcome Q :=
  match filter (fun x => truthy x && gtb x 0) lst with
  | [] => Returned 0
  | lst => div (sum lst) (len lst)
  end.

Definition aggregate_row (buckets : Buckets.t) : outcome Aggregate.t :=
  let ccu_list := filter (fun x => gtb x 0) (Buckets.ccu buckets) in
  avg_ccu <- _avg (Buckets.ccu buckets) ;;
  avg_score <- _avg (Buckets.score buckets) ;;
  avg_playtime <- _avg (Buckets.playtime buckets) ;;
  avg_price <- _avg (Buckets.price buckets) ;;
  avg_followers <- _avg (Buckets.followers buckets) ;;
  avg_wishlists <- _avg (Buckets.wishlists buckets) ;;
  Returned
    {| Aggregate.sales_inc := sum (Buckets.sales_inc buckets);
       Aggregate.revenue_inc := sum (Buckets.revenue_inc buckets);
       Aggregate.avg_ccu := avg_ccu;
       Aggregate.max_ccu := max_default ccu_list 0;
       Aggregate.total_ccu := sum ccu_list;
       Aggregate.avg_score := avg_score;
       Aggregate.avg_playtime := avg_playtime;
       Aggregate.avg_price := avg_price;
       Aggregate.avg_followers := avg_followers;
       Aggregate.avg_wishlists := avg_wishlists;
       Aggregate.total_games :=
         Z.of_nat (List.length (Buckets.sales_inc buckets)) |}.

Definition get_history_aggregate (games : list Game.t) (freq : string)
  (year_min year_max : Z) : outcome (dict period Aggregate.t) :=
  period_buckets <- for_each (aggregate_game freq year_min year_max) games [] ;;
  for_each
    (fun result '(p, buckets) =>
       row <- aggregate_row buckets ;; Returned (set result p row))
    (sorted (fun x y => period_leb (fst x) (fst y)) period_buckets) [].

End Calendar.

(* ================================================================== *)
(** ** Category rollups: [get_genre_stats], [get_tag_stats] *)

(** The body of [for genre in g.get("genres") or []] (and of the same
    loop over the tags). *)
Definition stats_add (g : Game.t) (stats : dict string Stats.t)
  (category : string) : dict string Stats.t :=
  let score := get_or (Game.reviewScore g) 0 in
  update stats category
    (fun s =>
       {| Stats.revenue_sum := Stats.revenue_sum s + get_or (Game.revenue g) 0;
          Stats.sales_sum := Stats.sales_sum s + get_or (Game.copiesSold g) 0;
          Stats.score_sum :=
            if gtb score 0 then Stats.score_sum s + score
            else Stats.score_sum s;
          Stats.count := (Stats.count s + 1)%Z;
          Stats.score_count :=
            if gtb score 0 then (Stats.score_count s + 1)%Z
            else Stats.score_count s |})
    Stats.zero.

Definition category_row (data : Stats.t) : outcome Category.t :=
  let count := Stats.count data in
  avg_revenue <-
    (if (count =? 0)%Z then Returned 0
     else div (Stats.revenue_sum data) (inject_Z count)) ;;
  avg_sales <-
    (if (count =? 0)%Z then Returned 0
     else div (Stats.sales_sum data) (inject_Z count)) ;;
  avg_score <-
    (if (Stats.score_count data =? 0)%Z then Returned 0
     else div (Stats.score_sum data) (inject_Z (Stats.score_count data))) ;;
  Returned
    {| Category.game_count := count;
       Category.avg_revenue := avg_revenue;
       Category.avg_sales := avg_sales;
       Category.avg_score := avg_score;
       Category.total_revenue := Stats.revenue_sum data |}.

Definition category_result (ordered : list (string * Stats.t))
  : outcome (dict string Category.t) :=
  for_each
    (fun result '(category, data) =>
       row <- category_row data ;; Returned (set result category row))
    ordered [].

Definition get_genre_stats (games : list Game.t)
  : outcome (dict string Category.t) :=
  let stats :=
    fold_left (fun stats g => fold_left (stats_add g) (Game.genres g) stats)
      games [] in
  category_result
    (sorted
       (fun x y =>
          Qle_bool (Stats.revenue_sum (snd y)) (Stats.revenue_sum (snd x)))
       stats).

Definition get_tag_stats (games : list Game.t)
  : outcome (dict string Category.t) :=
  let stats :=
    fold_left (fun stats g => fold_left (stats_add g) (Game.tags g) stats)
      games [] in
  category_result
    (sorted (fun x y => Z.leb (Stats.count (snd y)) (Stats.count (snd x)))
       stats).

(* ================================================================== *)
(** ** Country rollup: [get_country_aggregate] *)

Definition COUNTRY_NAMES : dict string string :=
  [("us", "미국"); ("cn", "중국"); ("ru", "러시아"); ("de", "독일");
   ("gb", "영국"); ("fr", "프랑스"); ("br", "브라질"); ("kr", "한국");
   ("jp", "일본"); ("ca", "캐나다"); ("au", "호주"); ("pl", "폴란드");
   ("tr", "튀르키예"); ("ua", "우크라이나"); ("nl", "네덜란드");
   ("se", "스웨덴"); ("mx", "멕시코"); ("ar", "아르헨티나");
   ("it", "이탈리아"); ("es", "스페인"); ("in", "인도"); ("vn", "베트남");
   ("th", "태국"); ("id", "인도네시아"); ("sg", "싱가포르")]%string.

(** [str.upper] on the letters of ASCII; other characters are left as
    they are. *)
Definition upper_ascii (c : ascii) : ascii :=
  let n := nat_of_ascii c in
  if ((97 <=? n) && (n <=? 122))%nat%bool then ascii_of_nat (n - 32) else c.

Fixpoint upper (s : string) : string :=
  match s with
  | EmptyString => EmptyString
  | String c s' => String (upper_ascii c) (upper s')
  end.

(** [f"{COUNTRY_NAMES.get(code, code.upper())} ({code.upper()})"] *)
Definition country_label (code : string) : string :=
  let name :=
    match get COUNTRY_NAMES code with
    | Some name => name
    | None => upper code
    end in
  (name ++ " (" ++ upper code ++ ")")%string.

(** The weight of a record. *)
Definition country_weight (weight_by : string) (g : Game.t) : Q :=
  if String.eqb weight_by "revenue" then get_or (Game.revenue g) 1
  else if String.eqb weight_by "sales" then get_or (Game.copiesSold g) 1
  else 1.

(** The body of [for g in games]; the state is [(weighted, total_weight)]. *)
Definition country_game (weight_by : string) (st : dict string Q * Q)
  (g : Game.t) : dict string Q * Q :=
  let '(weighted, total_weight) := st in
  match Game.countryData g with
  | None => st
  | Some [] => st
  | Some cd =>
      let w := country_weight weight_by g in
      (fold_left
         (fun weighted '(code, pct) =>
            update weighted code (fun v => v + pct * w) 0)
         cd weighted,
       total_weight + w)
  end.

Definition get_country_aggregate (games : list Game.t) (weight_by : string)
  : outcome (dict string Q) :=
  let '(weighted, total_weight) :=
    fold_left (country_game weight_by) games ([], 0) in
  if Qeq_bool total_weight 0 then Returned []
  else
    result <-
      for_each
        (fun result '(code, val) =>
           q <- div val total_weight ;; Returned (set result code (round q 2)))
        (sorted (fun x y => Qle_bool (snd y) (snd x)) weighted) [] ;;
    Returned
      (fold_left
         (fun named '(code, pct) => set named (country_label code) pct)
         (firstn 30 result) []).

(* ================================================================== *)
(** ** Activity summary: [get_activity_summary] *)

Definition _stats (vals : list Q) : outcome (dict string Q) :=
  match filter (fun v => truthy v && gtb v 0) vals with
  | [] => Returned [("avg", 0); ("max", 0); ("median", 0); ("total", 0)]%string
  | vals =>
      let vals_sorted := sorted Qle_bool vals in
      avg <- div (sum vals) (len vals) ;;
      median <- index vals_sorted (List.length vals_sorted / 2) ;;
      Returned
        [("avg", avg); ("max", max_default vals 0); ("median", median);
         ("total", sum vals); ("count", len vals)]%string
  end.

(** The metrics of the summary, in the order of the returned mapping:
    its key, and the field of the game it reads. *)
Definition activity_metrics : list (string * (Game.t -> option Q)) :=
  [("players_ccu", Game.players); ("reviews", Game.reviews);
   ("review_score", Game.reviewScore); ("avg_playtime", Game.avgPlaytime);
   ("followers", Game.followers); ("wishlists", Game.wishlists);
   ("owners", Game.owners); ("steam_percent", Game.steamPercent);
   ("price", Game.price); ("copies_sold", Game.copiesSold);
   ("revenue", Game.revenue)]%string.

Definition get_activity_summary (games : list Game.t)
  : outcome (dict string (dict string Q)) :=
  match games with
  | [] => Returned []
  | _ =>
      map_each
        (fun '(key, field) =>
           stats <- _stats (map (fun g => get_or (field g) 0) games) ;;
           Returned (key, stats))
        activity_metrics
  end.

(* ================================================================== *)
(** ** Overlap ranker: [get_audience_overlap_top] *)

(** [Counter.most_common(n)]: the [n] largest counts, largest first, equal
    counts in the order the keys were first counted. *)
Definition most_common {K} (counter : dict K Z) (n : Z) : list (K * Z) :=
  firstn (Z.to_nat n) (sorted (fun x y => Z.leb (snd y) (snd x)) counter).

(** The body of [for ao in g.get("audienceOverlap") or []]; the state is
    [(overlap_count, overlap_data)]. *)
Definition overlap_add
  (st : dict (option Z) Z * dict (option Z) (list Edge.t)) (ao : Overlap.t)
  : dict (option Z) Z * dict (option Z) (list Edge.t) :=
  let '(overlap_count, overlap_data) := st in
  let sid := Overlap.steamId ao in
  let link := get_or (Overlap.link ao) 0 in
  if gtb link (5 # 100)
  then
    (update overlap_count sid (fun c => (c + 1)%Z) 0%Z,
     update overlap_data sid
       (fun items =>
          items ++
          [{| Edge.name :=
                match Overlap.name ao with
                | Some s => Name s
                | None => Sid sid
                end;
              Edge.link := link;
              Edge.genres := Overlap.genres ao;
              Edge.copiesSold := get_or (Overlap.copiesSold ao) 0;
              Edge.revenue := get_or (Overlap.revenue ao) 0;
              Edge.ccu := get_or (Overlap.players ao) 0 |}])
       [])
  else st.

(** The body of [for sid, cnt in overlap_count.most_common(top_n * 2)]. *)
Definition reach_row (total_games : Z)
  (overlap_data : dict (option Z) (list Edge.t)) (entry : option Z * Z)
  : outcome Reach.t :=
  let '(sid, cnt) := entry in
  let items :=
    match get overlap_data sid with
    | Some items => items
    | None => []
    end in
  avg_link <- div (sum (map Edge.link items)) (len items) ;;
  let copies_sold := max_default (map Edge.copiesSold items) 0 in
  let revenue := max_default (map Edge.revenue items) 0 in
  let ccu := max_default (map Edge.ccu items) 0 in
  let reach_score := avg_link * copies_sold in
  overlap_pct <-
    (if (total_games >? 0)%Z
     then q <- div (inject_Z cnt) (inject_Z total_games) ;;
          Returned (round (q * 100) 1)
     else Returned 0) ;;
  first <- index items 0 ;;
  Returned
    {| Reach.steamId := sid;
       Reach.name := Edge.name first;
       Reach.overlap_game_count := cnt;
       Reach.overlap_pct := overlap_pct;
       Reach.avg_link := round avg_link 3;
       Reach.copies_sold := copies_sold;
       Reach.revenue := revenue;
       Reach.ccu := ccu;
       Reach.reach_score := reach_score;
       Reach.genres := Edge.genres first |}.

Definition sort_keys : dict string (Reach.t -> Q) :=
  [("reach_score", Reach.reach_score);
   ("avg_link", Reach.avg_link);
   ("overlap_game_count", fun x => inject_Z (Reach.overlap_game_count x));
   ("copies_sold", Reach.copies_sold)]%string.

Definition get_audience_overlap_top (games : list Game.t) (top_n : Z)
  (sort_by : string) : outcome (list Reach.t) :=
  let '(overlap_count, overlap_data) :=
    fold_left
      (fun st g => fold_left overlap_add (Game.audienceOverlap g) st)
      games ([], []) in
  let total_games := Z.of_nat (List.length games) in
  result <-
    map_each (reach_row total_games overlap_data)
      (most_common overlap_count (top_n * 2)) ;;
  reach_score_key <- subscript sort_keys "reach_score"%string ;;
  let key_fn :=
    match get sort_keys sort_by with
    | Some key => key
    | None => reach_score_key
    end in
  Returned
    (slice_to (sorted (fun x y => Qle_bool (key_fn y) (key_fn x)) result)
       top_n).

(* ------------------------------------------------------------------ *)
(** *** The reach score in binary floating point

    Python's [float] is IEEE 754 binary64 with rounding to the nearest,
    ties to even, and so is [float] here. [Binary64.reach_score] is the
    arithmetic of [avg_link], [copies_sold] and [reach_score] in
    [get_audience_overlap_top] on the edges of a target, operation by
    operation, with the integers converted as Python converts them when
    they meet a [float]. *)

Set Warnings "-inexact-float".

Module Binary64.

(** [float(z)], exact for an integer of magnitude below [2^53]. *)
Definition of_Z (z : Z) : float :=
  match z with
  | Z0 => 0%float
  | Zpos _ => PrimFloat.of_uint63 (Uint63.of_Z z)
  | Zneg n => PrimFloat.opp (PrimFloat.of_uint63 (Uint63.of_Z (Zpos n)))
  end.

(** The [float] a number of the data is: for a rational with numerator
    and denominator below [2^53] the nearest binary64 number, which is
    what the decimal [0.2] is read as. *)
Definition of_Q (q : Q) : float :=
  PrimFloat.div (of_Z (Qnum q)) (of_Z (Zpos (Qden q))).

(** [sum(l)], from the integer 0. *)
Definition sum (l : list float) : float := fold_left PrimFloat.add l 0%float.

(** [len(l)] where it meets a [float]. *)
Definition len {A} (l : list A) : float := of_Z (Z.of_nat (List.length l)).

(** [max(a, b)] and [max(l, default=d)]. *)
Definition max2 (a b : float) : float := if PrimFloat.ltb a b then b else a.

Definition max_default (l : list float) (d : float) : float :=
  match l with
  | [] => d
  | x :: l' => fold_left max2 l' x
  end.

(** [avg_link = sum(x["link"] for x in items) / len(items)],
    [copies_sold = max((x["copiesSold"] for x in items), default=0)] and
    [reach_score = avg_link * copies_sold], for a non-empty [items]. *)
Definition reach_score (items : list Edge.t) : float :=
  let avg_link :=
    PrimFloat.div (sum (map (fun x => of_Q (Edge.link x)) items))
      (len items) in
  let copies_sold :=
    max_default (map (fun x => of_Q (Edge.copiesSold x)) items) 0%float in
  PrimFloat.mul avg_link copies_sold.

End Binary64.

(* ================================================================== *)
(** ** Filtering and listings: [filter_games], [get_top_games],
       [get_common_tags], [get_all_tags], [get_all_genres],
       [get_monthly_releases], [get_audience_overlap_network] *)

(** A game record with the fields that identify and date it, beside the
    fields the rollups read, which are those of [Game.t]. *)
Module Listing.
Record t : Type := {
  game : Game.t;
  steamId : option Z;
  name : option string;
  releaseDate : option Z;
  firstReleaseDate : option Z
}.
End Listing.

(** [x in l] *)
Definition mem (x : string) (l : list string) : bool :=
  existsb (String.eqb x) l.

(** [bool(n)] for a bound that may be [None]. *)
Definition truthy_bound (n : option Z) : bool :=
  match n with
  | Some z => negb (z =? 0)%Z
  | None => false
  end.

(** [game.get("releaseDate") or game.get("firstReleaseDate")] *)
Definition release_timestamp (g : Listing.t) : option Z :=
  match Listing.releaseDate g with
  | Some ts => if (ts =? 0)%Z then Listing.firstReleaseDate g else Some ts
  | None => Listing.firstReleaseDate g
  end.

(** [if values: ... if not any(v in game_values for v in values): continue] *)
Definition skip_by_values (values : option (list string))
  (game_values : list string) : bool :=
  match values with
  | Some (v :: vs) => negb (existsb (fun t => mem t game_values) (v :: vs))
  | _ => false
  end.

(** [if minimum is not None: if value < minimum: continue] *)
Definition skip_below (minimum : option Q) (value : Q) : bool :=
  match minimum with
  | Some m => negb (Qle_bool m value)
  | None => false
  end.

Section Releases.
Variable fromtimestamp : Z -> option datetime.

Definition _release_year (game : Listing.t) : option Z :=
  match release_timestamp game with
  | Some ts =>
      if (ts =? 0)%Z then None else option_map year (fromtimestamp ts)
  | None => None
  end.

(** The year block of [filter_games]. *)
Definition skip_by_year (year_min year_max : option Z) (g : Listing.t)
  : bool :=
  if truthy_bound year_min || truthy_bound year_max
  then
    match _release_year g with
    | None => true
    | Some yr =>
        match year_min with
        | Some m => truthy_bound year_min && (yr <? m)%Z
        | None => false
        end
        || match year_max with
           | Some m => truthy_bound year_max && (yr >? m)%Z
           | None => false
           end
    end
  else false.

Definition filter_games (games : list Listing.t)
  (tags genres : option (list string)) (year_min year_max : option Z)
  (sold_min reviews_min : option Q) : list Listing.t :=
  fold_left
    (fun result g =>
       if skip_by_values tags (Game.tags (Listing.game g)) then result
       else if skip_by_values genres (Game.genres (Listing.game g)) then result
       else if skip_by_year year_min year_max g then result
       else if skip_below sold_min
                 (get_or (Game.copiesSold (Listing.game g)) 0) then result
       else if skip_below reviews_min
                 (get_or (Game.reviews (Listing.game g)) 0) then result
       else result ++ [g])
    games [].

(** The value [get_monthly_releases] lists per month. *)
Record month_count : Type := {
  month_of : string;
  count_of : Z
}.

Definition get_monthly_releases (games : list Listing.t)
  : list month_count :=
  let monthly :=
    fold_left
      (fun monthly g =>
         match release_timestamp g with
         | Some ts =>
             if (ts =? 0)%Z then monthly
             else
               match fromtimestamp ts with
               | Some dt =>
                   update monthly (strftime_Ym dt) (fun c => (c + 1)%Z) 0%Z
               | None => monthly
               end
         | None => monthly
         end)
      games [] in
  map (fun '(k, v) => {| month_of := k; count_of := v |})
    (sorted (fun x y => String.leb (fst x) (fst y)) monthly).

End Releases.

(** [get_top_games], [field g] being [g.get(sort_by)], a number or
    absent. *)
Definition get_top_games {G : Type} (games : list G) (n : Z)
  (field : G -> option Q) : list G :=
  slice_to
    (sorted (fun x y => Qle_bool (get_or (field y) 0) (get_or (field x) 0))
       games)
    n.

(** The [Counter] of [get_common_tags], [get_all_tags] and
    [get_all_genres]: [counter[v] += 1] for every listed value. *)
Definition count_values (values : Game.t -> list string)
  (games : list Game.t) : dict string Z :=
  fold_left
    (fun counter g =>
       fold_left
         (fun counter v => update counter v (fun c => (c + 1)%Z) 0%Z)
         (values g) counter)
    games [].

(** [counter.most_common()] *)
Definition most_common_all {K} (counter : dict K Z) : list (K * Z) :=
  sorted (fun x y => Z.leb (snd y) (snd x)) counter.

Definition get_common_tags (games : list Game.t) (top_n : Z)
  : list (string * Z) :=
  most_common (count_values Game.tags games) top_n.

Definition get_all_tags (games : list Game.t) (min_count : Z)
  : list string :=
  map fst
    (filter (fun '(tag, cnt) => (cnt >=? min_count)%Z)
       (most_common_all (count_values Game.tags games))).

Definition get_all_genres (games : list Game.t) : list string :=
  map fst (most_common_all (count_values Game.genres games)).

(** One edge of [get_audience_overlap_network]. *)
Module Link.
Record t : Type := {
  source_id : string;
  source_name : string;
  target_id : string;
  target_name : string;
  link : Q;
  in_dataset : bool
}.
End Link.

(** [str(x.get("steamId"))] *)
Definition str_id (sid : option Z) : string :=
  match sid with
  | Some z => NilZero.string_of_int (Z.to_int z)
  | None => "None"
  end.

(** [tuple(sorted([a, b]))] *)
Definition pair_key (a b : string) : string * string :=
  if String.ltb b a then (b, a) else (a, b).

Definition pair_eqb (x y : string * string) : bool :=
  String.eqb (fst x) (fst y) && String.eqb (snd x) (snd y).

(** The body of [for overlap in g.get("audienceOverlap") or []]; the
    state is [(edges, seen)]. *)
Definition network_add (game_ids : list string) (src_id src_name : string)
  (st : list Link.t * list (string * string)) (overlap : Overlap.t)
  : list Link.t * list (string * string) :=
  let '(edges, seen) := st in
  let tgt_id := str_id (Overlap.steamId overlap) in
  let link := match Overlap.link overlap with Some l => l | None => 0 end in
  if negb (Qle_bool (1 # 10) link) then st
  else
    let key := pair_key src_id tgt_id in
    if existsb (pair_eqb key) seen then st
    else
      (edges ++
       [{| Link.source_id := src_id;
           Link.source_name := src_name;
           Link.target_id := tgt_id;
           Link.target_name :=
             match Overlap.name overlap with
             | Some s => s
             | None => tgt_id
             end;
           Link.link := link;
           Link.in_dataset := mem tgt_id game_ids |}],
       key :: seen).

Definition get_audience_overlap_network (games : list Listing.t)
  : list Link.t :=
  let game_ids := map (fun g => str_id (Listing.steamId g)) games in
  fst
    (fold_left
       (fun st g =>
          let src_id := str_id (Listing.steamId g) in
          let src_name :=
            match Listing.name g with
            | Some s => s
            | None => src_id
            end in
          fold_left (network_add game_ids src_id src_name)
            (Game.audienceOverlap (Listing.game g)) st)
       games ([], [])).

(** A calendar to evaluate examples with: UTC, proleptic Gregorian. The
    code converts in the time zone of the process; the sample inputs are
    days in the middle of a month, of the same year and month in every
    zone. *)
Definition utc_fromtimestamp (ts : Z) : option datetime :=
  let days := (ts / 86400000)%Z in
  let z := (days + 719468)%Z in
  let era := (z / 146097)%Z in
  let doe := (z - era * 146097)%Z in
  let yoe := ((doe - doe / 1460 + doe / 36524 - doe / 146096) / 365)%Z in
  let doy := (doe - (365 * yoe + yoe / 4 - yoe / 100))%Z in
  let mp := ((5 * doy + 2) / 153)%Z in
  let m := (if (mp <? 10)%Z then mp + 3 else mp - 9)%Z in
  let y := (yoe + era * 400 + (if (m <=? 2)%Z then 1 else 0))%Z in
  if ((1 <=? y) && (y <=? 9999))%Z%bool
  then Some {| year := y; month := m |}
  else None.

(* ================================================================== *)
(** ** Specification-side definitions

    What the claims say, in terms that do not mention the loops. *)

(* ------------------------------------------------------------------ *)
(** *** Lists, dictionaries and accumulation *)

(** The values greater than 0 among [vals]. *)
Definition positive (vals : list Q) : list Q := filter (fun v => gtb v 0) vals.

(** The mean of the values greater than 0, 0 when there is none. *)
Definition mean_positive (vals : list Q) : Q :=
  match positive vals with
  | [] => 0
  | pos => sum pos / len pos
  end.

(** [m] is a maximum of [l]: one of its elements, and no smaller than
    any. *)
Definition is_maximum (m : Q) (l : list Q) : Prop :=
  In m l /\ Forall (fun x => x <= m) l.

(** The last element of a list, if any. *)
Fixpoint last_opt {A : Type} (l : list A) : option A :=
  match l with
  | [] => None
  | x :: l' =>
      match last_opt l' with
      | Some y => Some y
      | None => Some x
      end
  end.

(** The elements of [l] whose key is [k]. *)
Definition with_key {K A : Type} `{Key K} (key_of : A -> option K) (k : K)
  (l : list A) : list A :=
  filter
    (fun x => match key_of x with Some k' => eqb k k' | None => false end) l.

(** Whether the dictionary has the key. *)
Definition has_key {K V : Type} `{Key K} (d : dict K V) (k : K) : bool :=
  match get d k with
  | Some _ => true
  | None => false
  end.

(** The entries of a dictionary in ascending order of their keys. *)
Definition by_key {K V : Type} (leb : K -> K -> bool) (d : dict K V)
  : list (K * V) :=
  sorted (fun x y => leb (fst x) (fst y)) d.

(** The snapshots a dictionary holds for the given keys. *)
Definition items_at {K V : Type} `{Key K} (d : dict K V) (ks : list K)
  : list (K * option V) :=
  map (fun k => (k, get d k)) ks.

(** Feeding a list of keyed events to a [defaultdict], one [update] per
    event. *)
Definition accumulate {K V E : Type} `{Key K} (upd : V -> E -> V) (dflt : V)
  (d : dict K V) (events : list (K * E)) : dict K V :=
  fold_left (fun d '(k, e) => update d k (fun v => upd v e) dflt) events d.

(** The events of key [k], in order. *)
Definition select {K E : Type} `{Key K} (k : K) (events : list (K * E))
  : list E :=
  map snd (filter (fun ke => eqb k (fst ke)) events).

(* ------------------------------------------------------------------ *)
(** *** The walk over the winning snapshots *)

(** The rows of [_get_yearly_increments] and [get_history_for_game]. *)
Definition yearly_row (item : Snapshot.t) (prev_sales prev_revenue : Q)
  : Increment.t :=
  let cur_sales := get_or (Snapshot.sales item) 0 in
  let cur_revenue := get_or (Snapshot.revenue item) 0 in
  {| Increment.sales := max2 0 (cur_sales - prev_sales);
     Increment.revenue := max2 0 (cur_revenue - prev_revenue);
     Increment.cumulative_sales := cur_sales;
     Increment.cumulative_revenue := cur_revenue;
     Increment.score := get_or (Snapshot.score item) 0 |}.

Definition period_row (item : Snapshot.t) (prev_sales prev_revenue : Q)
  : PeriodRow.t :=
  let cur_sales := get_or (Snapshot.sales item) 0 in
  let cur_revenue := get_or (Snapshot.revenue item) 0 in
  {| PeriodRow.sales_inc := max2 0 (cur_sales - prev_sales);
     PeriodRow.revenue_inc := max2 0 (cur_revenue - prev_revenue);
     PeriodRow.cumul_sales := cur_sales;
     PeriodRow.cumul_revenue := cur_revenue;
     PeriodRow.ccu := get_or (Snapshot.players item) 0;
     PeriodRow.score := get_or (Snapshot.score item) 0;
     PeriodRow.playtime := get_or (Snapshot.avgPlaytime item) 0;
     PeriodRow.price := get_or (Snapshot.price item) 0;
     PeriodRow.followers := get_or (Snapshot.followers item) 0;
     PeriodRow.wishlists := get_or (Snapshot.wishlists item) 0;
     PeriodRow.reviews := get_or (Snapshot.reviews item) 0 |}.

(** The walk over the winning snapshots in key order, as a function of
    the snapshots alone. *)
Fixpoint walk {K R : Type} (row : Snapshot.t -> Q -> Q -> R)
  (items : list (K * Snapshot.t)) (prev_sales prev_revenue : Q)
  : list (K * R) :=
  match items with
  | [] => []
  | (k, item) :: rest =>
      (k, row item prev_sales prev_revenue)
        :: walk row rest (get_or (Snapshot.sales item) 0)
             (get_or (Snapshot.revenue item) 0)
  end.

(** The loop body [_get_yearly_increments] and [get_history_for_game]
    have in common, the row left open. *)
Definition walk_step {K R : Type} `{Key K} (row : Snapshot.t -> Q -> Q -> R)
  (by_key : dict K Snapshot.t) (st : dict K R * Q * Q) (k : K)
  : outcome (dict K R * Q * Q) :=
  let '(result, prev_sales, prev_revenue) := st in
  item <- subscript by_key k ;;
  Returned (set result k (row item prev_sales prev_revenue),
            get_or (Snapshot.sales item) 0, get_or (Snapshot.revenue item) 0).

(** Every row's increments are computed against the raw cumulative values
    of the row before it, the first against [prev_sales], [prev_revenue]. *)
Fixpoint tracks_baseline (prev_sales prev_revenue : Q)
  (out : list (Z * Increment.t)) : Prop :=
  match out with
  | [] => True
  | (_, e) :: rest =>
      Increment.sales e = max2 0 (Increment.cumulative_sales e - prev_sales) /\
      Increment.revenue e
        = max2 0 (Increment.cumulative_revenue e - prev_revenue) /\
      tracks_baseline (Increment.cumulative_sales e)
        (Increment.cumulative_revenue e) rest
  end.

(** The rows follow the snapshots [held], one row for each and in their
    order: a row has the year of its snapshot, the snapshot's own sales
    and revenue as cumulative values, and as increments those values less
    the ones of the snapshot before it, the first less [prev_sales] and
    [prev_revenue], and never under 0. *)
Fixpoint follows_snapshots (prev_sales prev_revenue : Q)
  (held : list (Z * Snapshot.t)) (out : list (Z * Increment.t)) : Prop :=
  match held, out with
  | [], [] => True
  | (yr, item) :: held', (yr', e) :: out' =>
      yr' = yr /\
      Increment.cumulative_sales e = get_or (Snapshot.sales item) 0 /\
      Increment.cumulative_revenue e = get_or (Snapshot.revenue item) 0 /\
      Increment.sales e
        = max2 0 (get_or (Snapshot.sales item) 0 - prev_sales) /\
      Increment.revenue e
        = max2 0 (get_or (Snapshot.revenue item) 0 - prev_revenue) /\
      follows_snapshots (get_or (Snapshot.sales item) 0)
        (get_or (Snapshot.revenue item) 0) held' out'
  | _, _ => False
  end.

(* ------------------------------------------------------------------ *)
(** *** Category, country, activity and overlap rollups *)

(** One record added to the accumulator of its category. *)
Definition stats_upd (s : Stats.t) (g : Game.t) : Stats.t :=
  let score := get_or (Game.reviewScore g) 0 in
  {| Stats.revenue_sum := Stats.revenue_sum s + get_or (Game.revenue g) 0;
     Stats.sales_sum := Stats.sales_sum s + get_or (Game.copiesSold g) 0;
     Stats.score_sum :=
       if gtb score 0 then Stats.score_sum s + score else Stats.score_sum s;
     Stats.count := (Stats.count s + 1)%Z;
     Stats.score_count :=
       if gtb score 0 then (Stats.score_count s + 1)%Z
       else Stats.score_count s |}.

(** The records of a category, one for each time a game lists it. *)
Definition category_events (field : Game.t -> list string)
  (games : list Game.t) : list (string * Game.t) :=
  flat_map (fun g => map (fun c => (c, g)) (field g)) games.

(** The review scores of the records of category [c], absent ones as 0. *)
Definition group_scores (field : Game.t -> list string) (c : string)
  (games : list Game.t) : list Q :=
  map (fun g => get_or (Game.reviewScore g) 0)
    (select c (category_events field games)).

(** The records that supply country data: a non-empty mapping. *)
Definition supplies_country_data (g : Game.t) : bool :=
  match Game.countryData g with
  | Some (_ :: _) => true
  | _ => false
  end.

(** The share of every country of every supplying record, times the
    weight of the record. *)
Definition country_events (weight_by : string) (games : list Game.t)
  : list (string * Q) :=
  flat_map
    (fun g =>
       match Game.countryData g with
       | Some cd =>
           map (fun '(code, pct) => (code, pct * country_weight weight_by g)) cd
       | None => []
       end)
    (filter supplies_country_data games).

(** The weights of the supplying records, summed. *)
Definition total_country_weight (weight_by : string) (games : list Game.t)
  : Q :=
  sum (map (country_weight weight_by) (filter supplies_country_data games)).

(** What the activity summary says of a metric whose positive values are
    [pos]: the five statistics over them, the median being the element
    at the middle index of their ascending order; zeros when there is no
    positive value. *)
Definition stats_over (pos : list Q) (stats : dict string Q) : Prop :=
  match pos with
  | [] =>
      get stats "avg"%string = Some 0 /\ get stats "max"%string = Some 0 /\
      get stats "median"%string = Some 0 /\ get stats "total"%string = Some 0
  | _ =>
      ~ len pos == 0 /\
      get stats "avg"%string = Some (sum pos / len pos) /\
      get stats "max"%string = Some (max_default pos 0) /\
      (exists m, get stats "median"%string = Some m /\
         nth_error (sorted Qle_bool pos) (List.length pos / 2) = Some m) /\
      get stats "total"%string = Some (sum pos) /\
      get stats "count"%string = Some (len pos)
  end.

(** What [get_audience_overlap_top] keeps of an edge. *)
Definition edge_of (ao : Overlap.t) : Edge.t :=
  {| Edge.name :=
       match Overlap.name ao with
       | Some s => Name s
       | None => Sid (Overlap.steamId ao)
       end;
     Edge.link := get_or (Overlap.link ao) 0;
     Edge.genres := Overlap.genres ao;
     Edge.copiesSold := get_or (Overlap.copiesSold ao) 0;
     Edge.revenue := get_or (Overlap.revenue ao) 0;
     Edge.ccu := get_or (Overlap.players ao) 0 |}.

(** The edges of a list that survive the floor, [link > 0.05], each under
    the id of its target. *)
Definition surviving (aos : list Overlap.t) : list (option Z * Edge.t) :=
  flat_map
    (fun ao =>
       if gtb (get_or (Overlap.link ao) 0) (5 # 100)
       then [(Overlap.steamId ao, edge_of ao)]
       else [])
    aos.

(** The surviving edges of all games, in the order of the games and of
    their lists; an edge is there once for each time it is listed. *)
Definition surviving_edges (games : list Game.t)
  : list (option Z * Edge.t) :=
  surviving (flat_map Game.audienceOverlap games).

(* ------------------------------------------------------------------ *)
(** *** Temporal rollups *)

(** One yearly row added to the accumulator of its year. *)
Definition totals_upd (t : Totals.t) (data : Increment.t) : Totals.t :=
  {| Totals.revenue := Totals.revenue t + Increment.revenue data;
     Totals.sales := Totals.sales t + Increment.sales data;
     Totals.game_count :=
       if gtb (Increment.sales data) 0
       then (Totals.game_count t + 1)%Z else Totals.game_count t;
     Totals.score_sum :=
       if gtb (Increment.score data) 0
       then Totals.score_sum t + Increment.score data
       else Totals.score_sum t;
     Totals.score_count :=
       if gtb (Increment.score data) 0
       then (Totals.score_count t + 1)%Z else Totals.score_count t |}.

(** What a history contributes to a period of [get_history_aggregate]:
    the winning snapshot of the period and the baselines it is measured
    against. *)
Definition bucket_upd (b : Buckets.t) (ev : Snapshot.t * Q * Q) : Buckets.t :=
  let '(item, prev_sales, prev_revenue) := ev in
  bucket_append item prev_sales prev_revenue b.

Definition event_snapshot (ev : Snapshot.t * Q * Q) : Snapshot.t :=
  fst (fst ev).

Definition event_sales_inc (ev : Snapshot.t * Q * Q) : Q :=
  let '(item, prev_sales, _) := ev in
  max2 0 (get_or (Snapshot.sales item) 0 - prev_sales).

Definition event_score (ev : Snapshot.t * Q * Q) : Q :=
  get_or (Snapshot.score (event_snapshot ev)) 0.

Section CalendarSpec.
Variable fromtimestamp : Z -> option datetime.

(** The yearly rows of a history; [_get_yearly_increments] returns for
    every history. *)
Definition yearly_increments_of (history : list Snapshot.t)
  : dict Z Increment.t :=
  match _get_yearly_increments fromtimestamp history with
  | Returned increments => increments
  | Raised _ => []
  end.

(** The yearly rows of all games, each under its year. *)
Definition trend_events (games : list Game.t) : list (Z * Increment.t) :=
  flat_map (fun g => yearly_increments_of (Game.history g)) games.

(** The snapshot [get_history_aggregate] keeps of a game for each period
    within the bounds. *)
Definition winners (freq : string) (year_min year_max : Z) (g : Game.t)
  : dict period Snapshot.t :=
  collect_within fromtimestamp freq year_min year_max
    (sorted by_timeStamp (Game.history g)).

(** The contributions of a game, in ascending order of the periods. *)
Definition period_events (freq : string) (year_min year_max : Z)
  (g : Game.t) : list (period * (Snapshot.t * Q * Q)) :=
  walk (fun item prev_sales prev_revenue => (item, prev_sales, prev_revenue))
    (by_key period_leb (winners freq year_min year_max g)) 0 0.

Definition aggregate_events (freq : string) (year_min year_max : Z)
  (games : list Game.t) : list (period * (Snapshot.t * Q * Q)) :=
  flat_map (period_events freq year_min year_max) games.

(** The year of a snapshot, if it has a usable time stamp. *)
Definition year_key (item : Snapshot.t) : option Z :=
  option_map year (snapshot_datetime fromtimestamp item).

(** The period of a snapshot, if it has a usable time stamp. *)
Definition period_key (freq : string) (item : Snapshot.t) : option period :=
  option_map (period_of freq) (snapshot_datetime fromtimestamp item).

(** A snapshot whose year is outside the bounds. *)
Definition out_of_window (year_min year_max : Z) (item : Snapshot.t) : bool :=
  match snapshot_datetime fromtimestamp item with
  | Some dt => ((year dt <? year_min) || (year dt >? year_max))%Z%bool
  | None => false
  end.

(** The game without the snapshots outside the bounds. *)
Definition within_window (year_min year_max : Z) (g : Game.t) : Game.t :=
  {| Game.genres := Game.genres g; Game.tags := Game.tags g;
     Game.revenue := Game.revenue g; Game.copiesSold := Game.copiesSold g;
     Game.reviewScore := Game.reviewScore g; Game.reviews := Game.reviews g;
     Game.players := Game.players g; Game.avgPlaytime := Game.avgPlaytime g;
     Game.followers := Game.followers g; Game.wishlists := Game.wishlists g;
     Game.owners := Game.owners g; Game.steamPercent := Game.steamPercent g;
     Game.price := Game.price g;
     Game.history :=
       filter (fun item => negb (out_of_window year_min year_max item))
         (Game.history g);
     Game.countryData := Game.countryData g;
     Game.audienceOverlap := Game.audienceOverlap g |}.

End CalendarSpec.

(* ================================================================== *)
(** ** Sample inputs *)

(** A snapshot with a time stamp, cumulative sales and revenue, and a
    score. *)
Definition snapshot_at (ts : Z) (sales revenue score : Q) : Snapshot.t :=
  {| Snapshot.timeStamp := Some ts;
     Snapshot.sales := Some sales;
     Snapshot.revenue := Some revenue;
     Snapshot.score := Some score;
     Snapshot.players := None;
     Snapshot.avgPlaytime := None;
     Snapshot.price := None;
     Snapshot.followers := None;
     Snapshot.wishlists := None;
     Snapshot.reviews := None |}.

(** 15 January 2020 and 15 June 2020, 00:00 UTC: the same calendar year
    in every time zone. *)
Definition mid_january_2020 : Snapshot.t :=
  snapshot_at 1579046400000 50 500 70.
Definition mid_june_2020 : Snapshot.t :=
  snapshot_at 1592179200000 100 1000 80.

(** Cumulative sales of 100 in 2019, revised down to 50 in 2020, and 80
    in 2021. *)
Definition revised_history : list Snapshot.t :=
  [snapshot_at 1560556800000 100 1000 0;
   snapshot_at 1592179200000 50 500 0;
   snapshot_at 1623715200000 80 800 0].

(** A game with the given fields and nothing else. *)
Definition sample_game (genres : list string)
  (revenue reviewScore players : option Q)
  (countryData : option (dict string Q)) (audienceOverlap : list Overlap.t)
  (history : list Snapshot.t) : Game.t :=
  {| Game.genres := genres; Game.tags := [];
     Game.revenue := revenue; Game.copiesSold := None;
     Game.reviewScore := reviewScore; Game.reviews := None;
     Game.players := players;
     Game.avgPlaytime := None; Game.followers := None;
     Game.wishlists := None; Game.owners := None;
     Game.steamPercent := None; Game.price := None;
     Game.history := history; Game.countryData := countryData;
     Game.audienceOverlap := audienceOverlap |}.

(** A game with no data at all. *)
Definition blank_game : Game.t := sample_game [] None None None None [] [].

(** A game with the two snapshots of 2020. *)
Definition game_2020 : Game.t :=
  sample_game [] None None None None [] [mid_january_2020; mid_june_2020].

(** A game with cumulative sales of 1000 in June 2014 and of 1500 in June
    2020. *)
Definition game_since_2014 : Game.t :=
  sample_game [] None None None None []
    [snapshot_at 1402790400000 1000 10000 0;
     snapshot_at 1592179200000 1500 15000 0].

(** A game whose only snapshot, of June 2020, reports no sales. *)
Definition game_without_sales : Game.t :=
  sample_game [] None None None None []
    [snapshot_at 1592179200000 0 0 80].

(** Games whose [players] are 0, 0, 100 and 300. *)
Definition ccu_games : list Game.t :=
  map (fun ccu => sample_game [] None None (Some ccu) None [] [])
    [0; 0; 100; 300].

(** Three games of genre "RPG" with review scores 0, 80 and 90. *)
Definition rpg_games : list Game.t :=
  map (fun score => sample_game ["RPG"%string] None (Some score) None None [] [])
    [0; 80; 90].

(** Two games of genre "RPG" with review scores -10 and 80. *)
Definition rpg_games_negative : list Game.t :=
  map (fun score => sample_game ["RPG"%string] None (Some score) None None [] [])
    [-10; 80].

(** Records A (revenue 100, us 50) and B (revenue 300, us 70). *)
Definition us_games : list Game.t :=
  [sample_game [] (Some 100) None None (Some [("us"%string, 50)]) [] [];
   sample_game [] (Some 300) None None (Some [("us"%string, 70)]) [] []].

(** One record with revenue 100 and us 33.333. *)
Definition us_third : list Game.t :=
  [sample_game [] (Some 100) None None (Some [("us"%string, 33333 # 1000)])
     [] []].

(** An edge to the target [sid]. *)
Definition edge_to (sid : Z) (link copiesSold : Q) : Overlap.t :=
  {| Overlap.steamId := Some sid;
     Overlap.name := Some "target"%string;
     Overlap.link := Some link;
     Overlap.genres := [];
     Overlap.copiesSold := Some copiesSold;
     Overlap.revenue := None;
     Overlap.players := None |}.

(** Two games that refer to target 7 with links 0.2 and 0.4, and report
    1,500,000 and 2,000,000 copies sold for it. *)
Definition overlap_games : list Game.t :=
  [sample_game [] None None None None [edge_to 7 (2 # 10) 1500000] [];
   sample_game [] None None None None [edge_to 7 (4 # 10) 2000000] []].

(* ================================================================== *)
(** ** Definitions for the further properties *)

(** Every element is at least the one before it, the first at least
    [prev]. *)
Fixpoint rises_from (prev : Q) (l : list Q) : Prop :=
  match l with
  | [] => True
  | x :: l' => prev <= x /\ rises_from x l'
  end.

(** A whole number of magnitude up to [2^53]: on such numbers the
    subtractions, maxima and sums of the increment calculator are exact
    in Python, for an [int] and for a [float] alike. *)
Definition whole (x : Q) : bool :=
  (Qden x =? 1)%positive && (Z.abs (Qnum x) <=? 2 ^ 53)%Z.

(** Cumulative sales of 100, 150 and 180 in 2019, 2020 and 2021. *)
Definition growing_history : list Snapshot.t :=
  [snapshot_at 1560556800000 100 1000 0;
   snapshot_at 1592179200000 150 1500 0;
   snapshot_at 1623715200000 180 1800 0].

(** Snapshots without a usable time stamp: none, and 0. *)
Definition undated_history : list Snapshot.t :=
  [{| Snapshot.timeStamp := None; Snapshot.sales := Some 5;
      Snapshot.revenue := Some 50; Snapshot.score := None;
      Snapshot.players := None; Snapshot.avgPlaytime := None;
      Snapshot.price := None; Snapshot.followers := None;
      Snapshot.wishlists := None; Snapshot.reviews := None |};
   snapshot_at 0 7 70 0].

(** The yearly row and the period row of the same year say the same. *)
Definition same_row (y : Z * Increment.t) (r : period * PeriodRow.t) : Prop :=
  fst r = PYear (fst y) /\
  PeriodRow.sales_inc (snd r) = Increment.sales (snd y) /\
  PeriodRow.revenue_inc (snd r) = Increment.revenue (snd y) /\
  PeriodRow.cumul_sales (snd r) = Increment.cumulative_sales (snd y) /\
  PeriodRow.cumul_revenue (snd r) = Increment.cumulative_revenue (snd y) /\
  PeriodRow.score (snd r) = Increment.score (snd y).

(** Strictly before, in the order of the period keys. *)
Definition period_lt (a b : period) : Prop :=
  period_leb a b = true /\ a <> b.

(** A game with nothing but a history. *)
Definition game_with_history (history : list Snapshot.t) : Game.t :=
  sample_game [] None None None None [] history.

(** A yearly entry under its period key. *)
Definition as_period {V : Type} (e : Z * V) : period * V :=
  (PYear (fst e), snd e).

(** The sort key [get_audience_overlap_top] uses for [sort_by]. *)
Definition chosen_key (sort_by : string) : Reach.t -> Q :=
  match get sort_keys sort_by with
  | Some key => key
  | None => Reach.reach_score
  end.

(** The game without the edges that do not pass the floor of
    [get_audience_overlap_top]. *)
Definition without_weak_edges (g : Game.t) : Game.t :=
  {| Game.genres := Game.genres g; Game.tags := Game.tags g;
     Game.revenue := Game.revenue g; Game.copiesSold := Game.copiesSold g;
     Game.reviewScore := Game.reviewScore g; Game.reviews := Game.reviews g;
     Game.players := Game.players g; Game.avgPlaytime := Game.avgPlaytime g;
     Game.followers := Game.followers g; Game.wishlists := Game.wishlists g;
     Game.owners := Game.owners g; Game.steamPercent := Game.steamPercent g;
     Game.price := Game.price g;
     Game.history := Game.history g;
     Game.countryData := Game.countryData g;
     Game.audienceOverlap :=
       filter (fun ao => gtb (get_or (Overlap.link ao) 0) (5 # 100))
         (Game.audienceOverlap g) |}.

(** What a row of a category rollup says of the records of category [c],
    a record once for each time it lists [c]. *)
Definition reports_group (field : Game.t -> list string) (c : string)
  (games : list Game.t) (row : Category.t) : Prop :=
  let group := select c (category_events field games) in
  group <> [] /\
  Category.game_count row = Z.of_nat (List.length group) /\
  Category.total_revenue row
    = sum (map (fun g => get_or (Game.revenue g) 0) group) /\
  Category.avg_revenue row = Category.total_revenue row / len group /\
  Category.avg_sales row
    = sum (map (fun g => get_or (Game.copiesSold g) 0) group) / len group.

(** Whether [filter_games] keeps a game: none of its checks says
    [continue]. *)
Definition kept (fromtimestamp : Z -> option datetime)
  (tags genres : option (list string)) (year_min year_max : option Z)
  (sold_min reviews_min : option Q) (g : Listing.t) : bool :=
  negb (skip_by_values tags (Game.tags (Listing.game g)))
  && negb (skip_by_values genres (Game.genres (Listing.game g)))
  && negb (skip_by_year fromtimestamp year_min year_max g)
  && negb (skip_below sold_min (get_or (Game.copiesSold (Listing.game g)) 0))
  && negb (skip_below reviews_min (get_or (Game.reviews (Listing.game g)) 0)).

(** A listing with the given identity, dates, tags, copies sold and
    edges. *)
Definition sample_listing (steamId : Z) (releaseDate : option Z)
  (tags : list string) (copiesSold : Q) (audienceOverlap : list Overlap.t)
  : Listing.t :=
  {| Listing.game :=
       {| Game.genres := []; Game.tags := tags;
          Game.revenue := None; Game.copiesSold := Some copiesSold;
          Game.reviewScore := None; Game.reviews := None;
          Game.players := None;
          Game.avgPlaytime := None; Game.followers := None;
          Game.wishlists := None; Game.owners := None;
          Game.steamPercent := None; Game.price := None;
          Game.history := []; Game.countryData := None;
          Game.audienceOverlap := audienceOverlap |};
     Listing.steamId := Some steamId;
     Listing.name := None;
     Listing.releaseDate := releaseDate;
     Listing.firstReleaseDate := None |}.

(** Three listings: released in June 2019 and June 2020, and one without
    a release date. *)
Definition dated_listings : list Listing.t :=
  [sample_listing 1 (Some 1560556800000%Z) ["RPG"%string] 100 [];
   sample_listing 2 (Some 1592179200000%Z) ["RPG"%string; "Indie"%string]
     50 [];
   sample_listing 3 None ["Indie"%string] 10 []].

(** How many times the records list the value [v]. *)
Definition listings (values : Game.t -> list string) (v : string)
  (games : list Game.t) : Z :=
  Z.of_nat (List.length (select v (category_events values games))).

(** The month a listing was released in, if it has a usable release time
    stamp. *)
Definition release_month (fromtimestamp : Z -> option datetime)
  (g : Listing.t) : option string :=
  match release_timestamp g with
  | Some ts =>
      if (ts =? 0)%Z then None
      else option_map strftime_Ym (fromtimestamp ts)
  | None => None
  end.

(** The listings with a release month, each under its month. *)
Definition release_events (fromtimestamp : Z -> option datetime)
  (games : list Listing.t) : list (string * Listing.t) :=
  flat_map
    (fun g =>
       match release_month fromtimestamp g with
       | Some m => [(m, g)]
       | None => []
       end)
    games.

(** The listings released in the month [m]. *)
Definition released_in (fromtimestamp : Z -> option datetime) (m : string)
  (games : list Listing.t) : list Listing.t :=
  filter
    (fun g =>
       match release_month fromtimestamp g with
       | Some m' => String.eqb m m'
       | None => false
       end)
    games.

(** The unordered pair an edge of the network joins. *)
Definition link_key (e : Link.t) : string * string :=
  pair_key (Link.source_id e) (Link.target_id e).

(** [overlap.get("link", 0)] *)
Definition listed_link (overlap : Overlap.t) : Q :=
  match Overlap.link overlap with
  | Some l => l
  | None => 0
  end.

(** The unordered pair an edge listed by a game joins. *)
Definition listed_key (g : Listing.t) (overlap : Overlap.t)
  : string * string :=
  pair_key (str_id (Listing.steamId g)) (str_id (Overlap.steamId overlap)).

(** The ids of the games, as [get_audience_overlap_network] collects
    them. *)
Definition network_ids (games : list Listing.t) : list string :=
  map (fun g => str_id (Listing.steamId g)) games.

(** The body of the inner loop of [get_audience_overlap_network], for an
    edge [snd ev] listed by the game [fst ev]. *)
Definition network_step (game_ids : list string)
  (st : list Link.t * list (string * string))
  (ev : Listing.t * Overlap.t) : list Link.t * list (string * string) :=
  let src_id := str_id (Listing.steamId (fst ev)) in
  network_add game_ids src_id
    match Listing.name (fst ev) with
    | Some s => s
    | None => src_id
    end st (snd ev).

(** What holds of the edges and the pairs seen, after the listed edges
    [done]. *)
Definition network_invariant (game_ids : list string)
  (done : list (Listing.t * Overlap.t))
  (st : list Link.t * list (string * string)) : Prop :=
  (forall k, In k (snd st) <-> In k (map link_key (fst st))) /\
  NoDup (map link_key (fst st)) /\
  Forall
    (fun e =>
       1 # 10 <= Link.link e /\
       Link.in_dataset e = mem (Link.target_id e) game_ids)
    (fst st) /\
  (forall ev, In ev done -> 1 # 10 <= listed_link (snd ev) ->
     In (listed_key (fst ev) (snd ev)) (map link_key (fst st))).


(** The revenue increment of a contribution to [get_history_aggregate]. *)
Definition event_revenue_inc (ev : Snapshot.t * Q * Q) : Q :=
  let '(item, _, prev_revenue) := ev in
  max2 0 (get_or (Snapshot.revenue item) 0 - prev_revenue).

(* ================================================================== *)
(** * Properties *)

(* ================================================================== *)
(** ** Facts about the Python built-ins *)

Module PyFacts.

Class KeyOk (K : Type) `{Key K} : Prop :=
  eqb_eq_iff : forall x y : K, eqb x y = true <-> x = y.

#[export] Instance Z_KeyOk : KeyOk Z.
Proof. exact Z.eqb_eq. Qed.

#[export] Instance string_KeyOk : KeyOk string.
Proof. exact String.eqb_eq. Qed.

#[export] Instance option_KeyOk {K} `{KeyOk K} : KeyOk (option K).
Proof.
  intros [x|] [y|]; simpl; try (split; congruence).
  rewrite eqb_eq_iff. split; congruence.
Qed.

#[export] Instance period_KeyOk : KeyOk period.
Proof.
  intros [x|x] [y|y]; simpl; try (split; congruence).
  - rewrite Z.eqb_eq. split; congruence.
  - rewrite String.eqb_eq. split; congruence.
Qed.

Section KeyFacts.
Context {K : Type} `{KeyOk K}.

Lemma eqb_spec (k k' : K) : reflect (k = k') (eqb k k').
Proof. apply iff_reflect. symmetry. apply eqb_eq_iff. Qed.

Lemma eqb_refl (k : K) : eqb k k = true.
Proof. now apply eqb_eq_iff. Qed.

Lemma eqb_neq (k k' : K) : k <> k' -> eqb k k' = false.
Proof. destruct (eqb_spec k k'); congruence. Qed.

Lemma eqb_eq (k k' : K) : eqb k k' = true -> k = k'.
Proof. apply eqb_eq_iff. Qed.
End KeyFacts.

(** *** Numbers *)

Lemma gtb_true (x y : Q) : gtb x y = true <-> y < x.
Proof.
  unfold gtb. rewrite negb_true_iff, <- not_true_iff_false, Qle_bool_iff.
  split; [apply Qnot_le_lt | apply Qlt_not_le].
Qed.

Lemma gtb_false (x y : Q) : gtb x y = false <-> x <= y.
Proof. unfold gtb. rewrite negb_false_iff. apply Qle_bool_iff. Qed.

Lemma max2_zero_nonneg (x : Q) : 0 <= max2 0 x.
Proof.
  unfold max2. destruct (gtb x 0) eqn:E.
  - apply gtb_true in E. lra.
  - lra.
Qed.

(** *** Dictionaries *)

Section DictFacts.
Context {K V : Type} `{KeyOk K}.
Implicit Types (d : dict K V) (k : K) (v : V).

Lemma get_set_eq d k v : get (set d k v) k = Some v.
Proof.
  induction d as [|[k' v'] d IH]; simpl.
  - now rewrite eqb_refl.
  - destruct (eqb_spec k k') as [->|Hne]; simpl.
    + now rewrite eqb_refl.
    + now rewrite (eqb_neq _ _ Hne).
Qed.

Lemma get_set_ne d k k' v : k <> k' -> get (set d k v) k' = get d k'.
Proof.
  intros Hne. induction d as [|[k0 v0] d IH]; simpl.
  - rewrite eqb_neq; auto.
  - destruct (eqb_spec k k0) as [->|Hne0]; simpl.
    + rewrite eqb_neq; auto.
    + now rewrite IH.
Qed.

Lemma get_None d k : get d k = None <-> ~ In k (keys d).
Proof.
  induction d as [|[k' v'] d IH]; simpl; [tauto|].
  destruct (eqb_spec k k') as [->|Hne].
  - split; [discriminate | tauto].
  - rewrite IH. split; [intros Hn [E|Hi]; congruence | tauto].
Qed.

Lemma get_Some_In d k v : get d k = Some v -> In (k, v) d.
Proof.
  induction d as [|[k' v'] d IH]; simpl; [discriminate|].
  destruct (eqb_spec k k') as [->|Hne]; intros E.
  - injection E as ->. now left.
  - right; auto.
Qed.

Lemma In_keys_get d k : In k (keys d) -> exists v, get d k = Some v.
Proof.
  intros Hin. destruct (get d k) eqn:E; [eauto|].
  apply get_None in E. contradiction.
Qed.

Lemma In_get d k v : NoDup (keys d) -> In (k, v) d -> get d k = Some v.
Proof.
  induction d as [|[k' v'] d IH]; simpl; [tauto|].
  intros Hnd [E|Hin].
  - injection E as -> ->. now rewrite eqb_refl.
  - inversion Hnd as [|? ? Hnotin Hnd']; subst.
    destruct (eqb_spec k k') as [->|Hne]; [|auto].
    exfalso. apply Hnotin. change (In (fst (k', v)) (map fst d)).
    now apply in_map.
Qed.

Lemma set_absent d k v : get d k = None -> set d k v = d ++ [(k, v)].
Proof.
  induction d as [|[k' v'] d IH]; simpl; [reflexivity|].
  destruct (eqb_spec k k'); [discriminate|]. intros E. now rewrite IH.
Qed.

Lemma keys_set_present d k v :
  get d k <> None -> keys (set d k v) = keys d.
Proof.
  induction d as [|[k' v'] d IH]; simpl; [congruence|].
  destruct (eqb_spec k k'); simpl; [reflexivity|].
  intros E. now rewrite IH.
Qed.

Lemma In_set d k v k' v' :
  In (k', v') (set d k v) -> (k' = k /\ v' = v) \/ In (k', v') d.
Proof.
  induction d as [|[k0 v0] d IH]; simpl.
  - intros [E|[]]. injection E as <- <-. auto.
  - destruct (eqb_spec k k0) as [->|Hne]; simpl.
    + intros [E|Hin]; [injection E as <- <-|]; auto.
    + intros [E|Hin]; [auto|]. destruct (IH Hin); auto.
Qed.

Lemma NoDup_keys_set d k v : NoDup (keys d) -> NoDup (keys (set d k v)).
Proof.
  intros Hnd. destruct (get d k) eqn:E.
  - rewrite keys_set_present; congruence.
  - rewrite set_absent by assumption. unfold keys. rewrite map_app. simpl.
    apply get_None in E.
    apply NoDup_app; [assumption | repeat constructor; simpl; tauto |].
    intros x Hx [<-|[]]. contradiction.
Qed.

Lemma In_keys_set d k v k' :
  In k' (keys (set d k v)) <-> k' = k \/ In k' (keys d).
Proof.
  destruct (get d k) eqn:E.
  - rewrite keys_set_present by congruence.
    split; [auto|]. intros [->|Hin]; [|assumption].
    destruct (In_dec (fun a b => reflect_dec _ _ (eqb_spec a b)) k (keys d))
      as [Hin|Hnin]; [assumption|].
    apply get_None in Hnin. congruence.
  - rewrite set_absent by assumption. unfold keys. rewrite map_app, in_app_iff.
    simpl. intuition.
Qed.

End DictFacts.

End PyFacts.

Import PyFacts.

(** *** Positive values, division and maxima *)

Lemma truthy_positive (v : Q) : truthy v && gtb v 0 = gtb v 0.
Proof.
  destruct (gtb v 0) eqn:E; [|apply andb_false_r].
  apply gtb_true in E. unfold truthy.
  destruct (Qeq_bool v 0) eqn:E0; [|reflexivity].
  apply Qeq_bool_iff in E0. lra.
Qed.

Lemma filter_truthy_positive (vals : list Q) :
  filter (fun v => truthy v && gtb v 0) vals = filter (fun v => gtb v 0) vals.
Proof. apply filter_ext. intros v. apply truthy_positive. Qed.

Lemma len_cons_nonzero {A} (x : A) (l : list A) :
  Qeq_bool (len (x :: l)) 0 = false.
Proof.
  unfold len. apply not_true_iff_false. rewrite Qeq_bool_iff.
  unfold Qeq. simpl. lia.
Qed.

Lemma div_len_cons {A} (q : Q) (x : A) (l : list A) :
  div q (len (x :: l)) = Returned (q / len (x :: l)).
Proof. unfold div. now rewrite len_cons_nonzero. Qed.

Lemma div_inject_Z (q : Q) (z : Z) :
  z <> 0%Z -> div q (inject_Z z) = Returned (q / inject_Z z).
Proof.
  intros Hz. unfold div.
  destruct (Qeq_bool (inject_Z z) 0) eqn:E; [|reflexivity].
  apply Qeq_bool_iff in E. unfold Qeq in E. simpl in E. lia.
Qed.

Lemma max2_fold (l : list Q) :
  forall x : Q,
    In (fold_left max2 l x) (x :: l) /\
    x <= fold_left max2 l x /\
    Forall (fun y => y <= fold_left max2 l x) l.
Proof.
  induction l as [|y l IH]; intros x; simpl.
  - repeat split; [now left | lra | constructor].
  - destruct (IH (max2 x y)) as (Hin & Hle & Hall).
    assert (Hxy : x <= max2 x y /\ y <= max2 x y /\
                  (max2 x y = x \/ max2 x y = y)).
    { unfold max2. destruct (gtb y x) eqn:E.
      - apply gtb_true in E. repeat split; try lra. now right.
      - apply gtb_false in E. repeat split; try lra. now left. }
    destruct Hxy as (Hx & Hy & Hm). repeat split.
    + destruct Hin as [Hin|Hin]; [|now right; right].
      rewrite <- Hin. destruct Hm as [-> | ->]; [now left | now right; left].
    + lra.
    + constructor; [lra | assumption].
Qed.

Lemma max_default_is_maximum (l : list Q) (d : Q) :
  l <> [] -> is_maximum (max_default l d) l.
Proof.
  destruct l as [|x l]; [congruence|]. intros _. simpl.
  destruct (max2_fold l x) as (Hin & Hle & Hall).
  split; [exact Hin|]. constructor; assumption.
Qed.

(** *** Loops and comprehensions *)

Lemma for_each_ext {S A} (f g : S -> A -> outcome S) (l : list A) :
  (forall st x, f st x = g st x) ->
  forall st, for_each f l st = for_each g l st.
Proof.
  intros Hfg. induction l as [|x l IH]; intros st; simpl; [reflexivity|].
  rewrite Hfg. destruct (g st x); simpl; auto.
Qed.

Lemma map_each_Forall2 {A B} (f : A -> outcome B) (P : A -> B -> Prop)
  (l : list A) :
  (forall x, In x l -> exists y, f x = Returned y /\ P x y) ->
  exists r, map_each f l = Returned r /\ Forall2 P l r.
Proof.
  induction l as [|x l IH]; intros Hf; simpl.
  - exists []. split; [reflexivity | constructor].
  - destruct (Hf x (or_introl eq_refl)) as (y & Hy & HP).
    destruct IH as (r & Hr & HF); [intros; apply Hf; now right|].
    rewrite Hy; simpl. rewrite Hr; simpl. exists (y :: r). split; auto.
Qed.

Lemma index_in_range {A} (l : list A) (i : nat) :
  (i < List.length l)%nat -> exists x, index l i = Returned x /\ nth_error l i = Some x.
Proof.
  intros Hi. unfold index. destruct (nth_error l i) eqn:E; [eauto|].
  apply nth_error_None in E. lia.
Qed.

(** *** Lists *)

Lemma In_firstn {A} (n : nat) (l : list A) (x : A) :
  In x (firstn n l) -> In x l.
Proof.
  intros Hin. rewrite <- (firstn_skipn n l). apply in_or_app. now left.
Qed.

Lemma fold_left_pointwise {S X} (f g : S -> X -> S) (l : list X) :
  (forall a x, f a x = g a x) ->
  forall a, fold_left f l a = fold_left g l a.
Proof.
  intros Hfg. induction l as [|x l IH]; intros a; simpl; [reflexivity|].
  now rewrite Hfg, IH.
Qed.

Lemma fold_left_flat_map {S X Y} (f : S -> Y -> S) (ys : X -> list Y)
  (xs : list X) :
  forall st,
    fold_left (fun st x => fold_left f (ys x) st) xs st
    = fold_left f (flat_map ys xs) st.
Proof.
  induction xs as [|x xs IH]; intros st; simpl; [reflexivity|].
  now rewrite fold_left_app, IH.
Qed.

Lemma fold_left_filter_skip {S X} (f : S -> X -> S) (keep : X -> bool)
  (l : list X) :
  (forall a x, keep x = false -> f a x = a) ->
  forall a, fold_left f (filter keep l) a = fold_left f l a.
Proof.
  intros Hskip. induction l as [|x l IH]; intros a; simpl; [reflexivity|].
  destruct (keep x) eqn:E; simpl; [apply IH|].
  rewrite (Hskip a x E). apply IH.
Qed.

Lemma fold_snoc {A} (l : list A) :
  forall acc : list A, fold_left (fun items e => items ++ [e]) l acc = acc ++ l.
Proof.
  induction l as [|x l IH]; intros acc; simpl.
  - now rewrite app_nil_r.
  - now rewrite IH, <- app_assoc.
Qed.

Lemma Forall2_In_l {A B} (P : A -> B -> Prop) (l : list A) (r : list B) (x : A) :
  Forall2 P l r -> In x l -> exists y, In y r /\ P x y.
Proof.
  induction 1 as [|a b l r Hab HF IH]; simpl; [tauto|].
  intros [<-|Hin]; [eauto|]. destruct (IH Hin) as (y & Hy & HP). eauto.
Qed.

Lemma Forall2_In_r {A B} (P : A -> B -> Prop) (l : list A) (r : list B) (y : B) :
  Forall2 P l r -> In y r -> exists x, In x l /\ P x y.
Proof.
  induction 1 as [|a b l r Hab HF IH]; simpl; [tauto|].
  intros [<-|Hin]; [eauto|]. destruct (IH Hin) as (x & Hx & HP). eauto.
Qed.

Lemma Forall2_keys {K V R} (P : K * V -> K * R -> Prop)
  (l : list (K * V)) (res : list (K * R)) :
  Forall2 (fun kv kr => fst kr = fst kv /\ P kv kr) l res -> keys res = keys l.
Proof.
  unfold keys. induction 1 as [|kv kr ? ? [E _] _ IH]; simpl; [reflexivity|].
  now rewrite E, IH.
Qed.

Lemma map_Some_inj {K V} (l1 : list (K * V)) :
  forall l2,
    map (fun '(k, v) => (k, Some v)) l1 = map (fun '(k, v) => (k, Some v)) l2 ->
    l1 = l2.
Proof.
  induction l1 as [|[k v] l1 IH]; intros [|[k' v'] l2] E; simpl in E;
    try discriminate; [reflexivity|].
  injection E as -> -> E. f_equal. now apply IH.
Qed.

Lemma last_opt_cons {A} (x : A) (l : list A) :
  l <> [] -> last_opt (x :: l) = last_opt l.
Proof.
  destruct l as [|y l]; [congruence|]. intros _. simpl.
  destruct (last_opt l); reflexivity.
Qed.

Lemma last_opt_In {A} (l : list A) (x : A) : last_opt l = Some x -> In x l.
Proof.
  induction l as [|y l IH]; simpl; [discriminate|].
  destruct (last_opt l) as [z|].
  - intros E. injection E as ->. right. now apply IH.
  - intros E. injection E as ->. now left.
Qed.

Lemma last_opt_nonempty {A} (l : list A) :
  l <> [] -> exists x, last_opt l = Some x.
Proof.
  destruct l as [|y l]; [congruence|]. intros _. simpl.
  destruct (last_opt l); eauto.
Qed.

(** *** Sorting *)

Section SortFacts.
Context {A : Type} (le : A -> A -> bool).

Lemma insert_perm (x : A) (l : list A) : Permutation (insert le x l) (x :: l).
Proof.
  induction l as [|y l IH]; simpl; [reflexivity|].
  destruct (le x y); [reflexivity|].
  rewrite IH. apply perm_swap.
Qed.

Lemma sorted_perm (l : list A) : Permutation (sorted le l) l.
Proof.
  induction l as [|x l IH]; simpl; [reflexivity|].
  rewrite insert_perm. now constructor.
Qed.

Lemma In_sorted (x : A) (l : list A) : In x (sorted le l) <-> In x l.
Proof.
  split; apply Permutation_in; [|symmetry]; apply sorted_perm.
Qed.

Lemma NoDup_sorted (l : list A) : NoDup l -> NoDup (sorted le l).
Proof.
  apply Permutation_NoDup. symmetry. apply sorted_perm.
Qed.

Lemma length_sorted (l : list A) : List.length (sorted le l) = List.length l.
Proof. apply Permutation_length, sorted_perm. Qed.

Hypothesis le_total : forall x y, le x y = true \/ le y x = true.
Hypothesis le_trans :
  forall x y z, le x y = true -> le y z = true -> le x z = true.

Lemma insert_StronglySorted (x : A) (l : list A) :
  StronglySorted (fun a b => le a b = true) l ->
  StronglySorted (fun a b => le a b = true) (insert le x l).
Proof.
  induction 1 as [|y l Hl IH Hy]; simpl.
  - repeat constructor.
  - destruct (le x y) eqn:E.
    + constructor; [now constructor|].
      constructor; [assumption|].
      eapply Forall_impl; [|exact Hy]. intros z Hz. eauto.
    + constructor; [assumption|].
      assert (Hyx : le y x = true) by (destruct (le_total x y); congruence).
      eapply Permutation_Forall; [symmetry; apply insert_perm|].
      now constructor.
Qed.

Lemma sorted_StronglySorted (l : list A) :
  StronglySorted (fun a b => le a b = true) (sorted le l).
Proof.
  induction l as [|x l IH]; simpl; [constructor|].
  now apply insert_StronglySorted.
Qed.

End SortFacts.

Lemma sorted_Z_ascending (l : list Z) :
  NoDup l -> StronglySorted Z.lt (sorted Z.leb l).
Proof.
  intros Hnd.
  assert (Hs : StronglySorted (fun a b => Z.leb a b = true) (sorted Z.leb l)).
  { apply sorted_StronglySorted; intros; lia. }
  apply (NoDup_sorted Z.leb) in Hnd.
  induction Hs as [|x l' Hs IH Hx]; [constructor|].
  inversion Hnd as [|? ? Hnotin Hnd']; subst.
  constructor; [auto|].
  rewrite Forall_forall in *. intros y Hy.
  specialize (Hx y Hy). assert (x <> y) by congruence. lia.
Qed.

Lemma map_insert {A B} (f : A -> B) (le : B -> B -> bool) (x : A) (l : list A) :
  map f (insert (fun a b => le (f a) (f b)) x l) = insert le (f x) (map f l).
Proof.
  induction l as [|y l IH]; simpl; [reflexivity|].
  destruct (le (f x) (f y)); simpl; [reflexivity|]. now rewrite IH.
Qed.

Lemma map_sorted {A B} (f : A -> B) (le : B -> B -> bool) (l : list A) :
  map f (sorted (fun a b => le (f a) (f b)) l) = sorted le (map f l).
Proof.
  induction l as [|x l IH]; simpl; [reflexivity|].
  now rewrite map_insert, IH.
Qed.

Section SortFilter.
Context {A : Type} (le : A -> A -> bool) (keep : A -> bool).
Hypothesis le_total : forall x y, le x y = true \/ le y x = true.
Hypothesis le_trans :
  forall x y z, le x y = true -> le y z = true -> le x z = true.

Lemma insert_head (x : A) (l : list A) :
  Forall (fun z => le x z = true) l -> insert le x l = x :: l.
Proof.
  destruct 1 as [|y l Hy _]; simpl; [reflexivity|]. now rewrite Hy.
Qed.

Lemma filter_insert (x : A) (l : list A) :
  StronglySorted (fun a b => le a b = true) l ->
  filter keep (insert le x l)
  = if keep x then insert le x (filter keep l) else filter keep l.
Proof.
  induction 1 as [|y l Hl IH Hy]; simpl.
  - destruct (keep x); reflexivity.
  - destruct (le x y) eqn:Exy.
    + cbn [filter]. destruct (keep x); [|reflexivity].
      symmetry. apply insert_head.
      assert (Hall : Forall (fun z => le x z = true) (y :: l)).
      { constructor; [assumption|].
        eapply Forall_impl; [|exact Hy]. intros z Hz. eauto. }
      apply Forall_forall. intros z Hz.
      rewrite Forall_forall in Hall. apply Hall.
      change (In z (filter keep (y :: l))) in Hz.
      apply filter_In in Hz. tauto.
    + cbn [filter]. rewrite IH.
      destruct (keep y), (keep x); simpl; try rewrite Exy; reflexivity.
Qed.

Lemma filter_sorted (l : list A) :
  filter keep (sorted le l) = sorted le (filter keep l).
Proof.
  induction l as [|x l IH]; simpl; [reflexivity|].
  rewrite filter_insert by now apply sorted_StronglySorted.
  destruct (keep x); simpl; now rewrite IH.
Qed.

End SortFilter.

Lemma insert_nonempty {A} (le : A -> A -> bool) (x : A) (l : list A) :
  insert le x l <> [].
Proof. destruct l; simpl; [|destruct (le x a)]; discriminate. Qed.

(** Inserting an element that has to precede one of the list does not
    change the last element. *)
Lemma last_opt_insert {A} (le : A -> A -> bool) (x : A) (l : list A) :
  (exists y, In y l /\ le x y = true) ->
  last_opt (insert le x l) = last_opt l.
Proof.
  induction l as [|y0 l IH]; intros (y & Hy & Hle); [destruct Hy|].
  cbn [insert]. destruct (le x y0) eqn:E0.
  - apply last_opt_cons. discriminate.
  - destruct Hy as [->|Hy]; [congruence|].
    assert (Hl : l <> []) by (intros ->; destruct Hy).
    rewrite (last_opt_cons y0 (insert le x l)) by apply insert_nonempty.
    rewrite (last_opt_cons y0 l) by assumption.
    apply IH. eauto.
Qed.

Section SortedUnique.
Context {A : Type} (le : A -> A -> bool).

Lemma StronglySorted_unique (l1 : list A) :
  forall l2,
    StronglySorted (fun a b => le a b = true) l1 ->
    StronglySorted (fun a b => le a b = true) l2 ->
    Permutation l1 l2 ->
    (forall x y, In x l1 -> In y l1 ->
       le x y = true -> le y x = true -> x = y) ->
    l1 = l2.
Proof.
  induction l1 as [|x l1 IH]; intros l2 Hs1 Hs2 Hperm Hanti.
  - apply Permutation_nil in Hperm. now subst.
  - destruct l2 as [|y l2].
    { symmetry in Hperm. now apply Permutation_nil_cons in Hperm. }
    inversion Hs1 as [|? ? Hs1' Hx]; subst.
    inversion Hs2 as [|? ? Hs2' Hy]; subst.
    assert (Exy : x = y).
    { assert (Hxin : In x (y :: l2))
        by (apply (Permutation_in _ Hperm); now left).
      assert (Hyin : In y (x :: l1))
        by (apply (Permutation_in _ (Permutation_sym Hperm)); now left).
      destruct Hxin as [->|Hxin]; [reflexivity|].
      destruct Hyin as [->|Hyin]; [reflexivity|].
      rewrite Forall_forall in Hx, Hy.
      apply Hanti; [now left | now right | auto | auto]. }
    subst y. f_equal. apply IH; auto.
    + now apply Permutation_cons_inv in Hperm.
    + intros a b Ha Hb. apply Hanti; now right.
Qed.

Hypothesis le_total : forall x y, le x y = true \/ le y x = true.
Hypothesis le_trans :
  forall x y z, le x y = true -> le y z = true -> le x z = true.

Lemma sorted_unique (l1 l2 : list A) :
  Permutation l1 l2 ->
  (forall x y, In x l1 -> In y l1 -> le x y = true -> le y x = true -> x = y) ->
  sorted le l1 = sorted le l2.
Proof.
  intros Hperm Hanti. apply StronglySorted_unique.
  - now apply sorted_StronglySorted.
  - now apply sorted_StronglySorted.
  - rewrite !sorted_perm. exact Hperm.
  - intros x y Hx Hy. apply In_sorted in Hx, Hy. now apply Hanti.
Qed.

End SortedUnique.

(** *** The order of time stamps and of period keys *)

Lemma by_timeStamp_total (x y : Snapshot.t) :
  by_timeStamp x y = true \/ by_timeStamp y x = true.
Proof. unfold by_timeStamp. lia. Qed.

Lemma by_timeStamp_trans (x y z : Snapshot.t) :
  by_timeStamp x y = true -> by_timeStamp y z = true ->
  by_timeStamp x z = true.
Proof. unfold by_timeStamp. lia. Qed.

Lemma ascii_compare_N (a b : ascii) :
  Ascii.compare a b = N.compare (N_of_ascii a) (N_of_ascii b).
Proof. reflexivity. Qed.

Lemma string_compare_trans (s1 : string) :
  forall s2 s3,
    String.compare s1 s2 <> Gt -> String.compare s2 s3 <> Gt ->
    String.compare s1 s3 <> Gt.
Proof.
  induction s1 as [|c1 s1 IH]; intros [|c2 s2] [|c3 s3]; simpl;
    try congruence.
  rewrite !ascii_compare_N.
  destruct (N.compare_spec (N_of_ascii c1) (N_of_ascii c2)) as [E12|L12|G12];
    destruct (N.compare_spec (N_of_ascii c2) (N_of_ascii c3)) as [E23|L23|G23];
    destruct (N.compare_spec (N_of_ascii c1) (N_of_ascii c3)) as [E13|L13|G13];
    try congruence; try lia; intros H12 H23.
  now apply (IH s2 s3).
Qed.

Lemma string_leb_trans (s1 s2 s3 : string) :
  String.leb s1 s2 = true -> String.leb s2 s3 = true -> String.leb s1 s3 = true.
Proof.
  unfold String.leb. intros H12 H23.
  pose proof (string_compare_trans s1 s2 s3) as Ht.
  destruct (String.compare s1 s2), (String.compare s2 s3),
    (String.compare s1 s3); try reflexivity; try discriminate;
    exfalso; apply Ht; congruence.
Qed.

Lemma period_leb_total (a b : period) :
  period_leb a b = true \/ period_leb b a = true.
Proof.
  destruct a as [x|x], b as [y|y]; simpl; auto.
  - lia.
  - apply String.leb_total.
Qed.

Lemma period_leb_trans (a b c : period) :
  period_leb a b = true -> period_leb b c = true -> period_leb a c = true.
Proof.
  destruct a as [x|x], b as [y|y], c as [z|z]; simpl; try congruence.
  - lia.
  - apply string_leb_trans.
Qed.

Lemma period_leb_antisym (a b : period) :
  period_leb a b = true -> period_leb b a = true -> a = b.
Proof.
  destruct a as [x|x], b as [y|y]; simpl; try congruence.
  - intros. f_equal. lia.
  - intros H1 H2. f_equal. now apply String.leb_antisym.
Qed.

(** *** Dictionaries in key order, and last write wins *)

Lemma In_fold_set {K V X} `{KeyOk K} (kf : X -> K) (vf : X -> V) (l : list X) :
  forall (d : dict K V) k v,
    In (k, v) (fold_left (fun d x => set d (kf x) (vf x)) l d) ->
    In (k, v) d \/ exists x, In x l /\ k = kf x /\ v = vf x.
Proof.
  induction l as [|x l IH]; intros d k v; simpl; [auto|].
  intros Hin. apply IH in Hin as [Hin|(y & Hy & Hk & Hv)].
  - apply In_set in Hin as [[-> ->]|Hin]; [right; exists x | left]; auto.
  - right. exists y. auto.
Qed.

Lemma has_key_In {K V} `{KeyOk K} (d : dict K V) (k : K) :
  has_key d k = true <-> In k (keys d).
Proof.
  unfold has_key. destruct (get d k) eqn:E.
  - split; [intros _ | reflexivity].
    apply get_Some_In in E. now apply (in_map fst) in E.
  - apply get_None in E. split; [discriminate | contradiction].
Qed.

Lemma has_key_same_keys {K V W} `{KeyOk K} (d : dict K V) (d' : dict K W)
  (k : K) :
  (forall k', In k' (keys d) <-> In k' (keys d')) ->
  has_key d k = has_key d' k.
Proof.
  intros Hk. apply eq_true_iff_eq. rewrite !has_key_In. apply Hk.
Qed.

Lemma keys_by_key {K V} (leb : K -> K -> bool) (d : dict K V) :
  keys (by_key leb d) = sorted leb (keys d).
Proof. apply map_sorted. Qed.

Lemma In_by_key {K V} (leb : K -> K -> bool) (d : dict K V) (kv : K * V) :
  In kv (by_key leb d) <-> In kv d.
Proof. apply In_sorted. Qed.

Lemma items_at_by_key {K V} `{KeyOk K} (leb : K -> K -> bool) (d : dict K V) :
  NoDup (keys d) ->
  items_at d (sorted leb (keys d))
  = map (fun '(k, v) => (k, Some v)) (by_key leb d).
Proof.
  intros Hnd. rewrite <- keys_by_key. unfold items_at, keys.
  rewrite map_map. apply map_ext_in. intros [k v] Hin. simpl.
  apply In_by_key in Hin. now rewrite (In_get d k v Hnd Hin).
Qed.

(** Two dictionaries that hold the same value under every key have the
    same entries in key order. *)
Lemma by_key_same_content {V} (d1 d2 : dict period V) :
  NoDup (keys d1) -> NoDup (keys d2) ->
  (forall k, get d1 k = get d2 k) ->
  by_key period_leb d1 = by_key period_leb d2.
Proof.
  intros Hnd1 Hnd2 Hget. unfold by_key.
  assert (NoDup_entries : forall d : dict period V, NoDup (keys d) -> NoDup d).
  { intros d. unfold keys. apply NoDup_map_inv. }
  apply sorted_unique.
  - intros x y. apply period_leb_total.
  - intros x y z. apply period_leb_trans.
  - apply NoDup_Permutation; auto.
    intros [k v]. split; intros Hin.
    + apply get_Some_In. rewrite <- Hget. now apply In_get.
    + apply get_Some_In. rewrite Hget. now apply In_get.
  - intros [k v] [k' v'] Hx Hy Hle Hge. simpl in Hle, Hge.
    assert (k = k') by now apply period_leb_antisym. subst k'.
    apply In_get in Hx, Hy; auto. congruence.
Qed.

Section LastWrite.
Context {K A : Type} `{KeyOk K}.
Variable key_of : A -> option K.

(** After [for x in l: d[key_of(x)] = x], the dictionary holds under a key
    the last element of [l] that has the key. *)
Lemma get_collect (l : list A) :
  forall (d : dict K A) (k : K),
    get (fold_left
           (fun d x => match key_of x with Some k' => set d k' x | None => d end)
           l d) k
    = match last_opt (with_key key_of k l) with
      | Some x => Some x
      | None => get d k
      end.
Proof.
  unfold with_key.
  induction l as [|x l IH]; intros d k; simpl; [reflexivity|].
  rewrite IH. destruct (key_of x) as [k'|] eqn:Ek; [|reflexivity].
  destruct (eqb_spec k k') as [->|Hne]; simpl.
  - rewrite get_set_eq.
    destruct (last_opt (filter _ l)); reflexivity.
  - rewrite get_set_ne by congruence. reflexivity.
Qed.

End LastWrite.

(* ================================================================== *)
(** ** Accumulation in a [defaultdict] *)

Section Accumulate.
Context {K V E : Type} `{KeyOk K}.
Variables (upd : V -> E -> V) (dflt : V).

Lemma get_update (d : dict K V) (k k' : K) (f : V -> V) :
  get (update d k f dflt) k' =
  if eqb k' k
  then Some (f match get d k with Some v => v | None => dflt end)
  else get d k'.
Proof.
  unfold update. destruct (eqb_spec k' k) as [->|Hne].
  - destruct (get d k); apply get_set_eq.
  - destruct (get d k); apply get_set_ne; congruence.
Qed.

Lemma NoDup_keys_update (d : dict K V) (k : K) (f : V -> V) :
  NoDup (keys d) -> NoDup (keys (update d k f dflt)).
Proof. unfold update. destruct (get d k); apply NoDup_keys_set. Qed.

Lemma In_keys_update (d : dict K V) (k k' : K) (f : V -> V) :
  In k' (keys (update d k f dflt)) <-> k' = k \/ In k' (keys d).
Proof. unfold update. destruct (get d k); apply In_keys_set. Qed.

Lemma get_accumulate (events : list (K * E)) :
  forall (d : dict K V) (k : K),
    get (accumulate upd dflt d events) k =
    match get d k, select k events with
    | None, [] => None
    | Some v, es => Some (fold_left upd es v)
    | None, es => Some (fold_left upd es dflt)
    end.
Proof.
  unfold accumulate, select.
  induction events as [|[k0 e] events IH]; intros d k; simpl.
  - destruct (get d k); reflexivity.
  - rewrite IH, get_update. destruct (eqb k k0) eqn:E0; simpl.
    + apply eqb_eq in E0. subst k0.
      destruct (get d k); reflexivity.
    + reflexivity.
Qed.

Lemma NoDup_keys_accumulate (events : list (K * E)) :
  forall d : dict K V,
    NoDup (keys d) -> NoDup (keys (accumulate upd dflt d events)).
Proof.
  unfold accumulate.
  induction events as [|[k0 e] events IH]; intros d Hd; simpl; auto.
  apply IH. now apply NoDup_keys_update.
Qed.

Lemma In_keys_accumulate (events : list (K * E)) :
  forall (d : dict K V) (k : K),
    In k (keys (accumulate upd dflt d events)) <->
    In k (keys d) \/ In k (keys events).
Proof.
  unfold accumulate.
  induction events as [|[k0 e] events IH]; intros d k; simpl; [tauto|].
  rewrite IH, In_keys_update. intuition congruence.
Qed.

Lemma select_app (k : K) (l1 l2 : list (K * E)) :
  select k (l1 ++ l2) = select k l1 ++ select k l2.
Proof. unfold select. now rewrite filter_app, map_app. Qed.

(** A nested loop, the inner one over the keys of the outer element, is an
    accumulation of the flattened events. *)
Lemma nested_accumulate {X : Type} (ks : X -> list K)
  (body : X -> dict K V -> K -> dict K V) (ev : X -> E) (xs : list X) :
  (forall x d k, body x d k = update d k (fun v => upd v (ev x)) dflt) ->
  forall d,
    fold_left (fun d x => fold_left (body x) (ks x) d) xs d =
    accumulate upd dflt d (flat_map (fun x => map (fun k => (k, ev x)) (ks x)) xs).
Proof.
  intros Hbody. unfold accumulate.
  induction xs as [|x xs IH]; intros d; simpl; [reflexivity|].
  rewrite fold_left_app, IH. f_equal.
  generalize d. induction (ks x) as [|k l IHl]; intros d0; simpl; [reflexivity|].
  now rewrite Hbody, IHl.
Qed.

End Accumulate.

Lemma accumulate_app {K V E} `{Key K} (upd : V -> E -> V) (dflt : V)
  (d : dict K V) (l1 l2 : list (K * E)) :
  accumulate upd dflt d (l1 ++ l2)
  = accumulate upd dflt (accumulate upd dflt d l1) l2.
Proof. unfold accumulate. apply fold_left_app. Qed.

Lemma select_flat_map {K E X} `{Key K} (k : K) (f : X -> list (K * E))
  (xs : list X) :
  select k (flat_map f xs) = flat_map (fun x => select k (f x)) xs.
Proof.
  induction xs as [|x xs IH]; simpl; [reflexivity|].
  now rewrite select_app, IH.
Qed.

Lemma In_select {K E} `{KeyOk K} (k : K) (e : E) (events : list (K * E)) :
  In e (select k events) <-> In (k, e) events.
Proof.
  unfold select. rewrite in_map_iff. split.
  - intros ([k' e'] & <- & Hin). apply filter_In in Hin as [Hin Hk].
    simpl in *. apply eqb_eq in Hk. now subst.
  - intros Hin. exists (k, e). split; [reflexivity|].
    apply filter_In. split; [assumption|]. apply eqb_refl.
Qed.

Lemma select_nonempty {K E} `{KeyOk K} (k : K) (events : list (K * E)) :
  In k (keys events) -> select k events <> [].
Proof.
  unfold keys. rewrite in_map_iff. intros ([k' e] & <- & Hin).
  apply In_select in Hin. simpl. intros E0. now rewrite E0 in Hin.
Qed.

Lemma select_NoDup {K E} `{KeyOk K} (k : K) (l : list (K * E)) :
  NoDup (keys l) ->
  List.length (select k l) = if has_key l k then 1%nat else 0%nat.
Proof.
  unfold select, has_key.
  induction l as [|[k0 e] l IH]; intros Hnd; simpl; [reflexivity|].
  inversion Hnd as [|? ? Hk0 Hnd']; subst.
  destruct (eqb_spec k k0) as [->|Hne]; simpl.
  - rewrite (IH Hnd'). apply get_None in Hk0. now rewrite Hk0.
  - apply (IH Hnd').
Qed.

(** The rows of a result stored under distinct keys, each computed by a
    function that returns, are the rows of the keys in order. *)
Lemma keyed_rows {K V R} `{KeyOk K} (f : V -> outcome R) (l : list (K * V)) :
  NoDup (keys l) ->
  (forall k v, In (k, v) l -> exists r, f v = Returned r) ->
  exists res,
    for_each (fun result '(k, v) => r <- f v ;; Returned (set result k r)) l []
      = Returned res /\
    Forall2 (fun kv kr => fst kr = fst kv /\ f (snd kv) = Returned (snd kr)) l res.
Proof.
  intros Hnd Hf.
  assert (G : forall acc : dict K R,
    (forall k, In k (keys l) -> ~ In k (keys acc)) ->
    exists res,
      for_each (fun result '(k, v) => r <- f v ;; Returned (set result k r))
        l acc = Returned (acc ++ res) /\
      Forall2 (fun kv kr => fst kr = fst kv /\ f (snd kv) = Returned (snd kr))
        l res).
  { induction l as [|[k v] l IH]; intros acc Hacc; simpl.
    - exists []. rewrite app_nil_r. split; [reflexivity | constructor].
    - inversion Hnd as [|? ? Hk Hnd']; subst.
      destruct (Hf k v (or_introl eq_refl)) as (r & Hr). rewrite Hr. cbn [bind].
      rewrite set_absent by (apply get_None, Hacc; now left).
      destruct (IH Hnd' (fun k v Hi => Hf k v (or_intror Hi)) (acc ++ [(k, r)]))
        as (res & Hres & HF).
      + intros k' Hk'. unfold keys. rewrite map_app, in_app_iff. simpl.
        intros [Hi|[<-|[]]]; [|contradiction].
        apply (Hacc k'); [now right | assumption].
      + exists ((k, r) :: res). rewrite Hres, <- app_assoc. split; [reflexivity|].
        constructor; auto. }
  destruct (G []) as (res & Hres & HF); [simpl; tauto|]. eauto.
Qed.

Lemma accumulated_rows {K V E R} `{KeyOk K} (upd : V -> E -> V) (dflt : V)
  (events : list (K * E)) (f : V -> outcome R)
  (order : list (K * V) -> list (K * V)) :
  (forall l, Permutation (order l) l) ->
  (forall es, es <> [] -> exists r, f (fold_left upd es dflt) = Returned r) ->
  exists res,
    for_each (fun result '(k, v) => r <- f v ;; Returned (set result k r))
      (order (accumulate upd dflt [] events)) [] = Returned res /\
    keys res = keys (order (accumulate upd dflt [] events)) /\
    (forall k, In k (keys res) <-> In k (keys events)) /\
    (forall k r, In (k, r) res ->
       f (fold_left upd (select k events) dflt) = Returned r).
Proof.
  intros Horder Hf.
  set (d := accumulate upd dflt [] events).
  assert (Hnd : NoDup (keys d)) by (apply NoDup_keys_accumulate; constructor).
  assert (Hd : forall k v, In (k, v) (order d) ->
    select k events <> [] /\ v = fold_left upd (select k events) dflt).
  { intros k v Hin. apply (Permutation_in _ (Horder d)) in Hin.
    assert (Hk : In k (keys events)).
    { apply (in_map fst) in Hin. apply In_keys_accumulate in Hin as [[]|Hin].
      exact Hin. }
    split; [now apply select_nonempty|].
    apply In_get in Hin; [|exact Hnd]. unfold d in Hin.
    rewrite get_accumulate in Hin. simpl in Hin.
    destruct (select k events); [discriminate | now injection Hin as <-]. }
  destruct (keyed_rows f (order d)) as (res & Hres & HF).
  { eapply Permutation_NoDup; [|exact Hnd].
    apply Permutation_map. symmetry. apply Horder. }
  { intros k v Hin. destruct (Hd k v Hin) as [Hne ->]. now apply Hf. }
  assert (Hkeys : keys res = keys (order d)) by (eapply Forall2_keys; exact HF).
  exists res. split; [exact Hres|]. split; [exact Hkeys|]. split.
  - intros k. rewrite Hkeys.
    assert (Hperm : Permutation (keys (order d)) (keys d))
      by apply Permutation_map, Horder.
    transitivity (In k (keys d)).
    { split; apply Permutation_in; [|symmetry]; exact Hperm. }
    unfold d. rewrite In_keys_accumulate. simpl. tauto.
  - intros k r Hin.
    destruct (Forall2_In_r _ _ _ _ HF Hin) as ([k' v] & Hv & Ek & Hr).
    simpl in Ek, Hr. subst k'. destruct (Hd k v Hv) as [_ ->]. exact Hr.
Qed.

(* ================================================================== *)
(** ** The period increment calculator *)

Example utc_2020_06 :
  utc_fromtimestamp 1592179200000 = Some {| year := 2020; month := 6 |}.
Proof. reflexivity. Qed.

Section Walk.
Context {K R : Type} `{KeyOk K}.
Variable row : Snapshot.t -> Q -> Q -> R.

Lemma walk_loop (by_key : dict K Snapshot.t) (ks : list K) :
  forall (acc : dict K R) (ps pr : Q),
    NoDup ks ->
    (forall k, In k ks -> In k (keys by_key)) ->
    (forall k, In k ks -> ~ In k (keys acc)) ->
    exists items ps' pr',
      for_each (walk_step row by_key) ks (acc, ps, pr)
        = Returned (acc ++ walk row items ps pr, ps', pr') /\
      items_at by_key ks = map (fun '(k, item) => (k, Some item)) items.
Proof.
  induction ks as [|k ks IH]; intros acc ps pr Hnd Hin Hacc; simpl.
  - exists [], ps, pr. now rewrite app_nil_r.
  - inversion Hnd as [|? ? Hk Hnd']; subst.
    destruct (In_keys_get by_key k (Hin k (or_introl eq_refl))) as (item & Hitem).
    unfold subscript. rewrite Hitem. simpl.
    rewrite set_absent by (apply get_None, Hacc; now left).
    destruct (IH (acc ++ [(k, row item ps pr)])
                (get_or (Snapshot.sales item) 0)
                (get_or (Snapshot.revenue item) 0))
      as (items & ps' & pr' & Hloop & Hitems).
    + assumption.
    + intros; apply Hin; now right.
    + intros k' Hk'. unfold keys. rewrite map_app, in_app_iff. simpl.
      intros [Hi|[<-|[]]]; [|contradiction].
      apply (Hacc k'); [now right | assumption].
    + exists ((k, item) :: items), ps', pr'. split.
      * rewrite Hloop. simpl. now rewrite <- app_assoc.
      * unfold items_at in *. simpl. now rewrite ?Hitem, Hitems.
Qed.

Lemma In_walk (items : list (K * Snapshot.t)) :
  forall ps pr k r,
    In (k, r) (walk row items ps pr) ->
    exists item ps' pr', In (k, item) items /\ r = row item ps' pr'.
Proof.
  induction items as [|[k0 item0] items IH]; simpl; intros ps pr k r; [tauto|].
  intros [E|Hin].
  - injection E as <- <-. exists item0, ps, pr. auto.
  - destruct (IH _ _ _ _ Hin) as (item & ps' & pr' & Hi & Hr).
    exists item, ps', pr'. auto.
Qed.

Lemma keys_walk (items : list (K * Snapshot.t)) :
  forall ps pr, keys (walk row items ps pr) = keys items.
Proof.
  induction items as [|[k0 item0] items IH]; simpl; intros; [reflexivity|].
  now rewrite IH.
Qed.

End Walk.

Lemma follows_snapshots_walk (items : list (Z * Snapshot.t)) :
  forall ps pr, follows_snapshots ps pr items (walk yearly_row items ps pr).
Proof.
  induction items as [|[k item] items IH]; simpl; intros; auto.
  repeat split. apply IH.
Qed.

Lemma tracks_baseline_walk (items : list (Z * Snapshot.t)) :
  forall ps pr, tracks_baseline ps pr (walk yearly_row items ps pr).
Proof.
  induction items as [|[k item] items IH]; simpl; intros; auto.
Qed.

(** After the first loop of [_get_yearly_increments], a year holds the
    snapshot listed last among those of the year. *)
Lemma get_collect_by_year (fromtimestamp : Z -> option datetime)
  (history : list Snapshot.t) (yr : Z) :
  get (collect_by_year fromtimestamp history) yr
  = last_opt
      (with_key
         (fun item => option_map year (snapshot_datetime fromtimestamp item))
         yr history).
Proof.
  unfold collect_by_year.
  rewrite (fold_left_pointwise _
    (fun d x =>
       match option_map year (snapshot_datetime fromtimestamp x) with
       | Some k => set d k x
       | None => d
       end)).
  - rewrite get_collect. simpl. destruct (last_opt _); reflexivity.
  - intros d item. destruct (snapshot_datetime fromtimestamp item); reflexivity.
Qed.

Section Increments.
Variable fromtimestamp : Z -> option datetime.

Lemma NoDup_collect_by_year (history : list Snapshot.t) :
  NoDup (keys (collect_by_year fromtimestamp history)).
Proof.
  unfold collect_by_year.
  assert (G : forall acc : dict Z Snapshot.t, NoDup (keys acc) ->
    NoDup (keys (fold_left
      (fun by_year item =>
         match snapshot_datetime fromtimestamp item with
         | Some dt => set by_year (year dt) item
         | None => by_year
         end) history acc))).
  { induction history as [|item history IH]; intros acc Hacc; simpl; auto.
    apply IH. destruct (snapshot_datetime fromtimestamp item); auto.
    now apply NoDup_keys_set. }
  apply G. constructor.
Qed.

Lemma NoDup_collect_by_period (freq : string) (history : list Snapshot.t) :
  NoDup (keys (collect_by_period fromtimestamp freq history)).
Proof.
  unfold collect_by_period.
  assert (G : forall acc : dict period Snapshot.t, NoDup (keys acc) ->
    NoDup (keys (fold_left
      (fun by_period item =>
         match snapshot_datetime fromtimestamp item with
         | Some dt => set by_period (period_of freq dt) item
         | None => by_period
         end) history acc))).
  { induction history as [|item history IH]; intros acc Hacc; simpl; auto.
    apply IH. destruct (snapshot_datetime fromtimestamp item); auto.
    now apply NoDup_keys_set. }
  apply G. constructor.
Qed.

(** [_get_yearly_increments] returns, and what it returns is the walk over
    the snapshots [by_year] holds, in ascending order of the years. *)
Lemma _get_yearly_increments_walk (history : list Snapshot.t) :
  let by_year := collect_by_year fromtimestamp history in
  exists items,
    _get_yearly_increments fromtimestamp history
      = Returned (walk yearly_row items 0 0) /\
    items_at by_year (sorted Z.leb (keys by_year))
      = map (fun '(k, item) => (k, Some item)) items.
Proof.
  intros by_year. unfold _get_yearly_increments. fold by_year.
  destruct (walk_loop yearly_row by_year (sorted Z.leb (keys by_year)) [] 0 0)
    as (items & ps' & pr' & Hloop & Hitems).
  - apply NoDup_sorted, NoDup_collect_by_year.
  - intros k. apply In_sorted.
  - simpl. tauto.
  - exists items. split; [|exact Hitems].
    rewrite (for_each_ext _ (walk_step yearly_row by_year)).
    + now rewrite Hloop.
    + intros [[increments ps] pr] yr. reflexivity.
Qed.

Lemma get_history_for_game_walk (game : Game.t) (freq : string) :
  let by_period :=
    collect_by_period fromtimestamp freq
      (sorted by_timeStamp (Game.history game)) in
  exists items,
    get_history_for_game fromtimestamp game freq
      = Returned (walk period_row items 0 0) /\
    items_at by_period (sorted period_leb (keys by_period))
      = map (fun '(k, item) => (k, Some item)) items.
Proof.
  intros by_period. unfold get_history_for_game. fold by_period.
  destruct (walk_loop period_row by_period
              (sorted period_leb (keys by_period)) [] 0 0)
    as (items & ps' & pr' & Hloop & Hitems).
  - apply NoDup_sorted, NoDup_collect_by_period.
  - intros k. apply In_sorted.
  - simpl. tauto.
  - exists items. split; [|exact Hitems].
    rewrite (for_each_ext _ (walk_step period_row by_period)).
    + now rewrite Hloop.
    + intros [[result ps] pr] p. reflexivity.
Qed.

Lemma keys_items_at {K V} `{Key K} (d : dict K V) (ks : list K)
  (items : list (K * V)) :
  items_at d ks = map (fun '(k, item) => (k, Some item)) items ->
  keys items = ks.
Proof.
  unfold items_at, keys. intros E.
  apply (f_equal (map fst)) in E. rewrite !map_map in E. simpl in E.
  rewrite map_id in E. rewrite E. apply map_ext. now intros [k v].
Qed.

(** The result is the walk over the snapshots [by_year] holds, in
    ascending order of the years. *)
Lemma _get_yearly_increments_by_key (history : list Snapshot.t) :
  _get_yearly_increments fromtimestamp history
  = Returned
      (walk yearly_row
         (by_key Z.leb (collect_by_year fromtimestamp history)) 0 0).
Proof.
  destruct (_get_yearly_increments_walk history)
    as (items & Hout & Hitems).
  rewrite items_at_by_key in Hitems by apply NoDup_collect_by_year.
  apply map_Some_inj in Hitems. now rewrite Hout, Hitems.
Qed.

(** C2. Every entry the increment calculation produces has
    [salesInc >= 0] and [revenueInc >= 0], whatever the cumulative values
    do from one period to the next; both [_get_yearly_increments] and
    [get_history_for_game] return such entries, for every history and
    every game. *)
Theorem increments_never_negative (history : list Snapshot.t)
  (game : Game.t) (freq : string) :
  (exists out,
     _get_yearly_increments fromtimestamp history = Returned out /\
     forall yr e, In (yr, e) out ->
       0 <= Increment.sales e /\ 0 <= Increment.revenue e) /\
  (exists out,
     get_history_for_game fromtimestamp game freq = Returned out /\
     forall p e, In (p, e) out ->
       0 <= PeriodRow.sales_inc e /\ 0 <= PeriodRow.revenue_inc e).
Proof.
  split.
  - destruct (_get_yearly_increments_walk history) as (items & Hout & _).
    exists (walk yearly_row items 0 0). split; [assumption|].
    intros yr e Hin. apply In_walk in Hin as (item & ps & pr & _ & ->).
    simpl. split; apply max2_zero_nonneg.
  - destruct (get_history_for_game_walk game freq) as (items & Hout & _).
    exists (walk period_row items 0 0). split; [assumption|].
    intros p e Hin. apply In_walk in Hin as (item & ps & pr & _ & ->).
    simpl. split; apply max2_zero_nonneg.
Qed.

(** C3. [_get_yearly_increments] returns for every history, and a
    recomputation from the same history returns the same. Its output has
    a row for exactly the years in which the history has a snapshot with
    a usable time stamp, in strictly ascending order. Every row follows
    the snapshot its year holds, the one listed last among those of the
    year: its cumulative sales and revenue are the raw values of that
    snapshot, and its increments are those raw values less the raw values
    of the snapshot of the year just before it in the output, the first
    less 0, and never less the sum of the increments emitted before. *)
Theorem baseline_is_previous_cumulative (history : list Snapshot.t) :
  exists held out,
    _get_yearly_increments fromtimestamp history = Returned out /\
    (forall out',
       _get_yearly_increments fromtimestamp history = Returned out' ->
       out' = out) /\
    StronglySorted Z.lt (keys out) /\
    (forall yr, In yr (keys out) <->
       exists item, In item history /\
         year_key fromtimestamp item = Some yr) /\
    (forall yr item, In (yr, item) held ->
       last_opt (with_key (year_key fromtimestamp) yr history) = Some item) /\
    follows_snapshots 0 0 held out /\
    tracks_baseline 0 0 out.
Proof.
  set (by_year := collect_by_year fromtimestamp history).
  assert (Hnd : NoDup (keys by_year)) by apply NoDup_collect_by_year.
  assert (Hget : forall yr,
            get by_year yr
            = last_opt (with_key (year_key fromtimestamp) yr history)).
  { intros yr. apply get_collect_by_year. }
  exists (by_key Z.leb by_year), (walk yearly_row (by_key Z.leb by_year) 0 0).
  split; [apply _get_yearly_increments_by_key|].
  split; [|split; [|split; [|split; [|split]]]].
  - intros out' Hout'. rewrite _get_yearly_increments_by_key in Hout'.
    now injection Hout' as <-.
  - rewrite keys_walk, keys_by_key. now apply sorted_Z_ascending.
  - intros yr. rewrite keys_walk, keys_by_key, In_sorted. split.
    + intros Hin. apply In_keys_get in Hin as (item & Hitem).
      rewrite Hget in Hitem. apply last_opt_In in Hitem.
      unfold with_key in Hitem. apply filter_In in Hitem as [Hin Hkey].
      exists item. split; [exact Hin|].
      destruct (year_key fromtimestamp item) as [yr'|]; [|discriminate].
      apply eqb_eq in Hkey. now subst.
    + intros (item & Hin & Hkey).
      destruct (get by_year yr) as [v|] eqn:Hv.
      { apply get_Some_In in Hv. apply (in_map fst) in Hv. exact Hv. }
      exfalso. rewrite Hget in Hv.
      destruct (last_opt_nonempty
                  (with_key (year_key fromtimestamp) yr history))
        as (x & Hx); [|congruence].
      intros Hnil.
      assert (Hi : In item (with_key (year_key fromtimestamp) yr history)).
      { unfold with_key. apply filter_In. split; [exact Hin|].
        rewrite Hkey. apply eqb_refl. }
      rewrite Hnil in Hi. destruct Hi.
  - intros yr item Hin. apply In_by_key in Hin.
    apply In_get in Hin; [|exact Hnd]. now rewrite <- Hget.
  - apply follows_snapshots_walk.
  - apply tracks_baseline_walk.
Qed.

End Increments.

(** After a downward revision the baseline is the revised value: the
    increment of 2021 is 80 - 50 = 30. Against the sum of the increments
    emitted before, 100 + 0, it would have been 0. *)
Example baseline_after_downward_revision :
  exists y2019 y2020 y2021,
    _get_yearly_increments utc_fromtimestamp revised_history
      = Returned [(2019%Z, y2019); (2020%Z, y2020); (2021%Z, y2021)] /\
    Increment.sales y2019 = 100 /\ Increment.sales y2020 = 0 /\
    Increment.sales y2021 = 30 /\
    max2 0 (Increment.cumulative_sales y2021
            - (Increment.sales y2019 + Increment.sales y2020)) = 0.
Proof.
  do 3 eexists. split; [vm_compute; reflexivity|]. repeat split.
Qed.

(** *** Which snapshot of a period wins *)

(** C1. [_get_yearly_increments] does not sort the history: of two
    snapshots of the year 2020 it keeps the one listed last. Listed as
    June, January the year's row is January's (cumulative sales 50);
    listed as January, June it is June's (cumulative sales 100). The row
    therefore depends on the order of the list and not only on the
    snapshot with the greatest time stamp. *)
Theorem yearly_increments_keep_last_listed :
  _get_yearly_increments utc_fromtimestamp [mid_june_2020; mid_january_2020]
    = Returned
        [(2020%Z,
          {| Increment.sales := 50; Increment.revenue := 500;
             Increment.cumulative_sales := 50;
             Increment.cumulative_revenue := 500;
             Increment.score := 70 |})] /\
  _get_yearly_increments utc_fromtimestamp [mid_january_2020; mid_june_2020]
    = Returned
        [(2020%Z,
          {| Increment.sales := 100; Increment.revenue := 1000;
             Increment.cumulative_sales := 100;
             Increment.cumulative_revenue := 1000;
             Increment.score := 80 |})].
Proof. split; reflexivity. Qed.

(** The yearly calculator, in contrast, holds under a year the snapshot
    listed last, whatever its time stamp. *)
(** [get_history_for_game] sorts by time stamp first, and gives June's row
    for either order. *)
Example history_for_game_keeps_latest :
  get_history_for_game utc_fromtimestamp
    (sample_game [] None None None None []
       [mid_june_2020; mid_january_2020]) "yearly"
  = Returned [(PYear 2020, period_row mid_june_2020 0 0)] /\
  get_history_for_game utc_fromtimestamp
    (sample_game [] None None None None []
       [mid_january_2020; mid_june_2020]) "yearly"
  = Returned [(PYear 2020, period_row mid_june_2020 0 0)].
Proof. split; reflexivity. Qed.

Section LatestWins.
Variable fromtimestamp : Z -> option datetime.
Variable freq : string.

Local Abbreviation period_key := (period_key fromtimestamp freq).

Lemma collect_by_period_fold (history : list Snapshot.t) :
  collect_by_period fromtimestamp freq history
  = fold_left
      (fun d x => match period_key x with Some k => set d k x | None => d end)
      history [].
Proof.
  unfold collect_by_period. apply fold_left_pointwise.
  intros d item. unfold period_key.
  destruct (snapshot_datetime fromtimestamp item); reflexivity.
Qed.

Lemma get_collect_by_period (history : list Snapshot.t) (p : period) :
  get (collect_by_period fromtimestamp freq history) p
  = last_opt (with_key period_key p history).
Proof.
  rewrite collect_by_period_fold, get_collect. simpl.
  destruct (last_opt _); reflexivity.
Qed.

(** The result is the walk over the winning snapshots in the order of
    their periods. *)
Lemma get_history_for_game_by_key (game : Game.t) :
  get_history_for_game fromtimestamp game freq
  = Returned
      (walk period_row
         (by_key period_leb
            (collect_by_period fromtimestamp freq
               (sorted by_timeStamp (Game.history game)))) 0 0).
Proof.
  destruct (get_history_for_game_walk fromtimestamp game freq)
    as (items & Hout & Hitems).
  rewrite items_at_by_key in Hitems by apply NoDup_collect_by_period.
  apply map_Some_inj in Hitems. now rewrite Hout, Hitems.
Qed.

(** X3. A snapshot older than another snapshot of its period, put in
    front of the history of a game, changes nothing in the rows of
    [get_history_for_game]: the latest snapshot of a period decides,
    whatever the order of the list. *)
Lemma get_history_for_game_older_snapshot (game game' : Game.t)
  (s s' : Snapshot.t) (dt dt' : datetime) :
  Game.history game' = s :: Game.history game ->
  snapshot_datetime fromtimestamp s = Some dt ->
  In s' (Game.history game) ->
  snapshot_datetime fromtimestamp s' = Some dt' ->
  period_of freq dt = period_of freq dt' ->
  (timeStamp_key s < timeStamp_key s')%Z ->
  get_history_for_game fromtimestamp game' freq
  = get_history_for_game fromtimestamp game freq.
Proof.
  intros Hhistory Hdt Hin Hdt' Hperiod Holder.
  rewrite !get_history_for_game_by_key, Hhistory.
  set (history := Game.history game) in *. f_equal. f_equal.
  apply by_key_same_content; try apply NoDup_collect_by_period.
  intros p. rewrite !get_collect_by_period. cbn [sorted fold_right].
  fold (sorted by_timeStamp history). unfold with_key.
  rewrite filter_insert.
  2:{ intros x y z. apply by_timeStamp_trans. }
  2:{ apply sorted_StronglySorted;
        [apply by_timeStamp_total | apply by_timeStamp_trans]. }
  unfold period_key at 1. rewrite Hdt. cbn [option_map].
  destruct (eqb_spec p (period_of freq dt)) as [->|Hne]; [|reflexivity].
  apply last_opt_insert. exists s'. split.
  - apply filter_In. split; [now apply In_sorted|].
    unfold period_key. rewrite Hdt'. cbn [option_map].
    rewrite Hperiod. apply eqb_refl.
  - unfold by_timeStamp. lia.
Qed.

(** X4. Reordering a history in which no two snapshots have the same
    time stamp changes nothing in the rows of [get_history_for_game]. *)
Lemma get_history_for_game_reordered (game game' : Game.t) :
  Permutation (Game.history game) (Game.history game') ->
  (forall x y, In x (Game.history game) -> In y (Game.history game) ->
     timeStamp_key x = timeStamp_key y -> x = y) ->
  get_history_for_game fromtimestamp game freq
  = get_history_for_game fromtimestamp game' freq.
Proof.
  intros Hperm Hdistinct. unfold get_history_for_game.
  rewrite (sorted_unique by_timeStamp by_timeStamp_total by_timeStamp_trans
             (Game.history game) (Game.history game') Hperm); [reflexivity|].
  intros x y Hx Hy Hle Hge. apply Hdistinct; auto.
  unfold by_timeStamp in *. lia.
Qed.

End LatestWins.

(* ================================================================== *)
(** ** Temporal rollups *)

Lemma totals_upd_fold (es : list Increment.t) :
  forall t : Totals.t,
    let pos := positive (map Increment.score es) in
    Totals.game_count (fold_left totals_upd es t)
      = (Totals.game_count t
         + Z.of_nat (List.length
                       (filter (fun e => gtb (Increment.sales e) 0) es)))%Z /\
    Totals.score_sum (fold_left totals_upd es t)
      = fold_left Qplus pos (Totals.score_sum t) /\
    Totals.score_count (fold_left totals_upd es t)
      = (Totals.score_count t + Z.of_nat (List.length pos))%Z.
Proof.
  unfold positive.
  induction es as [|e es IH]; intros t; simpl.
  - repeat split; lia.
  - destruct (IH (totals_upd t e)) as (Hgc & Hsum & Hcount).
    rewrite Hgc, Hsum, Hcount. unfold totals_upd. simpl.
    destruct (gtb (Increment.sales e) 0), (gtb (Increment.score e) 0); simpl;
      repeat split; lia.
Qed.

Lemma trend_row_spec (es : list Increment.t) :
  exists row,
    trend_row (fold_left totals_upd es Totals.zero) = Returned row /\
    Trend.game_count row
      = Z.of_nat (List.length (filter (fun e => gtb (Increment.sales e) 0) es)) /\
    Trend.avg_score row = mean_positive (map Increment.score es).
Proof.
  destruct (totals_upd_fold es Totals.zero) as (Hgc & Hsum & Hcount).
  simpl in Hgc, Hsum, Hcount. unfold trend_row.
  rewrite Hgc, Hsum, Hcount. unfold mean_positive.
  destruct (positive (map Increment.score es)) as [|v pos] eqn:E.
  - simpl. eexists. repeat split.
  - replace (Z.of_nat (List.length (v :: pos)) >? 0)%Z with true
      by (symmetry; apply Z.gtb_lt; simpl; lia).
    rewrite div_inject_Z by (simpl; lia). cbn [bind].
    eexists. repeat split.
Qed.

Section Temporal.
Variable fromtimestamp : Z -> option datetime.

Lemma _get_yearly_increments_returns (history : list Snapshot.t) :
  _get_yearly_increments fromtimestamp history
  = Returned (yearly_increments_of fromtimestamp history).
Proof.
  unfold yearly_increments_of.
  destruct (_get_yearly_increments_walk fromtimestamp history) as (items & -> & _).
  reflexivity.
Qed.

Lemma trends_loop (games : list Game.t) :
  forall totals : dict Z Totals.t,
    for_each (trends_game fromtimestamp) games totals
    = Returned (accumulate totals_upd Totals.zero totals
                  (trend_events fromtimestamp games)).
Proof.
  unfold trend_events.
  induction games as [|g games IH]; intros totals; [reflexivity|].
  cbn [for_each flat_map]. unfold trends_game at 1.
  rewrite _get_yearly_increments_returns. cbn [bind].
  rewrite IH, accumulate_app. reflexivity.
Qed.

Lemma get_yearly_trends_spec (games : list Game.t) :
  exists trends,
    get_yearly_trends fromtimestamp games = Returned trends /\
    (forall yr, In yr (keys trends) <->
       In yr (keys (trend_events fromtimestamp games))) /\
    forall yr row, In (yr, row) trends ->
      let entries := select yr (trend_events fromtimestamp games) in
      Trend.game_count row
        = Z.of_nat (List.length
                      (filter (fun e => gtb (Increment.sales e) 0) entries)) /\
      Trend.avg_score row = mean_positive (map Increment.score entries).
Proof.
  unfold get_yearly_trends. rewrite trends_loop. cbn [bind].
  destruct (accumulated_rows totals_upd Totals.zero
              (trend_events fromtimestamp games) trend_row
              (sorted (fun x y => Z.leb (fst x) (fst y))))
    as (res & Hres & _ & Hkeys & Hrows).
  { intros l. apply sorted_perm. }
  { intros es _. destruct (trend_row_spec es) as (row & Hrow & _). eauto. }
  exists res. split; [exact Hres|]. split; [exact Hkeys|].
  intros yr row Hin. apply Hrows in Hin.
  destruct (trend_row_spec (select yr (trend_events fromtimestamp games)))
    as (row' & Hrow' & Hspec).
  rewrite Hin in Hrow'. injection Hrow' as <-. exact Hspec.
Qed.

End Temporal.

Lemma bucket_fold_sales_inc (es : list (Snapshot.t * Q * Q)) :
  forall b : Buckets.t,
    Buckets.sales_inc (fold_left bucket_upd es b)
    = Buckets.sales_inc b ++ map event_sales_inc es.
Proof.
  induction es as [|[[item ps] pr] es IH]; intros b; simpl.
  - now rewrite app_nil_r.
  - rewrite IH. simpl. now rewrite <- app_assoc.
Qed.

Lemma bucket_fold_score (es : list (Snapshot.t * Q * Q)) :
  forall b : Buckets.t,
    Buckets.score (fold_left bucket_upd es b)
    = Buckets.score b ++ map event_score es.
Proof.
  induction es as [|[[item ps] pr] es IH]; intros b; simpl.
  - now rewrite app_nil_r.
  - rewrite IH. simpl. now rewrite <- app_assoc.
Qed.

Lemma _avg_returns (lst : list Q) : _avg lst = Returned (mean_positive lst).
Proof.
  unfold _avg, mean_positive, positive. rewrite filter_truthy_positive.
  destruct (filter (fun v => gtb v 0) lst); [reflexivity|].
  apply div_len_cons.
Qed.

Lemma aggregate_row_spec (b : Buckets.t) :
  exists row,
    aggregate_row b = Returned row /\
    Aggregate.total_games row = Z.of_nat (List.length (Buckets.sales_inc b)) /\
    Aggregate.sales_inc row = sum (Buckets.sales_inc b) /\
    Aggregate.avg_score row = mean_positive (Buckets.score b).
Proof.
  unfold aggregate_row. rewrite !_avg_returns. cbn [bind].
  eexists. repeat split.
Qed.

Section Aggregate.
Variable fromtimestamp : Z -> option datetime.
Variables (freq : string) (year_min year_max : Z).

Lemma NoDup_collect_within (history : list Snapshot.t) :
  NoDup (keys (collect_within fromtimestamp freq year_min year_max history)).
Proof.
  unfold collect_within.
  assert (G : forall acc : dict period Snapshot.t, NoDup (keys acc) ->
    NoDup (keys (fold_left
      (fun by_period item =>
         match snapshot_datetime fromtimestamp item with
         | Some dt =>
             if ((year dt <? year_min) || (year dt >? year_max))%Z%bool
             then by_period
             else set by_period (period_of freq dt) item
         | None => by_period
         end) history acc))).
  { induction history as [|item history IH]; intros acc Hacc; simpl; auto.
    apply IH. destruct (snapshot_datetime fromtimestamp item); auto.
    destruct ((year d <? year_min) || (year d >? year_max))%Z%bool; auto.
    now apply NoDup_keys_set. }
  apply G. constructor.
Qed.

Lemma bucket_loop (by_period : dict period Snapshot.t)
  (items : list (period * Snapshot.t)) :
  (forall p item, In (p, item) items -> get by_period p = Some item) ->
  forall (period_buckets : dict period Buckets.t) (ps pr : Q),
  exists ps' pr',
    for_each (bucket_step by_period) (keys items) (period_buckets, ps, pr)
    = Returned
        (accumulate bucket_upd Buckets.empty period_buckets
           (walk (fun item prev_sales prev_revenue =>
                    (item, prev_sales, prev_revenue)) items ps pr),
         ps', pr').
Proof.
  induction items as [|[p item] items IH]; intros Hget pb ps pr.
  - exists ps, pr. reflexivity.
  - cbn [keys map fst for_each walk]. unfold bucket_step at 1.
    unfold subscript. rewrite (Hget p item) by now left. cbn [bind].
    destruct (IH (fun p' item' Hi => Hget p' item' (or_intror Hi))
                (update pb p (bucket_append item ps pr) Buckets.empty)
                (get_or (Snapshot.sales item) 0)
                (get_or (Snapshot.revenue item) 0)) as (ps' & pr' & Hloop).
    exists ps', pr'. exact Hloop.
Qed.

Lemma aggregate_game_spec (period_buckets : dict period Buckets.t)
  (g : Game.t) :
  aggregate_game fromtimestamp freq year_min year_max period_buckets g
  = Returned
      (accumulate bucket_upd Buckets.empty period_buckets
         (period_events fromtimestamp freq year_min year_max g)).
Proof.
  unfold aggregate_game, period_events, winners.
  destruct (sorted by_timeStamp (Game.history g)) as [|item history] eqn:E.
  - reflexivity.
  - set (by_period :=
           collect_within fromtimestamp freq year_min year_max (item :: history)).
    rewrite <- keys_by_key.
    destruct (bucket_loop by_period (by_key period_leb by_period))
      with (period_buckets := period_buckets) (ps := 0) (pr := 0)
      as (ps' & pr' & Hloop).
    { intros p it Hin. apply In_by_key in Hin.
      apply In_get; [apply NoDup_collect_within | exact Hin]. }
    now rewrite Hloop.
Qed.

Lemma aggregate_loop (games : list Game.t) :
  forall period_buckets : dict period Buckets.t,
    for_each (aggregate_game fromtimestamp freq year_min year_max) games
      period_buckets
    = Returned
        (accumulate bucket_upd Buckets.empty period_buckets
           (aggregate_events fromtimestamp freq year_min year_max games)).
Proof.
  unfold aggregate_events.
  induction games as [|g games IH]; intros pb; [reflexivity|].
  cbn [for_each flat_map]. rewrite aggregate_game_spec. cbn [bind].
  now rewrite IH, accumulate_app.
Qed.

Lemma get_history_aggregate_spec (games : list Game.t) :
  let events := aggregate_events fromtimestamp freq year_min year_max games in
  exists agg,
    get_history_aggregate fromtimestamp games freq year_min year_max
      = Returned agg /\
    keys agg = sorted period_leb (keys (accumulate bucket_upd Buckets.empty [] events)) /\
    (forall p, In p (keys agg) <-> In p (keys events)) /\
    forall p row, In (p, row) agg ->
      Aggregate.total_games row = Z.of_nat (List.length (select p events)) /\
      Aggregate.sales_inc row = sum (map event_sales_inc (select p events)) /\
      Aggregate.avg_score row = mean_positive (map event_score (select p events)).
Proof.
  intros events. unfold get_history_aggregate.
  rewrite aggregate_loop. cbn [bind]. fold events.
  destruct (accumulated_rows bucket_upd Buckets.empty events aggregate_row
              (sorted (fun x y => period_leb (fst x) (fst y))))
    as (res & Hres & Hk & Hkeys & Hrows).
  { intros l. apply sorted_perm. }
  { intros es _. destruct (aggregate_row_spec (fold_left bucket_upd es Buckets.empty))
      as (row & Hrow & _). eauto. }
  exists res. split; [exact Hres|]. split.
  { rewrite Hk. apply map_sorted. }
  split; [exact Hkeys|].
  intros p row Hin. apply Hrows in Hin.
  destruct (aggregate_row_spec
              (fold_left bucket_upd (select p events) Buckets.empty))
    as (row' & Hrow' & Htotal & Hsales & Hscore).
  rewrite Hin in Hrow'. injection Hrow' as <-.
  rewrite Htotal, Hsales, Hscore, bucket_fold_sales_inc, bucket_fold_score.
  simpl. now rewrite length_map.
Qed.

End Aggregate.

Section AggregateCount.
Variable fromtimestamp : Z -> option datetime.
Variables (freq : string) (year_min year_max : Z).

Lemma keys_period_events (g : Game.t) :
  keys (period_events fromtimestamp freq year_min year_max g)
  = sorted period_leb (keys (winners fromtimestamp freq year_min year_max g)).
Proof. unfold period_events. now rewrite keys_walk, keys_by_key. Qed.

Lemma NoDup_period_events (g : Game.t) :
  NoDup (keys (period_events fromtimestamp freq year_min year_max g)).
Proof.
  rewrite keys_period_events. apply NoDup_sorted, NoDup_collect_within.
Qed.

Lemma has_key_period_events (g : Game.t) (p : period) :
  has_key (period_events fromtimestamp freq year_min year_max g) p
  = has_key (winners fromtimestamp freq year_min year_max g) p.
Proof.
  apply has_key_same_keys. intros p'. rewrite keys_period_events.
  apply In_sorted.
Qed.

(** A period has one event for each game that has a snapshot in it. *)
Lemma count_period_events (games : list Game.t) (p : period) :
  List.length
    (select p (aggregate_events fromtimestamp freq year_min year_max games))
  = List.length
      (filter
         (fun g => has_key (winners fromtimestamp freq year_min year_max g) p)
         games).
Proof.
  unfold aggregate_events. rewrite select_flat_map.
  induction games as [|g games IH]; simpl; [reflexivity|].
  rewrite length_app, IH, select_NoDup by apply NoDup_period_events.
  rewrite has_key_period_events.
  destruct (has_key (winners fromtimestamp freq year_min year_max g) p);
    reflexivity.
Qed.

(** C5, as the code has it. Both rollups return for every collection.
    In [get_yearly_trends] the game count of a year is the number of the
    year's derived rows, one per record that has the year, whose salesInc
    is greater than 0, and the average score is the mean of the scores
    greater than 0. In [get_history_aggregate] the total of games of a
    period is the number of records that have a snapshot in the period,
    whatever their salesInc, and the average score is again the mean of
    the scores greater than 0. *)
Theorem rollup_game_counts_and_mean_scores (games : list Game.t) :
  (exists trends,
     get_yearly_trends fromtimestamp games = Returned trends /\
     forall yr row, In (yr, row) trends ->
       let entries := select yr (trend_events fromtimestamp games) in
       Trend.game_count row
         = Z.of_nat (List.length
                       (filter (fun e => gtb (Increment.sales e) 0) entries)) /\
       Trend.avg_score row = mean_positive (map Increment.score entries)) /\
  (exists agg,
     get_history_aggregate fromtimestamp games freq year_min year_max
       = Returned agg /\
     forall p row, In (p, row) agg ->
       let events :=
         select p
           (aggregate_events fromtimestamp freq year_min year_max games) in
       Aggregate.total_games row
         = Z.of_nat (List.length
             (filter
                (fun g =>
                   has_key (winners fromtimestamp freq year_min year_max g) p)
                games)) /\
       Aggregate.total_games row = Z.of_nat (List.length events) /\
       Aggregate.avg_score row = mean_positive (map event_score events)).
Proof.
  split.
  - destruct (get_yearly_trends_spec fromtimestamp games)
      as (trends & Htrends & _ & Hrows). eauto.
  - destruct (get_history_aggregate_spec fromtimestamp freq year_min year_max
                games) as (agg & Hagg & _ & _ & Hrows).
    exists agg. split; [exact Hagg|]. intros p row Hin.
    destruct (Hrows p row Hin) as (Htotal & _ & Hscore).
    cbn zeta. rewrite <- count_period_events. auto.
Qed.

End AggregateCount.

(** The claim as written has [get_history_aggregate] count only records
    with a positive salesInc. A game whose only snapshot reports no sales
    is counted all the same: its year has a total of one game and a sales
    increment of 0. [get_yearly_trends] counts no game there. *)
Lemma aggregate_counts_game_without_sales :
  exists row trend,
    get_history_aggregate utc_fromtimestamp [game_without_sales]
      "yearly" 2015 2026 = Returned [(PYear 2020, row)] /\
    Aggregate.sales_inc row = 0 /\
    Aggregate.total_games row = 1%Z /\
    get_yearly_trends utc_fromtimestamp [game_without_sales]
      = Returned [(2020%Z, trend)] /\
    Trend.game_count trend = 0%Z.
Proof.
  eexists. eexists. split; [vm_compute; reflexivity|].
  split; [reflexivity|]. split; [reflexivity|].
  split; [vm_compute; reflexivity|]. reflexivity.
Qed.

(** *** The year bounds of [get_history_aggregate] *)

Section Window.
Variable fromtimestamp : Z -> option datetime.
Variables (freq : string) (year_min year_max : Z).

Lemma collect_within_window (history : list Snapshot.t) :
  collect_within fromtimestamp freq year_min year_max
    (filter (fun item => negb (out_of_window fromtimestamp year_min year_max item))
       history)
  = collect_within fromtimestamp freq year_min year_max history.
Proof.
  unfold collect_within. apply fold_left_filter_skip.
  intros by_period item Hout. apply negb_false_iff in Hout.
  unfold out_of_window in Hout.
  destruct (snapshot_datetime fromtimestamp item); [|reflexivity].
  now rewrite Hout.
Qed.

Lemma winners_within_window (g : Game.t) :
  winners fromtimestamp freq year_min year_max
    (within_window fromtimestamp year_min year_max g)
  = winners fromtimestamp freq year_min year_max g.
Proof.
  unfold winners, within_window. cbn [Game.history].
  rewrite <- (filter_sorted by_timeStamp _ by_timeStamp_total
                by_timeStamp_trans).
  apply collect_within_window.
Qed.

Lemma aggregate_events_within_window (games : list Game.t) :
  aggregate_events fromtimestamp freq year_min year_max
    (map (within_window fromtimestamp year_min year_max) games)
  = aggregate_events fromtimestamp freq year_min year_max games.
Proof.
  unfold aggregate_events, period_events.
  induction games as [|g games IH]; simpl; [reflexivity|].
  now rewrite winners_within_window, IH.
Qed.

Lemma In_keys_collect_within (history : list Snapshot.t) (p : period) :
  In p (keys (collect_within fromtimestamp freq year_min year_max history)) ->
  exists item dt,
    In item history /\
    snapshot_datetime fromtimestamp item = Some dt /\
    (year_min <= year dt <= year_max)%Z /\
    p = period_of freq dt.
Proof.
  unfold collect_within.
  assert (G : forall acc : dict period Snapshot.t,
    In p (keys (fold_left
      (fun by_period item =>
         match snapshot_datetime fromtimestamp item with
         | Some dt =>
             if ((year dt <? year_min) || (year dt >? year_max))%Z%bool
             then by_period
             else set by_period (period_of freq dt) item
         | None => by_period
         end) history acc)) ->
    In p (keys acc) \/
    exists item dt,
      In item history /\
      snapshot_datetime fromtimestamp item = Some dt /\
      (year_min <= year dt <= year_max)%Z /\
      p = period_of freq dt).
  { induction history as [|item history IH]; intros acc Hin; simpl in *; [auto|].
    apply IH in Hin as [Hin|(it & dt & Hit & Hdt & Hy & Hp)].
    - destruct (snapshot_datetime fromtimestamp item) as [dt|] eqn:Edt; [|auto].
      destruct ((year dt <? year_min) || (year dt >? year_max))%Z%bool eqn:Ew;
        [auto|].
      apply In_keys_set in Hin as [->|Hin]; [|auto].
      right. exists item, dt. repeat split; auto; lia.
    - right. exists it, dt. auto. }
  intros Hin. apply G in Hin as [[]|Hin]. exact Hin.
Qed.

(** C10. For all bounds, and so for the default 2015 and 2026,
    [get_history_aggregate] returns, and
    - every period of the result is the period of a snapshot of some game
      whose year is within the bounds;
    - the result is the one of the games without their snapshots of a
      year outside the bounds: those create no period and change no
      increment;
    - the sales increment of a period is the sum of the increments of the
      games' contributions to it, and the first contribution of every
      game, that of its first period within the bounds, is measured
      against the baselines 0 and 0. *)
Theorem out_of_window_snapshots_contribute_nothing (games : list Game.t) :
  exists agg,
    get_history_aggregate fromtimestamp games freq year_min year_max
      = Returned agg /\
    (forall p, In p (keys agg) ->
       exists g item dt,
         In g games /\ In item (Game.history g) /\
         snapshot_datetime fromtimestamp item = Some dt /\
         (year_min <= year dt <= year_max)%Z /\
         p = period_of freq dt) /\
    get_history_aggregate fromtimestamp
      (map (within_window fromtimestamp year_min year_max) games)
      freq year_min year_max = Returned agg /\
    (forall p row, In (p, row) agg ->
       Aggregate.sales_inc row
       = sum (map event_sales_inc
                (select p (aggregate_events fromtimestamp freq year_min
                             year_max games)))) /\
    (forall g p ev rest,
       In g games ->
       period_events fromtimestamp freq year_min year_max g = (p, ev) :: rest ->
       exists item,
         ev = (item, 0, 0) /\
         get (winners fromtimestamp freq year_min year_max g) p = Some item).
Proof.
  destruct (get_history_aggregate_spec fromtimestamp freq year_min year_max
              games) as (agg & Hagg & _ & Hkeys & Hrows).
  exists agg. split; [exact Hagg|]. split; [|split; [|split]].
  - intros p Hp. apply Hkeys in Hp.
    unfold aggregate_events, keys in Hp. rewrite in_map_iff in Hp.
    destruct Hp as ([p' ev] & <- & Hin).
    apply in_flat_map in Hin as (g & Hg & Hin).
    apply (in_map fst) in Hin. fold (keys (period_events fromtimestamp freq
      year_min year_max g)) in Hin.
    rewrite keys_period_events in Hin. apply In_sorted in Hin.
    apply In_keys_collect_within in Hin as (item & dt & Hit & Hdt & Hy & Hp).
    apply In_sorted in Hit. exists g, item, dt. auto.
  - rewrite <- Hagg. unfold get_history_aggregate.
    rewrite !aggregate_loop. now rewrite aggregate_events_within_window.
  - intros p row Hin. now apply Hrows in Hin.
  - intros g p ev rest _ Hev. unfold period_events in Hev.
    destruct (by_key period_leb (winners fromtimestamp freq year_min year_max g))
      as [|[p' item] items] eqn:E; [discriminate|].
    simpl in Hev. injection Hev as <- <- _.
    exists item. split; [reflexivity|].
    apply In_get; [apply NoDup_collect_within|].
    apply (In_by_key period_leb). rewrite E. now left.
Qed.

End Window.

(** With the default bounds the snapshot of 2014 is left out: the only
    period is 2020, and its increment is 1500, measured against 0 and not
    against the 1000 of 2014. *)
Example aggregate_leaves_out_2014 :
  exists row,
    get_history_aggregate utc_fromtimestamp [game_since_2014] "yearly"
      2015 2026 = Returned [(PYear 2020, row)] /\
    Aggregate.sales_inc row = 1500 /\ Aggregate.total_games row = 1%Z.
Proof. eexists. split; [vm_compute; reflexivity|]. split; reflexivity. Qed.

(* ================================================================== *)
(** ** Category rollups *)

Lemma stats_upd_scores (gs : list Game.t) :
  forall s : Stats.t,
    let pos := positive (map (fun g => get_or (Game.reviewScore g) 0) gs) in
    Stats.score_sum (fold_left stats_upd gs s)
      = fold_left Qplus pos (Stats.score_sum s) /\
    Stats.score_count (fold_left stats_upd gs s)
      = (Stats.score_count s + Z.of_nat (List.length pos))%Z.
Proof.
  unfold positive.
  induction gs as [|g gs IH]; intros s; simpl.
  - split; [reflexivity | lia].
  - destruct (IH (stats_upd s g)) as [Hsum Hcount].
    rewrite Hsum, Hcount. unfold stats_upd. simpl.
    destruct (gtb (get_or (Game.reviewScore g) 0) 0); simpl.
    + split; [reflexivity | lia].
    + split; [reflexivity | lia].
Qed.

Lemma category_row_avg_score (gs : list Game.t) :
  exists row,
    category_row (fold_left stats_upd gs Stats.zero) = Returned row /\
    Category.avg_score row
      = mean_positive (map (fun g => get_or (Game.reviewScore g) 0) gs).
Proof.
  destruct (stats_upd_scores gs Stats.zero) as [Hsum Hcount].
  simpl in Hsum, Hcount. unfold category_row.
  set (data := fold_left stats_upd gs Stats.zero) in *.
  assert (Hdiv : forall q, exists a,
    (if (Stats.count data =? 0)%Z then Returned 0
     else div q (inject_Z (Stats.count data))) = Returned a).
  { intros q. destruct (Z.eqb_spec (Stats.count data) 0); [eauto|].
    rewrite div_inject_Z by assumption. eauto. }
  destruct (Hdiv (Stats.revenue_sum data)) as (a1 & ->).
  destruct (Hdiv (Stats.sales_sum data)) as (a2 & ->). cbn [bind].
  rewrite Hsum, Hcount. unfold mean_positive.
  destruct (positive (map (fun g => get_or (Game.reviewScore g) 0) gs))
    as [|v pos] eqn:E.
  - simpl. eexists. split; reflexivity.
  - replace (Z.of_nat (List.length (v :: pos)) =? 0)%Z with false
      by (symmetry; apply Z.eqb_neq; simpl; lia).
    rewrite div_inject_Z by (simpl; lia). cbn [bind].
    eexists. split; reflexivity.
Qed.

Lemma In_keys_category_events (field : Game.t -> list string)
  (games : list Game.t) (c : string) :
  In c (keys (category_events field games)) <->
  exists g, In g games /\ In c (field g).
Proof.
  unfold keys, category_events. rewrite in_map_iff. split.
  - intros ([c' g] & <- & Hin). apply in_flat_map in Hin as (g' & Hg' & Hin).
    apply in_map_iff in Hin as (c'' & E & Hc). injection E as <- <-. eauto.
  - intros (g & Hg & Hc). exists (c, g). split; [reflexivity|].
    apply in_flat_map. exists g. split; [assumption|].
    apply in_map_iff. eauto.
Qed.

(** Both rollups: the accumulation of [stats_add], put in some order, and
    turned into rows. *)
Lemma category_rollup (field : Game.t -> list string)
  (order : list (string * Stats.t) -> list (string * Stats.t))
  (games : list Game.t) :
  (forall l, Permutation (order l) l) ->
  exists res,
    category_result
      (order (fold_left
                (fun stats g => fold_left (stats_add g) (field g) stats)
                games []))
      = Returned res /\
    (forall c, In c (keys res) <-> exists g, In g games /\ In c (field g)) /\
    (forall c row, In (c, row) res ->
       Category.avg_score row = mean_positive (group_scores field c games)).
Proof.
  intros Horder.
  rewrite (nested_accumulate stats_upd Stats.zero field stats_add (fun g => g))
    by reflexivity.
  fold (category_events field games).
  set (stats := accumulate stats_upd Stats.zero [] (category_events field games)).
  assert (Hnd : NoDup (keys stats)).
  { apply NoDup_keys_accumulate. constructor. }
  assert (Hdata : forall c data, In (c, data) (order stats) ->
    In c (keys (category_events field games)) /\
    data = fold_left stats_upd (select c (category_events field games))
             Stats.zero).
  { intros c data Hin. apply (Permutation_in _ (Horder stats)) in Hin.
    assert (Hk : In c (keys (category_events field games))).
    { apply (in_map fst) in Hin.
      apply In_keys_accumulate in Hin as [[]|Hin]. exact Hin. }
    split; [exact Hk|].
    apply In_get in Hin; [|exact Hnd]. unfold stats in Hin.
    rewrite get_accumulate in Hin. simpl in Hin.
    destruct (select c (category_events field games)) eqn:Es.
    - discriminate.
    - now injection Hin as <-. }
  destruct (keyed_rows category_row (order stats)) as (res & Hres & HF).
  { eapply Permutation_NoDup; [|exact Hnd].
    apply Permutation_map. symmetry. apply Horder. }
  { intros c data Hin. destruct (Hdata c data Hin) as [_ ->].
    destruct (category_row_avg_score
                (select c (category_events field games))) as (row & Hrow & _).
    eauto. }
  exists res. split; [exact Hres|]. split.
  - intros c. rewrite <- In_keys_category_events.
    assert (Hkeys : keys res = keys (order stats)).
    { eapply Forall2_keys. exact HF. }
    rewrite Hkeys.
    assert (Hperm : Permutation (keys (order stats)) (keys stats))
      by apply Permutation_map, Horder.
    transitivity (In c (keys stats)).
    { split; apply Permutation_in; [|symmetry]; exact Hperm. }
    unfold stats. rewrite In_keys_accumulate. simpl. tauto.
  - intros c row Hin.
    destruct (Forall2_In_r _ _ _ _ HF Hin) as ([c' data] & Hd & Ec & Hrow).
    simpl in Ec, Hrow. subst c'.
    destruct (Hdata c data Hd) as [_ ->].
    destruct (category_row_avg_score
                (select c (category_events field games))) as (row' & Hrow' & Havg).
    rewrite Hrow in Hrow'. injection Hrow' as <-. exact Havg.
Qed.

(** C9, as the code has it. In the genre rollup and in the tag rollup,
    which return for every collection and have a group for exactly the
    values some record lists, the average review score of a group is the
    sum of the group's review scores greater than 0 divided by the number
    of its records with a score greater than 0, and 0 when there is no
    such record. Scores 0, 80 and 90 give 85. *)
Theorem category_avg_score_over_positive_scores (games : list Game.t) :
  (exists by_genre,
     get_genre_stats games = Returned by_genre /\
     (forall genre, In genre (keys by_genre) <->
        exists g, In g games /\ In genre (Game.genres g)) /\
     forall genre row, In (genre, row) by_genre ->
       Category.avg_score row
         = mean_positive (group_scores Game.genres genre games)) /\
  (exists by_tag,
     get_tag_stats games = Returned by_tag /\
     (forall tag, In tag (keys by_tag) <->
        exists g, In g games /\ In tag (Game.tags g)) /\
     forall tag row, In (tag, row) by_tag ->
       Category.avg_score row
         = mean_positive (group_scores Game.tags tag games)) /\
  (exists by_genre row,
     get_genre_stats rpg_games = Returned by_genre /\
     get by_genre "RPG"%string = Some row /\
     Category.avg_score row == 85).
Proof.
  split; [|split].
  - apply category_rollup. intros l. apply sorted_perm.
  - apply category_rollup. intros l. apply sorted_perm.
  - eexists. eexists. split; [vm_compute; reflexivity|].
    split; reflexivity.
Qed.

(** The claim as written counts every nonzero score. A score below 0 is
    nonzero, and the code leaves it out: scores -10 and 80 give 80, not
    their mean 35. *)
Lemma category_avg_score_skips_negative :
  exists by_genre row,
    get_genre_stats rpg_games_negative = Returned by_genre /\
    get by_genre "RPG"%string = Some row /\
    Category.avg_score row == 80 /\
    ~ Category.avg_score row == (-10 + 80) / 2.
Proof.
  eexists. eexists. split; [vm_compute; reflexivity|].
  split; [reflexivity|]. split; [reflexivity|]. discriminate.
Qed.

(* ================================================================== *)
(** ** Country rollup *)

Lemma country_shares (w : Q) (cd : dict string Q) :
  forall weighted : dict string Q,
    fold_left
      (fun weighted '(code, pct) => update weighted code (fun v => v + pct * w) 0)
      cd weighted
    = accumulate Qplus 0 weighted (map (fun '(code, pct) => (code, pct * w)) cd).
Proof.
  unfold accumulate.
  induction cd as [|[code pct] cd IH]; intros weighted; simpl; [reflexivity|].
  apply IH.
Qed.

Lemma country_loop (weight_by : string) (games : list Game.t) :
  forall (weighted : dict string Q) (total_weight : Q),
    fold_left (country_game weight_by) games (weighted, total_weight) =
    (accumulate Qplus 0 weighted (country_events weight_by games),
     fold_left Qplus
       (map (country_weight weight_by) (filter supplies_country_data games))
       total_weight).
Proof.
  unfold country_events.
  induction games as [|g games IH]; intros weighted total_weight.
  - reflexivity.
  - cbn [fold_left filter].
    destruct (Game.countryData g) as [[|[code pct] cd]|] eqn:Ecd.
    + replace (country_game weight_by (weighted, total_weight) g)
        with (weighted, total_weight)
        by (unfold country_game; now rewrite Ecd).
      replace (supplies_country_data g) with false
        by (unfold supplies_country_data; now rewrite Ecd).
      apply IH.
    + replace (supplies_country_data g) with true
        by (unfold supplies_country_data; now rewrite Ecd).
      replace (country_game weight_by (weighted, total_weight) g)
        with (accumulate Qplus 0 weighted
                (map (fun '(code, pct) =>
                        (code, pct * country_weight weight_by g))
                   ((code, pct) :: cd)),
              total_weight + country_weight weight_by g)
        by (unfold country_game; rewrite Ecd, country_shares; reflexivity).
      rewrite IH. cbn [flat_map map fold_left]. rewrite Ecd.
      now rewrite accumulate_app.
    + replace (country_game weight_by (weighted, total_weight) g)
        with (weighted, total_weight)
        by (unfold country_game; now rewrite Ecd).
      replace (supplies_country_data g) with false
        by (unfold supplies_country_data; now rewrite Ecd).
      apply IH.
Qed.

(** C6, as the code has it. The weight of a record is its revenue (or its
    copies sold, or 1), and 1 when that metric is zero or absent. The
    rollup returns for every collection and weight mode, and every value
    of its result is, for a country code whose label is the entry's key,
    the sum of share times weight divided by the total weight of exactly
    the records that supplied non-empty country data, rounded to two
    decimals. Records A (revenue 100, us 50) and B (revenue 300, us 70)
    weighted by revenue give 65 for us. *)
Theorem country_rollup_weighted_mean (games : list Game.t)
  (weight_by : string) :
  (forall g,
     country_weight "revenue" g = get_or (Game.revenue g) 1 /\
     country_weight "sales" g = get_or (Game.copiesSold g) 1 /\
     country_weight "equal" g = 1) /\
  (exists out,
     get_country_aggregate games weight_by = Returned out /\
     forall label pct, In (label, pct) out ->
       exists code,
         label = country_label code /\
         In code (keys (country_events weight_by games)) /\
         pct = round (sum (select code (country_events weight_by games))
                      / total_country_weight weight_by games) 2) /\
  (exists out pct,
     get_country_aggregate us_games "revenue" = Returned out /\
     get out (country_label "us") = Some pct /\ pct == 65).
Proof.
  split; [intros g; repeat split|]. split.
  - unfold get_country_aggregate. rewrite country_loop.
    fold (sum (map (country_weight weight_by)
                 (filter supplies_country_data games))).
    fold (total_country_weight weight_by games).
    set (tw := total_country_weight weight_by games).
    set (events := country_events weight_by games).
    set (weighted := accumulate Qplus 0 [] events).
    destruct (Qeq_bool tw 0) eqn:Etw.
    { exists []. split; [reflexivity|]. simpl. tauto. }
    assert (Hnd : NoDup (keys weighted))
      by (apply NoDup_keys_accumulate; constructor).
    set (ordered := sorted (fun x y => Qle_bool (snd y) (snd x)) weighted).
    rewrite (for_each_ext _
      (fun result '(code, val) =>
         r <- (q <- div val tw ;; Returned (round q 2)) ;;
         Returned (set result code r))).
    2:{ intros st [code val]. destruct (div val tw); reflexivity. }
    destruct (keyed_rows (fun val => q <- div val tw ;; Returned (round q 2))
                ordered) as (res & Hres & HF).
    { eapply Permutation_NoDup; [|exact Hnd].
      apply Permutation_map. symmetry. apply sorted_perm. }
    { intros code val _. unfold div. rewrite Etw. simpl. eauto. }
    rewrite Hres. cbn [bind]. eexists. split; [reflexivity|].
    intros label pct Hin.
    rewrite (fold_left_pointwise _
      (fun named (x : string * Q) => set named (country_label (fst x)) (snd x)))
      in Hin by (now intros a [code pct0]).
    apply (In_fold_set (fun x : string * Q => country_label (fst x)) snd)
      in Hin.
    destruct Hin as [[]|([code pct'] & Hin & -> & ->)].
    simpl. exists code. split; [reflexivity|].
    apply In_firstn in Hin.
    destruct (Forall2_In_r _ _ _ _ HF Hin) as ([code' val] & Hv & Ec & Hq).
    simpl in Ec, Hq. subst code'. unfold div in Hq. rewrite Etw in Hq.
    simpl in Hq. injection Hq as <-.
    apply In_sorted in Hv.
    assert (Hk : In code (keys events)).
    { apply (in_map fst) in Hv. apply In_keys_accumulate in Hv as [[]|Hv].
      exact Hv. }
    split; [exact Hk|].
    apply In_get in Hv; [|exact Hnd]. unfold weighted in Hv.
    rewrite get_accumulate in Hv. simpl in Hv.
    destruct (select code events) eqn:Es; [discriminate|].
    injection Hv as <-. reflexivity.
  - eexists. eexists. split; [vm_compute; reflexivity|].
    split; reflexivity.
Qed.

(** The claim as written gives the quotient itself. A share of 33.333
    from a single record comes out as 33.33. *)
Lemma country_rollup_rounds :
  exists out pct,
    get_country_aggregate us_third "revenue" = Returned out /\
    get out (country_label "us") = Some pct /\
    pct == 3333 # 100 /\
    ~ pct == sum (select "us"%string (country_events "revenue" us_third))
             / total_country_weight "revenue" us_third.
Proof.
  eexists. eexists. split; [vm_compute; reflexivity|].
  split; [reflexivity|]. split; [reflexivity|]. vm_compute. discriminate.
Qed.

(* ================================================================== *)
(** ** Activity summary *)

Lemma _stats_spec (vals : list Q) :
  exists stats, _stats vals = Returned stats /\ stats_over (positive vals) stats.
Proof.
  unfold _stats, positive. rewrite filter_truthy_positive.
  destruct (filter (fun v => gtb v 0) vals) as [|v pos] eqn:E.
  - eexists. split; [reflexivity|]. simpl. auto.
  - rewrite div_len_cons. cbn [bind].
    destruct (index_in_range (sorted Qle_bool (v :: pos))
                (List.length (sorted Qle_bool (v :: pos)) / 2)) as (m & Hm & Hnth).
    { apply Nat.div_lt; [rewrite length_sorted; simpl|]; lia. }
    rewrite Hm. cbn [bind]. eexists. split; [reflexivity|].
    unfold stats_over. split; [|repeat split].
    + intros E0. apply Qeq_bool_iff in E0. now rewrite len_cons_nonzero in E0.
    + exists m. split; [reflexivity|]. now rewrite <- (length_sorted Qle_bool).
Qed.

Lemma NoDup_activity_metrics : NoDup (keys activity_metrics).
Proof.
  simpl. repeat (constructor; [simpl; intuition discriminate|]). constructor.
Qed.

(** C8, as the code has it. [get_activity_summary] returns for every
    collection. For an empty collection it returns the empty mapping. For
    a non-empty one it returns an entry for each metric of its list, in
    order, holding avg, max, median, total and count over the values
    greater than 0 only (the count, the divisor of avg, is then not 0),
    and avg, max, median and total equal to 0 when the metric has no value
    greater than 0. For ccu values 0, 0, 100, 300 the entry has avg 200,
    max 300, median 300, total 400 and count 2. *)
Theorem activity_summary_over_positive_values (games : list Game.t) :
  (exists summary,
     get_activity_summary games = Returned summary /\
     (games = [] -> summary = []) /\
     (games <> [] ->
        keys summary = keys activity_metrics /\
        forall key field, In (key, field) activity_metrics ->
          exists stats,
            get summary key = Some stats /\
            stats_over (positive (map (fun g => get_or (field g) 0) games))
              stats)) /\
  (exists summary stats avg,
     get_activity_summary ccu_games = Returned summary /\
     get summary "players_ccu"%string = Some stats /\
     get stats "avg"%string = Some avg /\ avg == 200 /\
     get stats "max"%string = Some 300 /\
     get stats "median"%string = Some 300 /\
     get stats "total"%string = Some 400 /\
     get stats "count"%string = Some 2).
Proof.
  split.
  - destruct games as [|g games].
    { exists []. repeat split; congruence. }
    set (gs := g :: games). unfold get_activity_summary. fold gs.
    destruct (map_each_Forall2
      (fun '(key, field) =>
         stats <- _stats (map (fun g => get_or (field g) 0) gs) ;;
         Returned (key, stats))
      (fun (m : string * (Game.t -> option Q)) (e : string * dict string Q) =>
         fst e = fst m /\
         stats_over (positive (map (fun g => get_or (snd m g) 0) gs)) (snd e))
      activity_metrics) as (summary & Hsum & HF).
    { intros [key field] _.
      destruct (_stats_spec (map (fun g => get_or (field g) 0) gs))
        as (stats & -> & Hstats).
      simpl. eauto. }
    exists summary. split; [exact Hsum|]. split; [discriminate|]. intros _.
    assert (Hkeys : keys summary = keys activity_metrics).
    { clear Hsum. unfold keys. induction HF as [|m e ? ? [E _] _ IH]; simpl;
        [reflexivity|]. now rewrite E, IH. }
    split; [exact Hkeys|]. intros key field Hin.
    destruct (Forall2_In_l _ _ _ _ HF Hin) as ([key' stats] & He & Ek & Hs).
    simpl in Ek, Hs. subst key'. exists stats. split; [|exact Hs].
    apply In_get; [|exact He]. rewrite Hkeys. apply NoDup_activity_metrics.
  - eexists. eexists. eexists.
    split; [vm_compute; reflexivity|].
    split; [vm_compute; reflexivity|].
    split; [vm_compute; reflexivity|].
    repeat split; reflexivity.
Qed.

(** The claim as written fails on two inputs: an empty collection gives
    no entry at all, and a metric without a value greater than 0 gets a
    mapping that has no "count". *)
Lemma activity_summary_without_count :
  get_activity_summary [] = Returned [] /\
  (summary <- get_activity_summary [blank_game] ;;
   stats <- subscript summary "players_ccu"%string ;;
   Returned (stats, get stats "count"%string))
  = Returned
      ([("avg", 0); ("max", 0); ("median", 0); ("total", 0)]%string, None).
Proof. split; reflexivity. Qed.

(* ================================================================== *)
(** ** Overlap ranker *)

(** The two dictionaries of the first loop are accumulations of the
    surviving edges: the count of each target, and its edges in order. *)
Lemma overlap_loop (aos : list Overlap.t) :
  forall (overlap_count : dict (option Z) Z)
         (overlap_data : dict (option Z) (list Edge.t)),
    fold_left overlap_add aos (overlap_count, overlap_data) =
    (accumulate (fun c (_ : Edge.t) => (c + 1)%Z) 0%Z overlap_count
       (surviving aos),
     accumulate (fun items e => items ++ [e]) [] overlap_data (surviving aos)).
Proof.
  unfold surviving.
  induction aos as [|ao aos IH]; intros oc od; [reflexivity|].
  cbn [fold_left flat_map]. rewrite !accumulate_app.
  unfold overlap_add at 2.
  destruct (gtb (get_or (Overlap.link ao) 0) (5 # 100)); apply IH.
Qed.

(** What a row says of the edges of its target. *)
Lemma reach_row_spec (games : list Game.t) (sid : option Z) (cnt : Z) :
  let events := surviving_edges games in
  let edges := select sid events in
  In sid (keys events) ->
  exists r,
    reach_row (Z.of_nat (List.length games))
      (accumulate (fun items e => items ++ [e]) [] [] events) (sid, cnt)
      = Returned r /\
    Reach.steamId r = sid /\
    Reach.reach_score r
      = sum (map Edge.link edges) / len edges * Reach.copies_sold r /\
    Reach.copies_sold r = max_default (map Edge.copiesSold edges) 0 /\
    Reach.revenue r = max_default (map Edge.revenue edges) 0 /\
    Reach.ccu r = max_default (map Edge.ccu edges) 0.
Proof.
  intros events edges Hsid. unfold reach_row.
  rewrite get_accumulate. cbn [get]. fold edges.
  assert (Hne : edges <> []) by now apply select_nonempty.
  destruct edges as [|e es] eqn:Eedges; [congruence|].
  rewrite fold_snoc. cbn [app]. rewrite div_len_cons. cbn [bind].
  assert (Hpct : exists pct,
    (if (Z.of_nat (List.length games) >? 0)%Z
     then q <- div (inject_Z cnt) (inject_Z (Z.of_nat (List.length games))) ;;
          Returned (round (q * 100) 1)
     else Returned 0) = Returned pct).
  { destruct (Z.of_nat (List.length games) >? 0)%Z eqn:Eg; [|eauto].
    rewrite div_inject_Z by lia. cbn [bind]. eauto. }
  destruct Hpct as (pct & ->). cbn [bind index nth_error].
  eexists. split; [reflexivity|]. cbn. repeat split.
Qed.

(** What [get_audience_overlap_top] returns, for every collection, limit
    and sort key. *)
Lemma get_audience_overlap_top_spec (games : list Game.t) (top_n : Z)
  (sort_by : string) :
  exists ranking,
    get_audience_overlap_top games top_n sort_by = Returned ranking /\
    forall r, In r ranking ->
      let edges := select (Reach.steamId r) (surviving_edges games) in
      edges <> [] /\
      Reach.reach_score r
        = sum (map Edge.link edges) / len edges * Reach.copies_sold r /\
      is_maximum (Reach.copies_sold r) (map Edge.copiesSold edges) /\
      is_maximum (Reach.revenue r) (map Edge.revenue edges) /\
      is_maximum (Reach.ccu r) (map Edge.ccu edges).
Proof.
  unfold get_audience_overlap_top.
  rewrite fold_left_flat_map, overlap_loop.
  fold (surviving_edges games).
  set (events := surviving_edges games).
  set (overlap_count :=
         accumulate (fun c (_ : Edge.t) => (c + 1)%Z) 0%Z [] events).
  set (overlap_data := accumulate (fun items e => items ++ [e]) [] [] events).
  destruct (map_each_Forall2
    (reach_row (Z.of_nat (List.length games)) overlap_data)
    (fun (entry : option Z * Z) r =>
       let edges := select (Reach.steamId r) events in
       edges <> [] /\
       Reach.reach_score r
         = sum (map Edge.link edges) / len edges * Reach.copies_sold r /\
       is_maximum (Reach.copies_sold r) (map Edge.copiesSold edges) /\
       is_maximum (Reach.revenue r) (map Edge.revenue edges) /\
       is_maximum (Reach.ccu r) (map Edge.ccu edges))
    (most_common overlap_count (top_n * 2))) as (result & Hresult & HF).
  { intros [sid cnt] Hin. unfold most_common in Hin.
    apply In_firstn, In_sorted in Hin.
    assert (Hsid : In sid (keys events)).
    { apply (in_map fst) in Hin. apply In_keys_accumulate in Hin as [[]|Hin].
      exact Hin. }
    destruct (reach_row_spec games sid cnt Hsid)
      as (r & Hr & Es & Hreach & Hc & Hrev & Hccu).
    exists r. split; [exact Hr|]. cbn zeta. rewrite Es.
    assert (Hne : select sid events <> []) by now apply select_nonempty.
    assert (Hmap : forall f : Edge.t -> Q, map f (select sid events) <> []).
    { intros f E0. apply map_eq_nil in E0. contradiction. }
    split; [exact Hne|]. split; [exact Hreach|].
    rewrite Hc, Hrev, Hccu.
    repeat split; apply max_default_is_maximum; apply Hmap. }
  rewrite Hresult. cbn [bind].
  change (subscript sort_keys "reach_score"%string)
    with (Returned (A:=Reach.t -> Q) Reach.reach_score).
  cbn [bind]. eexists. split; [reflexivity|].
  intros r Hin.
  assert (Hr : In r result).
  { unfold slice_to in Hin.
    destruct (top_n <? 0)%Z; apply In_firstn, In_sorted in Hin; exact Hin. }
  destruct (Forall2_In_r _ _ _ _ HF Hr) as (entry & _ & Hspec).
  exact Hspec.
Qed.

(** C7, as the code has it. [get_audience_overlap_top] returns for every
    collection, limit and sort key. For every target in its output, with
    [edges] the surviving edges that refer to the target (every listing
    counted, whatever its source), there is such an edge, reachScore is
    the arithmetic mean of their link strengths times the reported
    copiesSold, and the reported copiesSold, revenue and ccu are maxima of
    the values of the edges. For links 0.2 and 0.4 and copies sold of at
    most 2,000,000 the reachScore is [(0 + 0.2 + 0.4) / 2 * 2000000],
    which in the binary floating point of the code is
    600000.0000000001. *)
Theorem reach_score_is_mean_link_times_max_copies (games : list Game.t)
  (top_n : Z) (sort_by : string) :
  (exists ranking,
     get_audience_overlap_top games top_n sort_by = Returned ranking /\
     forall r, In r ranking ->
       let edges := select (Reach.steamId r) (surviving_edges games) in
       edges <> [] /\
       Reach.reach_score r
         = sum (map Edge.link edges) / len edges * Reach.copies_sold r /\
       is_maximum (Reach.copies_sold r) (map Edge.copiesSold edges) /\
       is_maximum (Reach.revenue r) (map Edge.revenue edges) /\
       is_maximum (Reach.ccu r) (map Edge.ccu edges)) /\
  (exists r,
     get_audience_overlap_top overlap_games 30 "reach_score" = Returned [r] /\
     Reach.copies_sold r = 2000000 /\
     Reach.reach_score r = (0 + (2 # 10) + (4 # 10)) / 2 * 2000000) /\
  Binary64.reach_score (select (Some 7%Z) (surviving_edges overlap_games))
  = 600000.0000000001%float.
Proof.
  split; [|split].
  - apply get_audience_overlap_top_spec.
  - eexists. split; [vm_compute; reflexivity|]. split; reflexivity.
  - vm_compute. reflexivity.
Qed.

(** The claim as written gives 600,000 for the example. That is the
    value in exact arithmetic; the code computes in binary floating
    point, where the sum of 0.2 and 0.4 is 0.6000000000000001, and its
    reachScore for the two edges of the example is 600000.0000000001,
    which is not equal to 600000. *)
Lemma reach_score_of_the_example_is_not_600000 :
  let edges := select (Some 7%Z) (surviving_edges overlap_games) in
  map Edge.link edges = [2 # 10; 4 # 10] /\
  map Edge.copiesSold edges = [1500000; 2000000] /\
  Binary64.sum (map (fun x => Binary64.of_Q (Edge.link x)) edges)
    = 0.6000000000000001%float /\
  Binary64.reach_score edges = 600000.0000000001%float /\
  PrimFloat.eqb (Binary64.reach_score edges) 600000%float = false.
Proof. vm_compute. repeat split. Qed.

(* ================================================================== *)
(** ** Sort keys and granularities outside the documented ones *)

Lemma get_audience_overlap_top_unknown_key (games : list Game.t) (top_n : Z)
  (sort_by : string) :
  get sort_keys sort_by = None ->
  get_audience_overlap_top games top_n sort_by
  = get_audience_overlap_top games top_n "reach_score".
Proof.
  intros Hnone. unfold get_audience_overlap_top. rewrite Hnone.
  destruct (fold_left
              (fun st g => fold_left overlap_add (Game.audienceOverlap g) st)
              games ([], [])) as [overlap_count overlap_data].
  destruct (map_each _ _) as [result|e]; reflexivity.
Qed.

Section Granularity.
Variable fromtimestamp : Z -> option datetime.

Lemma period_of_not_yearly (freq : string) (dt : datetime) :
  String.eqb freq "yearly" = false ->
  period_of freq dt = period_of "monthly" dt.
Proof. intros Hf. unfold period_of. now rewrite Hf. Qed.

Lemma collect_within_not_yearly (freq : string) (year_min year_max : Z)
  (history : list Snapshot.t) :
  String.eqb freq "yearly" = false ->
  collect_within fromtimestamp freq year_min year_max history
  = collect_within fromtimestamp "monthly" year_min year_max history.
Proof.
  intros Hf. unfold collect_within.
  apply fold_left_pointwise. intros by_period item.
  destruct (snapshot_datetime fromtimestamp item); [|reflexivity].
  now rewrite (period_of_not_yearly freq).
Qed.

Lemma get_history_aggregate_not_yearly (games : list Game.t) (freq : string)
  (year_min year_max : Z) :
  String.eqb freq "yearly" = false ->
  get_history_aggregate fromtimestamp games freq year_min year_max
  = get_history_aggregate fromtimestamp games "monthly" year_min year_max.
Proof.
  intros Hf. unfold get_history_aggregate. rewrite !aggregate_loop.
  replace (aggregate_events fromtimestamp freq year_min year_max games)
    with (aggregate_events fromtimestamp "monthly" year_min year_max games);
    [reflexivity|].
  unfold aggregate_events, period_events, winners.
  induction games as [|g games IH]; simpl; [reflexivity|].
  now rewrite IH, (collect_within_not_yearly freq).
Qed.

(** C4, as the code has it. Neither call raises on a selector outside
    the documented ones: both return, a sort key that is not a key of
    [sort_keys] giving what "reach_score" gives, and a granularity other
    than "yearly" giving what "monthly" gives. *)
Theorem unknown_selectors_fall_back (games : list Game.t) (top_n : Z)
  (sort_by freq : string) (year_min year_max : Z) :
  get sort_keys sort_by = None ->
  String.eqb freq "yearly" = false ->
  (exists ranking,
     get_audience_overlap_top games top_n sort_by = Returned ranking /\
     get_audience_overlap_top games top_n "reach_score" = Returned ranking) /\
  (exists agg,
     get_history_aggregate fromtimestamp games freq year_min year_max
       = Returned agg /\
     get_history_aggregate fromtimestamp games "monthly" year_min year_max
       = Returned agg).
Proof.
  intros Hkey Hfreq. split.
  - destruct (get_audience_overlap_top_spec games top_n sort_by)
      as (ranking & Hranking & _).
    exists ranking. split; [exact Hranking|].
    now rewrite <- (get_audience_overlap_top_unknown_key _ _ _ Hkey).
  - destruct (get_history_aggregate_spec fromtimestamp freq year_min year_max
                games) as (agg & Hagg & _).
    exists agg. split; [exact Hagg|].
    now rewrite <- (get_history_aggregate_not_yearly _ _ _ _ Hfreq).
Qed.

End Granularity.

Lemma unknown_selectors_fall_back_witness :
  (get sort_keys "popularity"%string = None /\
   String.eqb "weekly" "yearly" = false) /\
  (exists ranking,
     get_audience_overlap_top (game_2020 :: overlap_games) 30 "popularity"
       = Returned ranking /\
     get_audience_overlap_top (game_2020 :: overlap_games) 30 "reach_score"
       = Returned ranking) /\
  (exists agg,
     get_history_aggregate utc_fromtimestamp (game_2020 :: overlap_games)
       "weekly" 2015 2026 = Returned agg /\
     get_history_aggregate utc_fromtimestamp (game_2020 :: overlap_games)
       "monthly" 2015 2026 = Returned agg).
Proof.
  split; [split; reflexivity|].
  apply (unknown_selectors_fall_back utc_fromtimestamp
           (game_2020 :: overlap_games) 30 "popularity" "weekly" 2015 2026);
    reflexivity.
Defined.

(** The claim as written has the two calls fail. With the sort key
    "popularity" the ranker returns the ranking by reach score, and with
    the granularity "weekly" the aggregator returns the monthly one. *)
Lemma unknown_selectors_do_not_raise :
  get sort_keys "popularity"%string = None /\
  (exists r,
     get_audience_overlap_top overlap_games 30 "popularity" = Returned [r]) /\
  "weekly"%string <> "yearly"%string /\ "weekly"%string <> "monthly"%string /\
  (exists january june,
     get_history_aggregate utc_fromtimestamp [game_2020] "weekly" 2015 2026
     = Returned [(PMonth "2020-01", january); (PMonth "2020-06", june)]).
Proof.
  split; [reflexivity|]. split; [eexists; vm_compute; reflexivity|].
  split; [discriminate|]. split; [discriminate|].
  eexists. eexists. vm_compute. reflexivity.
Qed.

(* ================================================================== *)
(** * Further properties *)

(* ================================================================== *)
(** ** The increment calculators *)

Lemma last_cons {A} (x d : A) (l : list A) : last (x :: l) d = last l x.
Proof.
  revert x d. induction l as [|y l IH]; intros x d; [reflexivity|].
  change (last (x :: y :: l) d) with (last (y :: l) d).
  now rewrite (IH y d), (IH y x).
Qed.

Lemma max2_zero_nonneg_eq (x : Q) : 0 <= x -> max2 0 x == x.
Proof.
  intros Hx. unfold max2. destruct (gtb x 0) eqn:E; [reflexivity|].
  apply gtb_false in E. lra.
Qed.

Lemma sales_add_up (out : list (Z * Increment.t)) :
  forall ps pr acc,
    tracks_baseline ps pr out ->
    rises_from ps (map (fun e => Increment.cumulative_sales (snd e)) out) ->
    fold_left Qplus (map (fun e => Increment.sales (snd e)) out) acc
    == acc + last (map (fun e => Increment.cumulative_sales (snd e)) out) ps
       - ps.
Proof.
  induction out as [|[yr e] out IH]; intros ps pr acc Htr Hr; simpl map.
  - simpl. lra.
  - destruct Htr as (Hs & _ & Htr). destruct Hr as [Hle Hr].
    cbn [fold_left]. rewrite last_cons. simpl snd in *.
    pose proof (IH _ _ (acc + Increment.sales e) Htr Hr) as H1.
    pose proof (max2_zero_nonneg_eq (Increment.cumulative_sales e - ps)) as H2.
    rewrite <- Hs in H2. lra.
Qed.

Lemma revenue_add_up (out : list (Z * Increment.t)) :
  forall ps pr acc,
    tracks_baseline ps pr out ->
    rises_from pr (map (fun e => Increment.cumulative_revenue (snd e)) out) ->
    fold_left Qplus (map (fun e => Increment.revenue (snd e)) out) acc
    == acc + last (map (fun e => Increment.cumulative_revenue (snd e)) out) pr
       - pr.
Proof.
  induction out as [|[yr e] out IH]; intros ps pr acc Htr Hr; simpl map.
  - simpl. lra.
  - destruct Htr as (_ & Hs & Htr). destruct Hr as [Hle Hr].
    cbn [fold_left]. rewrite last_cons. simpl snd in *.
    pose proof (IH _ _ (acc + Increment.revenue e) Htr Hr) as H1.
    pose proof (max2_zero_nonneg_eq (Increment.cumulative_revenue e - pr))
      as H2.
    rewrite <- Hs in H2. lra.
Qed.

Section IncrementFacts.
Variable fromtimestamp : Z -> option datetime.

(** X1. When the cumulative sales and revenue of the years are whole
    numbers, which the arithmetic of the code is exact on, and never go
    down, the yearly increments add up to the last cumulative value. *)
Theorem yearly_increments_add_up (history : list Snapshot.t)
  (out : list (Z * Increment.t)) :
  _get_yearly_increments fromtimestamp history = Returned out ->
  forallb whole (map (fun e => Increment.cumulative_sales (snd e)) out)
    = true ->
  forallb whole (map (fun e => Increment.cumulative_revenue (snd e)) out)
    = true ->
  rises_from 0 (map (fun e => Increment.cumulative_sales (snd e)) out) ->
  rises_from 0 (map (fun e => Increment.cumulative_revenue (snd e)) out) ->
  sum (map (fun e => Increment.sales (snd e)) out)
    == last (map (fun e => Increment.cumulative_sales (snd e)) out) 0 /\
  sum (map (fun e => Increment.revenue (snd e)) out)
    == last (map (fun e => Increment.cumulative_revenue (snd e)) out) 0.
Proof.
  intros Hout _ _ Hs Hr. rewrite _get_yearly_increments_by_key in Hout.
  injection Hout as <-. unfold sum. split.
  - rewrite (sales_add_up _ 0 0 0); [lra | apply tracks_baseline_walk | exact Hs].
  - rewrite (revenue_add_up _ 0 0 0); [lra | apply tracks_baseline_walk | exact Hr].
Qed.

End IncrementFacts.

Lemma yearly_increments_add_up_witness :
  exists out,
    (_get_yearly_increments utc_fromtimestamp growing_history = Returned out /\
     forallb whole (map (fun e => Increment.cumulative_sales (snd e)) out)
       = true /\
     forallb whole (map (fun e => Increment.cumulative_revenue (snd e)) out)
       = true /\
     rises_from 0 (map (fun e => Increment.cumulative_sales (snd e)) out) /\
     rises_from 0 (map (fun e => Increment.cumulative_revenue (snd e)) out)) /\
    sum (map (fun e => Increment.sales (snd e)) out) == 180 /\
    sum (map (fun e => Increment.revenue (snd e)) out) == 1800.
Proof.
  set (out := walk yearly_row
                (by_key Z.leb
                   (collect_by_year utc_fromtimestamp growing_history)) 0 0).
  exists out.
  assert (H1 : _get_yearly_increments utc_fromtimestamp growing_history
               = Returned out)
    by apply _get_yearly_increments_by_key.
  assert (W2 : forallb whole
                 (map (fun e => Increment.cumulative_sales (snd e)) out)
               = true)
    by (vm_compute; reflexivity).
  assert (W3 : forallb whole
                 (map (fun e => Increment.cumulative_revenue (snd e)) out)
               = true)
    by (vm_compute; reflexivity).
  assert (H2 : rises_from 0
                 (map (fun e => Increment.cumulative_sales (snd e)) out))
    by (vm_compute; repeat split; intros H; discriminate H).
  assert (H3 : rises_from 0
                 (map (fun e => Increment.cumulative_revenue (snd e)) out))
    by (vm_compute; repeat split; intros H; discriminate H).
  split; [exact (conj H1 (conj W2 (conj W3 (conj H2 H3))))|].
  exact (yearly_increments_add_up utc_fromtimestamp growing_history out
           H1 W2 W3 H2 H3).
Defined.

Lemma fold_left_skip_all {S X} (f : S -> X -> S) (l : list X) :
  (forall a x, In x l -> f a x = a) ->
  forall a, fold_left f l a = a.
Proof.
  induction l as [|x l IH]; intros Hskip a; simpl; [reflexivity|].
  rewrite (Hskip a x) by now left.
  apply IH. intros a' x' Hx'. apply Hskip. now right.
Qed.

Section UndatedHistories.
Variable fromtimestamp : Z -> option datetime.

Lemma collect_by_year_undated (history : list Snapshot.t) :
  (forall item, In item history ->
     snapshot_datetime fromtimestamp item = None) ->
  collect_by_year fromtimestamp history = [].
Proof.
  intros Hno. unfold collect_by_year. apply fold_left_skip_all.
  intros a item Hin. now rewrite (Hno item Hin).
Qed.

Lemma collect_by_period_undated (freq : string) (history : list Snapshot.t) :
  (forall item, In item history ->
     snapshot_datetime fromtimestamp item = None) ->
  collect_by_period fromtimestamp freq history = [].
Proof.
  intros Hno. unfold collect_by_period. apply fold_left_skip_all.
  intros a item Hin. now rewrite (Hno item Hin).
Qed.

Lemma collect_within_undated (freq : string) (year_min year_max : Z)
  (history : list Snapshot.t) :
  (forall item, In item history ->
     snapshot_datetime fromtimestamp item = None) ->
  collect_within fromtimestamp freq year_min year_max history = [].
Proof.
  intros Hno. unfold collect_within. apply fold_left_skip_all.
  intros a item Hin. now rewrite (Hno item Hin).
Qed.

(** X2. Games none of whose snapshots has a usable time stamp (none, 0,
    or one the conversion rejects) give empty results: no yearly row, no
    period row, no trend and no aggregate. *)
Theorem undated_histories_give_nothing (games : list Game.t)
  (freq : string) (year_min year_max : Z) :
  (forall g item, In g games -> In item (Game.history g) ->
     snapshot_datetime fromtimestamp item = None) ->
  (forall g, In g games ->
     _get_yearly_increments fromtimestamp (Game.history g) = Returned [] /\
     get_history_for_game fromtimestamp g freq = Returned []) /\
  get_yearly_trends fromtimestamp games = Returned [] /\
  get_history_aggregate fromtimestamp games freq year_min year_max
    = Returned [].
Proof.
  intros Hno.
  assert (Hyearly : forall g, In g games ->
    _get_yearly_increments fromtimestamp (Game.history g) = Returned []).
  { intros g Hg. rewrite _get_yearly_increments_by_key.
    rewrite collect_by_year_undated by (intros; eapply Hno; eauto).
    reflexivity. }
  split; [|split].
  - intros g Hg. split; [now apply Hyearly|].
    rewrite get_history_for_game_by_key.
    rewrite collect_by_period_undated; [reflexivity|].
    intros item Hin. apply In_sorted in Hin. eapply Hno; eauto.
  - unfold get_yearly_trends. rewrite trends_loop.
    replace (trend_events fromtimestamp games) with (@nil (Z * Increment.t));
      [reflexivity|].
    unfold trend_events. clear Hno.
    induction games as [|g games IH]; simpl; [reflexivity|].
    unfold yearly_increments_of at 1.
    rewrite Hyearly by now left. simpl.
    apply IH. intros g' Hg'. apply Hyearly. now right.
  - unfold get_history_aggregate. rewrite aggregate_loop.
    replace (aggregate_events fromtimestamp freq year_min year_max games)
      with (@nil (period * (Snapshot.t * Q * Q))); [reflexivity|].
    unfold aggregate_events. clear Hyearly.
    induction games as [|g games IH]; simpl; [reflexivity|].
    unfold period_events at 1, winners.
    rewrite collect_within_undated.
    + simpl. apply IH. intros g' item Hg'. apply Hno. now right.
    + intros item Hin. apply In_sorted in Hin. apply (Hno g); auto. now left.
Qed.

End UndatedHistories.

Lemma undated_histories_give_nothing_witness :
  (forall g item, In g [game_with_history undated_history] ->
     In item (Game.history g) ->
     snapshot_datetime utc_fromtimestamp item = None) /\
  (forall g, In g [game_with_history undated_history] ->
     _get_yearly_increments utc_fromtimestamp (Game.history g) = Returned [] /\
     get_history_for_game utc_fromtimestamp g "monthly" = Returned []) /\
  get_yearly_trends utc_fromtimestamp [game_with_history undated_history]
    = Returned [] /\
  get_history_aggregate utc_fromtimestamp [game_with_history undated_history]
    "monthly" 2015 2026 = Returned [].
Proof.
  assert (H : forall g item, In g [game_with_history undated_history] ->
     In item (Game.history g) ->
     snapshot_datetime utc_fromtimestamp item = None).
  { intros g item [<-|[]]. simpl. intros [<-|[<-|[]]]; reflexivity. }
  split; [exact H|].
  apply (undated_histories_give_nothing utc_fromtimestamp
           [game_with_history undated_history] "monthly" 2015 2026 H).
Defined.


Lemma get_history_for_game_older_snapshot_witness :
  get_history_for_game utc_fromtimestamp
    (game_with_history [mid_january_2020; mid_june_2020]) "yearly"
  = get_history_for_game utc_fromtimestamp
      (game_with_history [mid_june_2020]) "yearly".
Proof.
  apply (get_history_for_game_older_snapshot utc_fromtimestamp "yearly"
           (game_with_history [mid_june_2020])
           (game_with_history [mid_january_2020; mid_june_2020])
           mid_january_2020 mid_june_2020
           {| year := 2020; month := 1 |} {| year := 2020; month := 6 |}).
  - reflexivity.
  - reflexivity.
  - simpl. now left.
  - reflexivity.
  - reflexivity.
  - reflexivity.
Defined.

Lemma get_history_for_game_reordered_witness :
  get_history_for_game utc_fromtimestamp
    (game_with_history [mid_january_2020; mid_june_2020]) "monthly"
  = get_history_for_game utc_fromtimestamp
      (game_with_history [mid_june_2020; mid_january_2020]) "monthly".
Proof.
  apply (get_history_for_game_reordered utc_fromtimestamp "monthly"
           (game_with_history [mid_january_2020; mid_june_2020])
           (game_with_history [mid_june_2020; mid_january_2020])).
  - simpl. apply perm_swap.
  - simpl. intros x y [<-|[<-|[]]] [<-|[<-|[]]]; simpl; intros H;
      first [reflexivity | discriminate H].
Defined.


(* ------------------------------------------------------------------ *)
(** *** The two calculators on a history in time order *)

Lemma set_as_period {V} (d : dict Z V) (k : Z) (v : V) :
  set (map as_period d) (PYear k) v = map as_period (set d k v).
Proof.
  induction d as [|[k' v'] d IH]; simpl; [reflexivity|].
  destruct (k =? k')%Z; simpl; [reflexivity|]. now rewrite IH.
Qed.

Lemma by_key_as_period {V} (d : dict Z V) :
  by_key period_leb (map as_period d) = map as_period (by_key Z.leb d).
Proof.
  unfold by_key.
  rewrite <- (map_sorted as_period
                (fun x y : period * V => period_leb (fst x) (fst y))).
  f_equal.
Qed.

Lemma walk_as_period (items : list (Z * Snapshot.t)) :
  forall ps pr,
    Forall2 same_row (walk yearly_row items ps pr)
      (walk period_row (map as_period items) ps pr).
Proof.
  induction items as [|[k item] items IH]; intros ps pr; simpl;
    constructor; [|apply IH].
  unfold same_row. simpl. repeat split; reflexivity.
Qed.

Section OrderedHistory.
Variable fromtimestamp : Z -> option datetime.

Lemma collect_yearly_as_period (history : list Snapshot.t) :
  collect_by_period fromtimestamp "yearly" history
  = map as_period (collect_by_year fromtimestamp history).
Proof.
  unfold collect_by_period, collect_by_year.
  change (@nil (period * Snapshot.t))
    with (map (@as_period Snapshot.t) []).
  generalize (@nil (Z * Snapshot.t)) as acc.
  induction history as [|item history IH]; intros acc; simpl; [reflexivity|].
  destruct (snapshot_datetime fromtimestamp item) as [dt|]; [|apply IH].
  change (period_of "yearly" dt) with (PYear (year dt)).
  rewrite set_as_period. apply IH.
Qed.

(** X5. On a history that is already in the order of its time stamps,
    [_get_yearly_increments] and [get_history_for_game] with
    [freq = "yearly"] give the same years with the same increments,
    cumulative values and score, in the same order. *)
Theorem yearly_rows_agree_on_ordered_history (game : Game.t) :
  sorted by_timeStamp (Game.history game) = Game.history game ->
  exists yearly rows,
    _get_yearly_increments fromtimestamp (Game.history game)
      = Returned yearly /\
    get_history_for_game fromtimestamp game "yearly" = Returned rows /\
    Forall2 same_row yearly rows.
Proof.
  intros Hordered.
  eexists. eexists. split; [apply _get_yearly_increments_by_key|].
  split.
  - rewrite get_history_for_game_by_key, Hordered. reflexivity.
  - rewrite collect_yearly_as_period, by_key_as_period.
    apply walk_as_period.
Qed.

End OrderedHistory.

Lemma yearly_rows_agree_on_ordered_history_witness :
  sorted by_timeStamp (Game.history (game_with_history growing_history))
    = Game.history (game_with_history growing_history) /\
  exists yearly rows,
    _get_yearly_increments utc_fromtimestamp
      (Game.history (game_with_history growing_history)) = Returned yearly /\
    get_history_for_game utc_fromtimestamp
      (game_with_history growing_history) "yearly" = Returned rows /\
    Forall2 same_row yearly rows.
Proof.
  split; [reflexivity|].
  apply (yearly_rows_agree_on_ordered_history utc_fromtimestamp
           (game_with_history growing_history)).
  reflexivity.
Defined.


(* ------------------------------------------------------------------ *)
(** *** The order of the rollups *)

Lemma sorted_strictly {A} (le : A -> A -> bool) (l : list A) :
  (forall x y, le x y = true \/ le y x = true) ->
  (forall x y z, le x y = true -> le y z = true -> le x z = true) ->
  NoDup l ->
  StronglySorted (fun a b => le a b = true /\ a <> b) (sorted le l).
Proof.
  intros Htotal Htrans Hnd.
  pose proof (sorted_StronglySorted le Htotal Htrans l) as Hs.
  apply (NoDup_sorted le) in Hnd.
  induction Hs as [|x l' Hs IH Hx]; [constructor|].
  inversion Hnd as [|? ? Hnotin Hnd']; subst.
  constructor; [auto|].
  rewrite Forall_forall in *. intros y Hy. split; [auto|].
  intros ->. contradiction.
Qed.

Section RollupOrder.
Variable fromtimestamp : Z -> option datetime.

Lemma get_yearly_trends_keys (games : list Game.t) :
  exists trends,
    get_yearly_trends fromtimestamp games = Returned trends /\
    keys trends
    = sorted Z.leb
        (keys (accumulate totals_upd Totals.zero []
                 (trend_events fromtimestamp games))).
Proof.
  unfold get_yearly_trends. rewrite trends_loop. cbn [bind].
  destruct (accumulated_rows totals_upd Totals.zero
              (trend_events fromtimestamp games) trend_row
              (sorted (fun x y => Z.leb (fst x) (fst y))))
    as (res & Hres & Hk & _).
  { intros l. apply sorted_perm. }
  { intros es _. destruct (trend_row_spec es) as (row & Hrow & _). eauto. }
  exists res. split; [exact Hres|]. rewrite Hk. apply map_sorted.
Qed.

(** X6. The rollups come out in ascending order of their keys, no key
    twice: the years of [get_yearly_trends] strictly ascending, and the
    periods of [get_history_aggregate] strictly ascending. *)
Theorem rollups_in_ascending_order (games : list Game.t) (freq : string)
  (year_min year_max : Z) :
  exists trends agg,
    get_yearly_trends fromtimestamp games = Returned trends /\
    get_history_aggregate fromtimestamp games freq year_min year_max
      = Returned agg /\
    StronglySorted Z.lt (keys trends) /\
    StronglySorted period_lt (keys agg).
Proof.
  destruct (get_yearly_trends_keys games) as (trends & Htrends & Hkt).
  destruct (get_history_aggregate_spec fromtimestamp freq year_min year_max
              games) as (agg & Hagg & Hka & _).
  exists trends, agg. split; [exact Htrends|]. split; [exact Hagg|]. split.
  - rewrite Hkt. apply sorted_Z_ascending.
    apply NoDup_keys_accumulate. constructor.
  - rewrite Hka. apply sorted_strictly.
    + apply period_leb_total.
    + apply period_leb_trans.
    + apply NoDup_keys_accumulate. constructor.
Qed.

End RollupOrder.


(* ------------------------------------------------------------------ *)
(** *** The totals of [get_yearly_trends] *)

Lemma totals_upd_sums (es : list Increment.t) :
  forall t : Totals.t,
    Totals.sales (fold_left totals_upd es t)
      = fold_left Qplus (map Increment.sales es) (Totals.sales t) /\
    Totals.revenue (fold_left totals_upd es t)
      = fold_left Qplus (map Increment.revenue es) (Totals.revenue t).
Proof.
  induction es as [|e es IH]; intros t; simpl; [split; reflexivity|].
  destruct (IH (totals_upd t e)) as (Hs & Hr). rewrite Hs, Hr. now split.
Qed.

Lemma trend_row_totals (t : Totals.t) (row : Trend.t) :
  trend_row t = Returned row ->
  Trend.sales row = Totals.sales t /\ Trend.revenue row = Totals.revenue t.
Proof.
  unfold trend_row.
  destruct (if (Totals.score_count t >? 0)%Z
            then div (Totals.score_sum t) (inject_Z (Totals.score_count t))
            else Returned 0) as [avg|e]; cbn [bind]; [|discriminate].
  intros E. injection E as <-. now split.
Qed.

Lemma fold_Qplus_nonneg (l : list Q) :
  (forall x, In x l -> 0 <= x) ->
  forall a, 0 <= a -> 0 <= fold_left Qplus l a.
Proof.
  induction l as [|x l IH]; intros Hl a Ha; simpl; [exact Ha|].
  apply IH; [intros; apply Hl; now right|].
  pose proof (Hl x (or_introl eq_refl)). lra.
Qed.

Section TrendTotals.
Variable fromtimestamp : Z -> option datetime.

Lemma trend_events_nonneg (games : list Game.t) (yr : Z) (e : Increment.t) :
  In (yr, e) (trend_events fromtimestamp games) ->
  0 <= Increment.sales e /\ 0 <= Increment.revenue e.
Proof.
  unfold trend_events. rewrite in_flat_map. intros (g & _ & Hin).
  unfold yearly_increments_of in Hin.
  rewrite _get_yearly_increments_by_key in Hin.
  apply In_walk in Hin as (item & ps & pr & _ & ->).
  simpl. split; apply max2_zero_nonneg.
Qed.

(** X7. In [get_yearly_trends], the sales and the revenue of a year are
    the sums of the increments that the games' yearly rows have for that
    year; neither is negative. *)
Theorem trend_totals_are_sums_of_increments (games : list Game.t) :
  exists trends,
    get_yearly_trends fromtimestamp games = Returned trends /\
    forall yr row, In (yr, row) trends ->
      let entries := select yr (trend_events fromtimestamp games) in
      Trend.sales row = sum (map Increment.sales entries) /\
      Trend.revenue row = sum (map Increment.revenue entries) /\
      0 <= Trend.sales row /\ 0 <= Trend.revenue row.
Proof.
  unfold get_yearly_trends. rewrite trends_loop. cbn [bind].
  destruct (accumulated_rows totals_upd Totals.zero
              (trend_events fromtimestamp games) trend_row
              (sorted (fun x y => Z.leb (fst x) (fst y))))
    as (res & Hres & _ & _ & Hrows).
  { intros l. apply sorted_perm. }
  { intros es _. destruct (trend_row_spec es) as (row & Hrow & _). eauto. }
  exists res. split; [exact Hres|].
  intros yr row Hin. cbn zeta.
  set (entries := select yr (trend_events fromtimestamp games)).
  apply Hrows in Hin. fold entries in Hin.
  apply trend_row_totals in Hin as (Hs & Hr).
  destruct (totals_upd_sums entries Totals.zero) as (Hs' & Hr').
  rewrite Hs' in Hs. rewrite Hr' in Hr. simpl in Hs, Hr.
  unfold sum. rewrite Hs, Hr.
  assert (Hnn : forall e, In e entries ->
            0 <= Increment.sales e /\ 0 <= Increment.revenue e).
  { intros e He. apply In_select in He.
    eapply trend_events_nonneg; exact He. }
  repeat split.
  - apply fold_Qplus_nonneg; [|lra].
    intros x Hx. apply in_map_iff in Hx as (e & <- & He). now apply Hnn.
  - apply fold_Qplus_nonneg; [|lra].
    intros x Hx. apply in_map_iff in Hx as (e & <- & He). now apply Hnn.
Qed.

End TrendTotals.


(* ================================================================== *)
(** ** The overlap ranker *)

Lemma NoDup_firstn {A} (n : nat) (l : list A) : NoDup l -> NoDup (firstn n l).
Proof.
  revert n. induction l as [|x l IH]; intros [|n] Hnd; simpl;
    try constructor.
  - inversion Hnd; subst. intros Hin. apply In_firstn in Hin. contradiction.
  - inversion Hnd; subst. now apply IH.
Qed.

Lemma StronglySorted_firstn {A} (R : A -> A -> Prop) (n : nat) (l : list A) :
  StronglySorted R l -> StronglySorted R (firstn n l).
Proof.
  revert n. induction l as [|x l IH]; intros [|n] Hs; simpl;
    try constructor.
  - apply IH. now inversion Hs.
  - inversion Hs as [|? ? _ Hx]; subst.
    rewrite Forall_forall in *. intros y Hy. apply Hx.
    eapply In_firstn. exact Hy.
Qed.

Lemma slice_to_firstn {A} (l : list A) (n : Z) :
  exists m, slice_to l n = firstn m l.
Proof. unfold slice_to. destruct (n <? 0)%Z; eauto. Qed.

Lemma length_slice_to {A} (l : list A) (n : Z) :
  (0 <= n)%Z -> (List.length (slice_to l n) <= Z.to_nat n)%nat.
Proof.
  intros Hn. unfold slice_to.
  replace (n <? 0)%Z with false by (symmetry; apply Z.ltb_ge; exact Hn).
  apply firstn_le_length.
Qed.

Lemma fold_count {E} (es : list E) :
  forall c : Z,
    fold_left (fun c (_ : E) => (c + 1)%Z) es c
    = (c + Z.of_nat (List.length es))%Z.
Proof.
  induction es as [|e es IH]; intros c; simpl List.length; simpl fold_left.
  - lia.
  - rewrite IH. lia.
Qed.

Lemma Qle_bool_total (x y : Q) : Qle_bool x y = true \/ Qle_bool y x = true.
Proof.
  rewrite !Qle_bool_iff. destruct (Qlt_le_dec x y) as [H|H]; [left|right]; lra.
Qed.

Lemma Qle_bool_trans (x y z : Q) :
  Qle_bool x y = true -> Qle_bool y z = true -> Qle_bool x z = true.
Proof. rewrite !Qle_bool_iff. intros. lra. Qed.

Lemma most_common_counts {K E} `{KeyOk K} (events : list (K * E)) (n : Z)
  (k : K) (cnt : Z) :
  In (k, cnt)
    (most_common (accumulate (fun c (_ : E) => (c + 1)%Z) 0%Z [] events) n) ->
  select k events <> [] /\
  cnt = Z.of_nat (List.length (select k events)).
Proof.
  intros Hin. unfold most_common in Hin. apply In_firstn, In_sorted in Hin.
  apply In_get in Hin; [|apply NoDup_keys_accumulate; constructor].
  rewrite get_accumulate in Hin. cbn [get] in Hin.
  destruct (select k events) as [|e es] eqn:E0; [discriminate|].
  split; [discriminate|]. injection Hin as <-. rewrite fold_count.
  simpl List.length. lia.
Qed.

Lemma NoDup_keys_most_common {K} `{KeyOk K} (counter : dict K Z) (n : Z) :
  NoDup (keys counter) -> NoDup (keys (most_common counter n)).
Proof.
  intros Hnd. unfold most_common, keys. rewrite <- firstn_map.
  apply NoDup_firstn.
  eapply Permutation_NoDup; [|exact Hnd].
  apply Permutation_map. symmetry. apply sorted_perm.
Qed.

(** Every field of a row, from the surviving edges of its target. *)
Lemma reach_row_fields (games : list Game.t) (sid : option Z) (cnt : Z) :
  let events := surviving_edges games in
  let edges := select sid events in
  edges <> [] ->
  exists r,
    reach_row (Z.of_nat (List.length games))
      (accumulate (fun items e => items ++ [e]) [] [] events) (sid, cnt)
      = Returned r /\
    Reach.steamId r = sid /\
    Reach.overlap_game_count r = cnt /\
    (games <> [] ->
     Reach.overlap_pct r
     = round (inject_Z cnt / inject_Z (Z.of_nat (List.length games)) * 100) 1) /\
    Reach.avg_link r = round (sum (map Edge.link edges) / len edges) 3 /\
    option_map Edge.name (hd_error edges) = Some (Reach.name r) /\
    option_map Edge.genres (hd_error edges) = Some (Reach.genres r).
Proof.
  intros events edges Hne. unfold reach_row.
  rewrite get_accumulate. cbn [get]. fold edges.
  destruct edges as [|e es] eqn:Eedges; [congruence|].
  rewrite fold_snoc. cbn [app]. rewrite div_len_cons. cbn [bind].
  destruct games as [|g games'].
  - cbn [List.length Z.of_nat Z.gtb Z.compare bind index nth_error].
    eexists. split; [reflexivity|]. cbn. repeat split. congruence.
  - replace (Z.of_nat (List.length (g :: games')) >? 0)%Z with true
      by (symmetry; apply Z.gtb_lt; simpl List.length; lia).
    rewrite div_inject_Z by (simpl List.length; lia).
    cbn [bind index nth_error].
    eexists. split; [reflexivity|]. cbn. repeat split.
Qed.

(** The rows before they are ordered, one for each of the most referred
    targets, and the ranking made of them. *)
Lemma get_audience_overlap_top_rows (games : list Game.t) (top_n : Z)
  (sort_by : string) (P : Reach.t -> Prop) :
  let events := surviving_edges games in
  (forall sid cnt r,
     select sid events <> [] ->
     cnt = Z.of_nat (List.length (select sid events)) ->
     reach_row (Z.of_nat (List.length games))
       (accumulate (fun items e => items ++ [e]) [] [] events) (sid, cnt)
       = Returned r ->
     P r) ->
  exists (candidates : list (option Z * Z)) result,
    NoDup (keys candidates) /\
    (List.length candidates <= Z.to_nat (top_n * 2))%nat /\
    Forall2 (fun entry r => Reach.steamId r = fst entry /\ P r)
      candidates result /\
    get_audience_overlap_top games top_n sort_by
    = Returned
        (slice_to
           (sorted (fun x y => Qle_bool (chosen_key sort_by y)
                                 (chosen_key sort_by x)) result) top_n).
Proof.
  intros events HP. unfold get_audience_overlap_top.
  rewrite fold_left_flat_map, overlap_loop.
  fold (surviving_edges games). fold events.
  set (overlap_count :=
         accumulate (fun c (_ : Edge.t) => (c + 1)%Z) 0%Z [] events).
  set (overlap_data := accumulate (fun items e => items ++ [e]) [] [] events).
  destruct (map_each_Forall2
    (reach_row (Z.of_nat (List.length games)) overlap_data)
    (fun (entry : option Z * Z) r => Reach.steamId r = fst entry /\ P r)
    (most_common overlap_count (top_n * 2))) as (result & Hresult & HF).
  { intros [sid cnt] Hin.
    apply most_common_counts in Hin as (Hne & Hcnt).
    destruct (reach_row_fields games sid cnt Hne) as (r & Hr & Hsid & _).
    exists r. split; [exact Hr|]. split; [exact Hsid|].
    eapply HP; eauto. }
  exists (most_common overlap_count (top_n * 2)), result.
  split. { apply NoDup_keys_most_common, NoDup_keys_accumulate. constructor. }
  split. { unfold most_common. apply firstn_le_length. }
  split; [exact HF|].
  rewrite Hresult. cbn [bind].
  change (subscript sort_keys "reach_score"%string)
    with (Returned (A:=Reach.t -> Q) Reach.reach_score).
  cbn [bind]. reflexivity.
Qed.

(** X8. The ranking of [get_audience_overlap_top] has at most [top_n]
    rows, no target twice, in descending order of the chosen sort key. *)
Theorem overlap_ranking_is_ordered_and_bounded (games : list Game.t)
  (top_n : Z) (sort_by : string) :
  exists ranking,
    get_audience_overlap_top games top_n sort_by = Returned ranking /\
    (List.length ranking <= Z.to_nat top_n)%nat /\
    NoDup (map Reach.steamId ranking) /\
    StronglySorted
      (fun a b => chosen_key sort_by b <= chosen_key sort_by a) ranking.
Proof.
  destruct (get_audience_overlap_top_rows games top_n sort_by (fun _ => True))
    as (candidates & result & Hnd & Hlen & HF & Hout); [auto|].
  eexists. split; [exact Hout|].
  set (le := fun x y : Reach.t =>
               Qle_bool (chosen_key sort_by y) (chosen_key sort_by x)).
  split; [|split].
  - destruct (Z.leb_spec 0 top_n) as [Hn|Hn]; [now apply length_slice_to|].
    assert (Hc : candidates = []).
    { destruct candidates; [reflexivity|]. simpl in Hlen. lia. }
    subst candidates. inversion HF; subst.
    unfold slice_to. cbn [sorted fold_right].
    destruct (top_n <? 0)%Z; rewrite firstn_nil; simpl; lia.
  - destruct (slice_to_firstn (sorted le result) top_n) as (m & ->).
    rewrite <- firstn_map. apply NoDup_firstn.
    assert (Hk : map Reach.steamId result = keys candidates).
    { clear -HF. induction HF as [|e r c rs [He _] _ IH]; simpl;
        [reflexivity|]. now rewrite He, IH. }
    eapply Permutation_NoDup; [|rewrite <- Hk in Hnd; exact Hnd].
    apply Permutation_map. symmetry. apply sorted_perm.
  - destruct (slice_to_firstn (sorted le result) top_n) as (m & ->).
    apply StronglySorted_firstn.
    assert (Hs : StronglySorted (fun a b => le a b = true) (sorted le result)).
    { apply sorted_StronglySorted; unfold le; intros.
      - apply Qle_bool_total.
      - eapply Qle_bool_trans; eauto. }
    clear -Hs. induction Hs as [|x l Hs IH Hx]; constructor; [exact IH|].
    eapply Forall_impl; [|exact Hx]. intros y Hy. now apply Qle_bool_iff.
Qed.

(** X9. Every row of the ranking reports its target's surviving edges:
    their number as [overlap_game_count], that number as a percentage of
    the games, rounded to one decimal, as [overlap_pct], the mean of the
    links rounded to three decimals as [avg_link], and the name and the
    genres of the first of the edges. *)
Theorem overlap_row_reports_its_edges (games : list Game.t) (top_n : Z)
  (sort_by : string) :
  exists ranking,
    get_audience_overlap_top games top_n sort_by = Returned ranking /\
    forall r, In r ranking ->
      let edges := select (Reach.steamId r) (surviving_edges games) in
      Reach.overlap_game_count r = Z.of_nat (List.length edges) /\
      Reach.overlap_pct r
        = round (inject_Z (Reach.overlap_game_count r)
                 / inject_Z (Z.of_nat (List.length games)) * 100) 1 /\
      Reach.avg_link r = round (sum (map Edge.link edges) / len edges) 3 /\
      option_map Edge.name (hd_error edges) = Some (Reach.name r) /\
      option_map Edge.genres (hd_error edges) = Some (Reach.genres r).
Proof.
  destruct (get_audience_overlap_top_rows games top_n sort_by
    (fun r =>
      let edges := select (Reach.steamId r) (surviving_edges games) in
      Reach.overlap_game_count r = Z.of_nat (List.length edges) /\
      Reach.overlap_pct r
        = round (inject_Z (Reach.overlap_game_count r)
                 / inject_Z (Z.of_nat (List.length games)) * 100) 1 /\
      Reach.avg_link r = round (sum (map Edge.link edges) / len edges) 3 /\
      option_map Edge.name (hd_error edges) = Some (Reach.name r) /\
      option_map Edge.genres (hd_error edges) = Some (Reach.genres r)))
    as (candidates & result & _ & _ & HF & Hout).
  { intros sid cnt r Hne Hcnt Hr.
    destruct (reach_row_fields games sid cnt Hne)
      as (r' & Hr' & Hsid & Hc & Hpct & Havg & Hname & Hgenres).
    rewrite Hr in Hr'. injection Hr' as <-.
    cbn zeta. rewrite Hsid, Hc.
    split; [exact Hcnt|]. split; [|auto].
    apply Hpct. intros ->.
    unfold surviving_edges in Hne. simpl in Hne. now apply Hne. }
  eexists. split; [exact Hout|].
  intros r Hin.
  destruct (slice_to_firstn
              (sorted (fun x y => Qle_bool (chosen_key sort_by y)
                                    (chosen_key sort_by x)) result) top_n)
    as (m & Hm).
  rewrite Hm in Hin. apply In_firstn, In_sorted in Hin.
  destruct (Forall2_In_r _ _ _ _ HF Hin) as (entry & _ & _ & Hspec).
  exact Hspec.
Qed.

(** X10. Edges at or under the floor, [link <= 0.05] or no link at all,
    count for nothing: without them [get_audience_overlap_top] returns
    the same. *)
Theorem weak_edges_count_for_nothing (games : list Game.t) (top_n : Z)
  (sort_by : string) :
  get_audience_overlap_top (map without_weak_edges games) top_n sort_by
  = get_audience_overlap_top games top_n sort_by.
Proof.
  unfold get_audience_overlap_top.
  rewrite !fold_left_flat_map, length_map.
  replace (flat_map Game.audienceOverlap (map without_weak_edges games))
    with (filter (fun ao => gtb (get_or (Overlap.link ao) 0) (5 # 100))
            (flat_map Game.audienceOverlap games)).
  - rewrite fold_left_filter_skip; [reflexivity|].
    intros [oc od] ao Hweak. unfold overlap_add. now rewrite Hweak.
  - induction games as [|g games IH]; simpl; [reflexivity|].
    now rewrite filter_app, IH.
Qed.


(* ================================================================== *)
(** ** The rows and the order of the category rollups *)

Lemma stats_upd_totals (gs : list Game.t) :
  forall s : Stats.t,
    Stats.count (fold_left stats_upd gs s)
      = (Stats.count s + Z.of_nat (List.length gs))%Z /\
    Stats.revenue_sum (fold_left stats_upd gs s)
      = fold_left Qplus (map (fun g => get_or (Game.revenue g) 0) gs)
          (Stats.revenue_sum s) /\
    Stats.sales_sum (fold_left stats_upd gs s)
      = fold_left Qplus (map (fun g => get_or (Game.copiesSold g) 0) gs)
          (Stats.sales_sum s).
Proof.
  induction gs as [|g gs IH]; intros s.
  - simpl. repeat split. lia.
  - cbn [fold_left map List.length].
    destruct (IH (stats_upd s g)) as (Hc & Hr & Hs).
    rewrite Hc, Hr, Hs. unfold stats_upd. simpl Stats.count.
    simpl Stats.revenue_sum. simpl Stats.sales_sum.
    repeat split. lia.
Qed.

Lemma category_row_totals (data : Stats.t) (row : Category.t) :
  category_row data = Returned row ->
  Stats.count data <> 0%Z ->
  Category.game_count row = Stats.count data /\
  Category.total_revenue row = Stats.revenue_sum data /\
  Category.avg_revenue row
    = Stats.revenue_sum data / inject_Z (Stats.count data) /\
  Category.avg_sales row
    = Stats.sales_sum data / inject_Z (Stats.count data).
Proof.
  intros Hrow Hcount. unfold category_row in Hrow.
  replace (Stats.count data =? 0)%Z with false in Hrow
    by (symmetry; now apply Z.eqb_neq).
  rewrite !div_inject_Z in Hrow by assumption. cbn [bind] in Hrow.
  destruct (if (Stats.score_count data =? 0)%Z then Returned 0
            else div (Stats.score_sum data)
                   (inject_Z (Stats.score_count data))) as [avg|e];
    cbn [bind] in Hrow; [|discriminate].
  injection Hrow as <-. repeat split.
Qed.

(** The rows of a category rollup, in the order of the ordered
    accumulators, each computed from the accumulator of its group. *)
Lemma category_rows (field : Game.t -> list string)
  (order : list (string * Stats.t) -> list (string * Stats.t))
  (games : list Game.t) :
  (forall l, Permutation (order l) l) ->
  let events := category_events field games in
  let stats := accumulate stats_upd Stats.zero [] events in
  exists res,
    category_result
      (order (fold_left
                (fun stats g => fold_left (stats_add g) (field g) stats)
                games []))
      = Returned res /\
    NoDup (keys res) /\
    Forall2
      (fun (kv : string * Stats.t) (kr : string * Category.t) =>
         fst kr = fst kv /\
         select (fst kv) events <> [] /\
         snd kv = fold_left stats_upd (select (fst kv) events) Stats.zero /\
         category_row (snd kv) = Returned (snd kr))
      (order stats) res.
Proof.
  intros Horder events stats.
  rewrite (nested_accumulate stats_upd Stats.zero field stats_add (fun g => g))
    by reflexivity.
  fold (category_events field games). fold events. fold stats.
  assert (Hnd : NoDup (keys stats)).
  { apply NoDup_keys_accumulate. constructor. }
  assert (Hnd' : NoDup (keys (order stats))).
  { eapply Permutation_NoDup; [|exact Hnd].
    apply Permutation_map. symmetry. apply Horder. }
  assert (Hdata : forall c data, In (c, data) (order stats) ->
    select c events <> [] /\
    data = fold_left stats_upd (select c events) Stats.zero).
  { intros c data Hin. apply (Permutation_in _ (Horder stats)) in Hin.
    apply In_get in Hin; [|exact Hnd]. unfold stats in Hin.
    rewrite get_accumulate in Hin. cbn [get] in Hin.
    destruct (select c events) eqn:Es; [discriminate|].
    split; [discriminate|]. now injection Hin as <-. }
  destruct (keyed_rows category_row (order stats)) as (res & Hres & HF).
  { exact Hnd'. }
  { intros c data Hin. destruct (Hdata c data Hin) as [_ ->].
    destruct (category_row_avg_score (select c events)) as (row & Hrow & _).
    eauto. }
  exists res. split; [exact Hres|]. split.
  - erewrite Forall2_keys; [exact Hnd'|]. exact HF.
  - clear Hres Hnd'.
    induction HF as [|[c data] kr l res' [Hk Hrow] HF IH]; constructor.
    + destruct (Hdata c data (or_introl eq_refl)) as [Hne Hd].
      simpl in *. auto.
    + apply IH. intros c' data' Hin. apply Hdata. now right.
Qed.

Lemma category_rows_report (field : Game.t -> list string)
  (order : list (string * Stats.t) -> list (string * Stats.t))
  (games : list Game.t) :
  (forall l, Permutation (order l) l) ->
  exists res,
    category_result
      (order (fold_left
                (fun stats g => fold_left (stats_add g) (field g) stats)
                games []))
      = Returned res /\
    forall c row, In (c, row) res -> reports_group field c games row.
Proof.
  intros Horder.
  destruct (category_rows field order games Horder)
    as (res & Hres & _ & HF).
  exists res. split; [exact Hres|].
  intros c row Hin.
  destruct (Forall2_In_r _ _ _ _ HF Hin)
    as ([c' data] & _ & Hk & Hne & Hdata & Hrow).
  simpl in Hk, Hne, Hdata, Hrow. subst c'.
  set (group := select c (category_events field games)) in *.
  destruct (stats_upd_totals group Stats.zero) as (Hc & Hr & Hs).
  rewrite <- Hdata in Hc, Hr, Hs. simpl in Hc, Hr, Hs.
  assert (Hcount : Stats.count data <> 0%Z).
  { rewrite Hc. destruct group; [congruence | simpl List.length; lia]. }
  destruct (category_row_totals data row Hrow Hcount)
    as (Hgc & Htr & Har & Has).
  unfold reports_group. fold group.
  split; [exact Hne|]. rewrite Htr, Hgc, Har, Has, Hc, Hr, Hs.
  repeat split.
Qed.

(** X11. Every row of the genre rollup and of the tag rollup reports its
    group, a record once for each time it lists the value: the number of
    the listings as [game_count], the sum of their revenues as
    [total_revenue], and the revenue and the copies sold per listing as
    [avg_revenue] and [avg_sales]. *)
Theorem category_rows_report_their_group (games : list Game.t) :
  (exists by_genre,
     get_genre_stats games = Returned by_genre /\
     forall genre row, In (genre, row) by_genre ->
       reports_group Game.genres genre games row) /\
  (exists by_tag,
     get_tag_stats games = Returned by_tag /\
     forall tag row, In (tag, row) by_tag ->
       reports_group Game.tags tag games row).
Proof.
  split; apply category_rows_report; intros l; apply sorted_perm.
Qed.

Lemma Forall2_StronglySorted {A B} (P : A -> B -> Prop)
  (R : A -> A -> Prop) (R' : B -> B -> Prop) (l : list A) (r : list B) :
  (forall a b a' b', P a a' -> P b b' -> R a b -> R' a' b') ->
  Forall2 P l r -> StronglySorted R l -> StronglySorted R' r.
Proof.
  intros HR HF. induction HF as [|a a' l r Ha HF IH]; intros Hs;
    [constructor|].
  inversion Hs as [|? ? Hs' Hall]; subst.
  constructor; [now apply IH|].
  rewrite Forall_forall in *. intros b' Hb'.
  destruct (Forall2_In_r _ _ _ _ HF Hb') as (b & Hb & HPb).
  eapply HR; eauto.
Qed.

(** X12. The genre rollup lists its genres in descending order of
    [total_revenue], the tag rollup its tags in descending order of
    [game_count]; neither has a key twice. *)
Theorem category_rollups_are_ordered (games : list Game.t) :
  (exists by_genre,
     get_genre_stats games = Returned by_genre /\
     NoDup (keys by_genre) /\
     StronglySorted
       (fun a b =>
          Category.total_revenue (snd b) <= Category.total_revenue (snd a))
       by_genre) /\
  (exists by_tag,
     get_tag_stats games = Returned by_tag /\
     NoDup (keys by_tag) /\
     StronglySorted
       (fun a b =>
          (Category.game_count (snd b) <= Category.game_count (snd a))%Z)
       by_tag).
Proof.
  assert (Hcount : forall (field : Game.t -> list string) c,
    select c (category_events field games) <> [] ->
    Stats.count
      (fold_left stats_upd (select c (category_events field games))
         Stats.zero) <> 0%Z).
  { intros field c Hne.
    destruct (stats_upd_totals (select c (category_events field games))
                Stats.zero) as (Hc & _).
    rewrite Hc. destruct (select c (category_events field games));
      [congruence | simpl; lia]. }
  split.
  - destruct (category_rows Game.genres
                (sorted (fun x y =>
                   Qle_bool (Stats.revenue_sum (snd y))
                     (Stats.revenue_sum (snd x)))) games)
      as (res & Hres & Hnd & HF); [intros l; apply sorted_perm|].
    exists res. split; [exact Hres|]. split; [exact Hnd|].
    eapply Forall2_StronglySorted; [|exact HF|].
    2:{ apply sorted_StronglySorted.
        - intros x y. apply Qle_bool_total.
        - intros x y z. intros H1 H2. eapply Qle_bool_trans; eauto. }
    intros a b a' b' (_ & Hna & Hda & Hra) (_ & Hnb & Hdb & Hrb) Hle.
    cbv beta in Hle. apply Qle_bool_iff in Hle.
    apply category_row_totals in Hra as (_ & -> & _);
      [|rewrite Hda; now apply Hcount].
    apply category_row_totals in Hrb as (_ & -> & _);
      [|rewrite Hdb; now apply Hcount].
    exact Hle.
  - destruct (category_rows Game.tags
                (sorted (fun x y =>
                   Z.leb (Stats.count (snd y)) (Stats.count (snd x)))) games)
      as (res & Hres & Hnd & HF); [intros l; apply sorted_perm|].
    exists res. split; [exact Hres|]. split; [exact Hnd|].
    eapply Forall2_StronglySorted; [|exact HF|].
    2:{ apply sorted_StronglySorted; intros; lia. }
    intros a b a' b' (_ & Hna & Hda & Hra) (_ & Hnb & Hdb & Hrb) Hle.
    cbv beta in Hle. apply Z.leb_le in Hle.
    apply category_row_totals in Hra as (-> & _);
      [|rewrite Hda; now apply Hcount].
    apply category_row_totals in Hrb as (-> & _);
      [|rewrite Hdb; now apply Hcount].
    exact Hle.
Qed.


(* ================================================================== *)
(** ** The records and the size of the country rollup *)

(** X13. Records that supply no country data, none or an empty mapping,
    count for nothing in [get_country_aggregate], whatever their revenue
    or sales: without them it returns the same. *)
Theorem records_without_country_data_count_for_nothing
  (games : list Game.t) (weight_by : string) :
  get_country_aggregate (filter supplies_country_data games) weight_by
  = get_country_aggregate games weight_by.
Proof.
  unfold get_country_aggregate.
  rewrite fold_left_filter_skip; [reflexivity|].
  intros [weighted total_weight] g Hg.
  unfold supplies_country_data in Hg. unfold country_game.
  destruct (Game.countryData g) as [[|entry cd]|];
    [reflexivity | discriminate | reflexivity].
Qed.

Lemma length_set {K V} `{Key K} (d : dict K V) (k : K) (v : V) :
  (List.length (set d k v) <= S (List.length d))%nat.
Proof.
  induction d as [|[k' v'] d IH]; simpl; [lia|].
  destruct (eqb k k'); simpl; lia.
Qed.

Lemma length_fold_set {K V X} `{Key K} (kf : X -> K) (vf : X -> V)
  (l : list X) :
  forall d : dict K V,
    (List.length (fold_left (fun d x => set d (kf x) (vf x)) l d)
     <= List.length d + List.length l)%nat.
Proof.
  induction l as [|x l IH]; intros d; simpl; [lia|].
  pose proof (IH (set d (kf x) (vf x))) as H1.
  pose proof (length_set d (kf x) (vf x)) as H2. lia.
Qed.

(** X14. [get_country_aggregate] returns at most 30 entries. *)
Theorem country_rollup_has_at_most_30_entries (games : list Game.t)
  (weight_by : string) :
  exists out,
    get_country_aggregate games weight_by = Returned out /\
    (List.length out <= 30)%nat.
Proof.
  unfold get_country_aggregate. rewrite country_loop.
  set (tw := fold_left Qplus _ 0).
  set (weighted := accumulate Qplus 0 [] (country_events weight_by games)).
  destruct (Qeq_bool tw 0) eqn:Etw.
  { exists []. split; [reflexivity | simpl; lia]. }
  rewrite (for_each_ext _
    (fun result '(code, val) =>
       r <- (q <- div val tw ;; Returned (round q 2)) ;;
       Returned (set result code r))).
  2:{ intros st [code val]. destruct (div val tw); reflexivity. }
  destruct (keyed_rows (fun val => q <- div val tw ;; Returned (round q 2))
              (sorted (fun x y => Qle_bool (snd y) (snd x)) weighted))
    as (res & Hres & _).
  { assert (Hnd : NoDup (keys weighted))
      by (apply NoDup_keys_accumulate; constructor).
    eapply Permutation_NoDup; [|exact Hnd].
    apply Permutation_map. symmetry. apply sorted_perm. }
  { intros code val _. unfold div. rewrite Etw. simpl. eauto. }
  rewrite Hres. cbn [bind]. eexists. split; [reflexivity|].
  rewrite (fold_left_pointwise _
    (fun named (x : string * Q) => set named (country_label (fst x)) (snd x)))
    by (now intros a [code pct0]).
  pose proof (length_fold_set (fun x : string * Q => country_label (fst x))
                snd (firstn 30 res) []) as H1.
  pose proof (firstn_le_length 30 res) as H2.
  cbn [List.length Nat.add] in H1. lia.
Qed.


(* ================================================================== *)
(** ** [filter_games] *)

Lemma filter_filter_and {A} (p q : A -> bool) (l : list A) :
  filter p (filter q l) = filter (fun x => q x && p x) l.
Proof.
  induction l as [|x l IH]; simpl; [reflexivity|].
  destruct (q x); simpl; [|exact IH].
  destruct (p x); now rewrite IH.
Qed.

Section FilterGames.
Variable fromtimestamp : Z -> option datetime.

(** The loop with its [continue]s is a filter. *)
Lemma filter_games_filter (games : list Listing.t)
  (tags genres : option (list string)) (year_min year_max : option Z)
  (sold_min reviews_min : option Q) :
  filter_games fromtimestamp games tags genres year_min year_max
    sold_min reviews_min
  = filter (kept fromtimestamp tags genres year_min year_max
              sold_min reviews_min) games.
Proof.
  unfold filter_games.
  set (keep := kept fromtimestamp tags genres year_min year_max
                 sold_min reviews_min).
  set (body := fun (result : list Listing.t) (g : Listing.t) => _).
  assert (Hbody : forall acc g,
            body acc g = if keep g then acc ++ [g] else acc).
  { intros acc g. unfold body, keep, kept.
    destruct (skip_by_values tags _); [reflexivity|].
    destruct (skip_by_values genres _); [reflexivity|].
    destruct (skip_by_year _ _ _ _); [reflexivity|].
    destruct (skip_below sold_min _); [reflexivity|].
    destruct (skip_below reviews_min _); reflexivity. }
  assert (G : forall acc, fold_left body games acc = acc ++ filter keep games).
  { induction games as [|g games IH]; intros acc; simpl.
    - now rewrite app_nil_r.
    - rewrite IH, Hbody. destruct (keep g); [|reflexivity].
      now rewrite <- app_assoc. }
  apply G.
Qed.

(** X15. Filtering composes: the criteria of [filter_games] can be
    applied one group after the other, two filterings can change places,
    and filtering a second time by the same criteria changes nothing. *)
Theorem filter_games_composes (games : list Listing.t)
  (tags genres : option (list string)) (year_min year_max : option Z)
  (sold_min reviews_min : option Q)
  (tags' genres' : option (list string)) (year_min' year_max' : option Z)
  (sold_min' reviews_min' : option Q) :
  let by_all gs :=
    filter_games fromtimestamp gs tags genres year_min year_max
      sold_min reviews_min in
  let by_others gs :=
    filter_games fromtimestamp gs tags' genres' year_min' year_max'
      sold_min' reviews_min' in
  let by_values gs :=
    filter_games fromtimestamp gs tags genres None None None None in
  let by_year gs :=
    filter_games fromtimestamp gs None None year_min year_max None None in
  let by_numbers gs :=
    filter_games fromtimestamp gs None None None None sold_min reviews_min in
  by_all games = by_numbers (by_year (by_values games)) /\
  by_others (by_all games) = by_all (by_others games) /\
  by_all (by_all games) = by_all games.
Proof.
  cbv beta zeta. rewrite !filter_games_filter, !filter_filter_and.
  split; [|split].
  - apply filter_ext. intros g. unfold kept. simpl.
    rewrite !andb_true_r.
    destruct (skip_by_values tags _), (skip_by_values genres _),
      (skip_by_year _ _ _ _), (skip_below sold_min _),
      (skip_below reviews_min _); reflexivity.
  - apply filter_ext. intros g. apply andb_comm.
  - apply filter_ext. intros g. apply andb_diag.
Qed.

(** X16. Criteria that are absent or empty constrain nothing: with no
    criterion at all, and with empty lists of tags and genres and year
    bounds of 0, [filter_games] returns the games as they are. *)
Theorem empty_criteria_keep_every_game (games : list Listing.t) :
  filter_games fromtimestamp games None None None None None None = games /\
  filter_games fromtimestamp games (Some []) (Some []) (Some 0%Z) (Some 0%Z)
    None None = games.
Proof.
  rewrite !filter_games_filter. split.
  - induction games as [|g games IH]; simpl; [reflexivity|]. now rewrite IH.
  - induction games as [|g games IH]; simpl; [reflexivity|]. now rewrite IH.
Qed.

(** X17. What [filter_games] returns meets the criteria: with year bounds
    other than 0, every game returned has a release year, within the
    bounds; with a list of tags, a tag of the list; and at least
    [sold_min] copies sold. The games are returned in their order. *)
Theorem filtered_games_meet_the_criteria (games : list Listing.t)
  (tag : string) (tags : list string) (genres : option (list string))
  (year_min year_max : Z) (sold_min : Q) (reviews_min : option Q) :
  year_min <> 0%Z -> year_max <> 0%Z ->
  let result :=
    filter_games fromtimestamp games (Some (tag :: tags)) genres
      (Some year_min) (Some year_max) (Some sold_min) reviews_min in
  (exists keep, result = filter keep games) /\
  forall g, In g result ->
    (exists yr, _release_year fromtimestamp g = Some yr /\
       (year_min <= yr <= year_max)%Z) /\
    (exists t, In t (tag :: tags) /\ In t (Game.tags (Listing.game g))) /\
    sold_min <= get_or (Game.copiesSold (Listing.game g)) 0.
Proof.
  intros Hmin Hmax result. unfold result. rewrite filter_games_filter.
  split; [eauto|].
  intros g Hin. apply filter_In in Hin as [_ Hkept].
  unfold kept in Hkept. rewrite !andb_true_iff, !negb_true_iff in Hkept.
  destruct Hkept as ((((Htags & _) & Hyear) & Hsold) & _).
  split; [|split].
  - unfold skip_by_year, truthy_bound in Hyear.
    replace (year_min =? 0)%Z with false in Hyear
      by (symmetry; now apply Z.eqb_neq).
    replace (year_max =? 0)%Z with false in Hyear
      by (symmetry; now apply Z.eqb_neq).
    simpl in Hyear.
    destruct (_release_year fromtimestamp g) as [yr|]; [|discriminate].
    exists yr. split; [reflexivity|].
    apply orb_false_iff in Hyear. lia.
  - unfold skip_by_values in Htags. apply negb_false_iff in Htags.
    apply existsb_exists in Htags as (t & Ht & Hmem).
    exists t. split; [exact Ht|].
    unfold mem in Hmem. apply existsb_exists in Hmem as (t' & Ht' & E).
    apply String.eqb_eq in E. now subst t'.
  - unfold skip_below in Hsold. apply negb_false_iff in Hsold.
    now apply Qle_bool_iff.
Qed.

End FilterGames.

Lemma filtered_games_meet_the_criteria_witness :
  (2019 <> 0 /\ 2020 <> 0)%Z /\
  forall g,
    In g (filter_games utc_fromtimestamp dated_listings
            (Some ["RPG"%string]) None (Some 2019%Z) (Some 2020%Z)
            (Some 60) None) ->
    (exists yr, _release_year utc_fromtimestamp g = Some yr /\
       (2019 <= yr <= 2020)%Z) /\
    (exists t, In t ["RPG"%string] /\ In t (Game.tags (Listing.game g))) /\
    60 <= get_or (Game.copiesSold (Listing.game g)) 0.
Proof.
  split; [split; discriminate|].
  apply (filtered_games_meet_the_criteria utc_fromtimestamp dated_listings
           "RPG" [] None 2019 2020 60 None); discriminate.
Defined.


(* ================================================================== *)
(** ** [get_top_games] *)

Lemma StronglySorted_app_inv {A} (R : A -> A -> Prop) (l1 l2 : list A) :
  StronglySorted R (l1 ++ l2) ->
  forall x y, In x l1 -> In y l2 -> R x y.
Proof.
  induction l1 as [|a l1 IH]; simpl; intros Hs x y Hx Hy; [contradiction|].
  inversion Hs as [|? ? Hs' Hall]; subst.
  destruct Hx as [<-|Hx].
  - rewrite Forall_forall in Hall. apply Hall, in_or_app. now right.
  - now apply IH.
Qed.

(** X18. [get_top_games] splits the games in those it returns and the
    rest: the returned ones are in descending order of the field, absent
    values counting as 0, none of the rest has a greater value than a
    returned one, and for [n >= 0] there are [n] of them, or all the
    games when they are fewer. *)
Theorem top_games_are_the_greatest {G : Type} (games : list G) (n : Z)
  (field : G -> option Q) :
  let value g := get_or (field g) 0 in
  let top := get_top_games games n field in
  exists rest,
    Permutation (top ++ rest) games /\
    StronglySorted (fun a b => value b <= value a) top /\
    (forall x y, In x top -> In y rest -> value y <= value x) /\
    ((0 <= n)%Z ->
     List.length top = Nat.min (Z.to_nat n) (List.length games)).
Proof.
  intros value top. unfold top, get_top_games.
  set (le := fun x y : G => Qle_bool (get_or (field y) 0) (get_or (field x) 0)).
  assert (Hs : StronglySorted (fun a b => value b <= value a)
                 (sorted le games)).
  { assert (Hs : StronglySorted (fun a b => le a b = true) (sorted le games)).
    { apply sorted_StronglySorted; unfold le; intros.
      - apply Qle_bool_total.
      - eapply Qle_bool_trans; eauto. }
    induction Hs as [|x l Hs IH Hx]; constructor; [exact IH|].
    eapply Forall_impl; [|exact Hx]. intros y Hy. now apply Qle_bool_iff. }
  assert (Hn : (0 <= n)%Z ->
            slice_to (sorted le games) n
            = firstn (Z.to_nat n) (sorted le games)).
  { intros H. unfold slice_to.
    now replace (n <? 0)%Z with false by (symmetry; now apply Z.ltb_ge). }
  destruct (slice_to_firstn (sorted le games) n) as (m & Hm).
  exists (skipn m (sorted le games)).
  split; [|split; [|split]].
  - rewrite Hm, firstn_skipn. apply sorted_perm.
  - rewrite Hm. now apply StronglySorted_firstn.
  - rewrite Hm. intros x y Hx Hy.
    rewrite <- (firstn_skipn m (sorted le games)) in Hs.
    apply (StronglySorted_app_inv _ _ _ Hs x y Hx Hy).
  - intros H. rewrite (Hn H), length_firstn, length_sorted. reflexivity.
Qed.

(* ================================================================== *)
(** ** The counters of tags and genres *)

Lemma count_values_accumulate (values : Game.t -> list string)
  (games : list Game.t) :
  count_values values games
  = accumulate (fun c (_ : Game.t) => (c + 1)%Z) 0%Z []
      (category_events values games).
Proof.
  unfold count_values, category_events.
  apply (nested_accumulate (fun c (_ : Game.t) => (c + 1)%Z) 0%Z values
           (fun (_ : Game.t) counter v =>
              update counter v (fun c => (c + 1)%Z) 0%Z)
           (fun g => g)).
  reflexivity.
Qed.

Lemma In_most_common_all (values : Game.t -> list string)
  (games : list Game.t) (v : string) (cnt : Z) :
  In (v, cnt) (most_common_all (count_values values games)) <->
  (0 < cnt)%Z /\ cnt = listings values v games.
Proof.
  unfold most_common_all, listings. rewrite In_sorted, count_values_accumulate.
  set (events := category_events values games).
  set (counter := accumulate (fun c (_ : Game.t) => (c + 1)%Z) 0%Z [] events).
  assert (Hget : get counter v
                 = match select v events with
                   | [] => None
                   | es => Some (Z.of_nat (List.length es))
                   end).
  { unfold counter. rewrite get_accumulate. cbn [get].
    destruct (select v events) as [|e es]; [reflexivity|].
    rewrite fold_count. f_equal. }
  split.
  - intros Hin. apply In_get in Hin;
      [|apply NoDup_keys_accumulate; constructor].
    rewrite Hget in Hin.
    destruct (select v events) as [|e es]; [discriminate|].
    injection Hin as <-. simpl List.length. split; lia.
  - intros [Hpos ->]. apply get_Some_In. rewrite Hget.
    destruct (select v events) as [|e es]; [simpl in Hpos; lia | reflexivity].
Qed.

Lemma most_common_all_descending {K} (counter : dict K Z) :
  StronglySorted (fun a b => (snd b <= snd a)%Z) (most_common_all counter).
Proof.
  unfold most_common_all.
  assert (Hs : StronglySorted
                 (fun a b : K * Z => Z.leb (snd b) (snd a) = true)
                 (sorted (fun x y => Z.leb (snd y) (snd x)) counter)).
  { apply sorted_StronglySorted; intros; lia. }
  induction Hs as [|x l Hs IH Hx]; constructor; [exact IH|].
  eapply Forall_impl; [|exact Hx]. intros y Hy. now apply Z.leb_le.
Qed.

Lemma NoDup_keys_most_common_all (values : Game.t -> list string)
  (games : list Game.t) :
  NoDup (keys (most_common_all (count_values values games))).
Proof.
  unfold most_common_all. rewrite count_values_accumulate.
  eapply Permutation_NoDup;
    [apply Permutation_map; symmetry; apply sorted_perm|].
  apply NoDup_keys_accumulate. constructor.
Qed.

(** X19. [get_common_tags] returns at most [top_n] tags, none twice, each
    with the number of times the games list it, in descending order of
    that number; a tag it leaves out is listed no more often than a tag
    it returns. *)
Theorem common_tags_are_the_most_listed (games : list Game.t) (top_n : Z) :
  let common := get_common_tags games top_n in
  (List.length common <= Z.to_nat top_n)%nat /\
  NoDup (keys common) /\
  (forall tag cnt, In (tag, cnt) common ->
     (0 < cnt)%Z /\ cnt = listings Game.tags tag games) /\
  StronglySorted (fun a b => (snd b <= snd a)%Z) common /\
  (forall tag tag', In tag (keys common) -> ~ In tag' (keys common) ->
     (listings Game.tags tag' games <= listings Game.tags tag games)%Z).
Proof.
  intros common. unfold common, get_common_tags, most_common.
  fold (most_common_all (count_values Game.tags games)).
  set (all := most_common_all (count_values Game.tags games)).
  split; [apply firstn_le_length|]. split; [|split; [|split]].
  - unfold keys. rewrite <- firstn_map. apply NoDup_firstn.
    apply NoDup_keys_most_common_all.
  - intros tag cnt Hin. apply In_firstn in Hin.
    now apply In_most_common_all.
  - apply StronglySorted_firstn, most_common_all_descending.
  - intros tag tag' Hin Hout.
    apply in_map_iff in Hin as ([t cnt] & Et & Hin). simpl in Et. subst t.
    assert (Hcnt : cnt = listings Game.tags tag games).
    { apply In_firstn in Hin. now apply In_most_common_all in Hin. }
    destruct (Z.ltb_spec 0 (listings Game.tags tag' games)) as [Hpos|Hzero].
    2:{ apply In_firstn, In_most_common_all in Hin. lia. }
    assert (Hall : In (tag', listings Game.tags tag' games) all).
    { apply In_most_common_all. split; [exact Hpos | reflexivity]. }
    rewrite <- (firstn_skipn (Z.to_nat top_n) all) in Hall.
    apply in_app_or in Hall as [Hall|Hall].
    { exfalso. apply Hout. apply in_map_iff.
      exists (tag', listings Game.tags tag' games). auto. }
    pose proof (most_common_all_descending (count_values Game.tags games))
      as Hs.
    fold all in Hs. rewrite <- (firstn_skipn (Z.to_nat top_n) all) in Hs.
    pose proof (StronglySorted_app_inv _ _ _ Hs _ _ Hin Hall) as Hle.
    simpl in Hle. lia.
Qed.

(** X20. [get_all_tags] returns exactly the tags the games list at least
    [min_count] times (and at least once), and [get_all_genres] exactly
    the genres some game lists; neither returns a value twice. *)
Theorem all_tags_and_genres_are_the_listed_ones (games : list Game.t)
  (min_count : Z) :
  (forall tag, In tag (get_all_tags games min_count) <->
     (0 < listings Game.tags tag games)%Z /\
     (min_count <= listings Game.tags tag games)%Z) /\
  NoDup (get_all_tags games min_count) /\
  (forall genre, In genre (get_all_genres games) <->
     exists g, In g games /\ In genre (Game.genres g)) /\
  NoDup (get_all_genres games).
Proof.
  split; [|split; [|split]].
  - intros tag. unfold get_all_tags. rewrite in_map_iff. split.
    + intros ([t cnt] & Et & Hin). simpl in Et. subst t.
      apply filter_In in Hin as [Hin Hge].
      apply In_most_common_all in Hin as [Hpos ->]. lia.
    + intros [Hpos Hge]. exists (tag, listings Game.tags tag games).
      split; [reflexivity|]. apply filter_In. split.
      * apply In_most_common_all. auto.
      * apply Z.geb_le. exact Hge.
  - unfold get_all_tags.
    pose proof (NoDup_keys_most_common_all Game.tags games) as Hnd.
    unfold keys in Hnd.
    induction (most_common_all (count_values Game.tags games))
      as [|[t c] l IH]; simpl; [constructor|].
    inversion Hnd as [|? ? Hnotin Hnd']; subst.
    destruct (c >=? min_count)%Z; simpl; [|now apply IH].
    constructor; [|now apply IH].
    intros Hin. apply Hnotin. apply in_map_iff in Hin as (x & Ex & Hx).
    apply filter_In in Hx as [Hx _]. apply in_map_iff. eauto.
  - intros genre. unfold get_all_genres.
    rewrite <- In_keys_category_events.
    fold (keys (most_common_all (count_values Game.genres games))).
    unfold most_common_all. rewrite count_values_accumulate.
    transitivity
      (In genre
         (keys (accumulate (fun c (_ : Game.t) => (c + 1)%Z) 0%Z []
                  (category_events Game.genres games)))).
    { split; apply Permutation_in; [|symmetry];
        apply Permutation_map, sorted_perm. }
    rewrite In_keys_accumulate. simpl. tauto.
  - apply NoDup_keys_most_common_all.
Qed.


(* ================================================================== *)
(** ** [get_monthly_releases] *)

Section MonthlyReleases.
Variable fromtimestamp : Z -> option datetime.

Lemma monthly_accumulate (games : list Listing.t) :
  forall monthly : dict string Z,
    fold_left
      (fun monthly g =>
         match release_timestamp g with
         | Some ts =>
             if (ts =? 0)%Z then monthly
             else
               match fromtimestamp ts with
               | Some dt =>
                   update monthly (strftime_Ym dt) (fun c => (c + 1)%Z) 0%Z
               | None => monthly
               end
         | None => monthly
         end)
      games monthly
    = accumulate (fun c (_ : Listing.t) => (c + 1)%Z) 0%Z monthly
        (release_events fromtimestamp games).
Proof.
  unfold release_events.
  induction games as [|g games IH]; intros monthly; [reflexivity|].
  cbn [fold_left flat_map]. rewrite accumulate_app, IH.
  f_equal. unfold release_month.
  destruct (release_timestamp g) as [ts|]; [|reflexivity].
  destruct (ts =? 0)%Z; [reflexivity|].
  destruct (fromtimestamp ts); reflexivity.
Qed.

Lemma select_release_events (m : string) (games : list Listing.t) :
  select m (release_events fromtimestamp games) = released_in fromtimestamp m games.
Proof.
  unfold release_events, released_in.
  induction games as [|g games IH]; [reflexivity|].
  cbn [flat_map filter]. rewrite select_app, IH.
  destruct (release_month fromtimestamp g) as [m'|]; [|reflexivity].
  unfold select. cbn [filter fst]. change (eqb m m') with (String.eqb m m').
  destruct (String.eqb m m'); reflexivity.
Qed.

(** X21. [get_monthly_releases] lists the months in strictly ascending
    order, each with the number of listings released in it, which is not
    0; a listing without a usable release time stamp is counted
    nowhere. *)
Theorem monthly_releases_count_the_listings (games : list Listing.t) :
  let monthly := get_monthly_releases fromtimestamp games in
  StronglySorted
    (fun a b => String.leb a b = true /\ a <> b) (map month_of monthly) /\
  (forall m, In m (map month_of monthly) <->
     exists g, In g games /\ release_month fromtimestamp g = Some m) /\
  (forall row, In row monthly ->
     (0 < count_of row)%Z /\
     count_of row
     = Z.of_nat
         (List.length (released_in fromtimestamp (month_of row) games))).
Proof.
  intros monthly. unfold monthly, get_monthly_releases.
  rewrite monthly_accumulate.
  set (counter :=
         accumulate (fun c (_ : Listing.t) => (c + 1)%Z) 0%Z []
           (release_events fromtimestamp games)).
  assert (Hnd : NoDup (keys counter))
    by (apply NoDup_keys_accumulate; constructor).
  assert (Hmonths :
    map month_of
      (map (fun '(k, v) => {| month_of := k; count_of := v |})
         (sorted (fun x y : string * Z => String.leb (fst x) (fst y)) counter))
    = sorted String.leb (keys counter)).
  { rewrite map_map. unfold keys.
    rewrite <- (map_sorted fst String.leb counter).
    apply map_ext. now intros [k v]. }
  assert (Hrow : forall m c, In (m, c) counter ->
            (0 < c)%Z /\
            c = Z.of_nat (List.length (released_in fromtimestamp m games))).
  { intros m c Hin. apply In_get in Hin; [|exact Hnd].
    unfold counter in Hin. rewrite get_accumulate in Hin. cbn [get] in Hin.
    rewrite <- select_release_events.
    destruct (select m (release_events fromtimestamp games)) as [|e es];
      [discriminate|].
    injection Hin as <-. rewrite fold_count. simpl List.length.
    split; lia. }
  split; [|split].
  - rewrite Hmonths. apply sorted_strictly.
    + apply String.leb_total.
    + apply string_leb_trans.
    + exact Hnd.
  - intros m. rewrite Hmonths, In_sorted. unfold counter.
    rewrite In_keys_accumulate. simpl. unfold release_events, keys.
    rewrite in_map_iff. split.
    + intros [[]|([m' g] & Em & Hin)]. simpl in Em. subst m'.
      apply in_flat_map in Hin as (g' & Hg' & Hin).
      destruct (release_month fromtimestamp g') as [m'|] eqn:E;
        [|destruct Hin].
      destruct Hin as [Heq|[]]. injection Heq as <- <-. eauto.
    + intros (g & Hg & Hm). right. exists (m, g). split; [reflexivity|].
      apply in_flat_map. exists g. split; [exact Hg|].
      rewrite Hm. now left.
  - intros row Hin. apply in_map_iff in Hin as ([m c] & <- & Hin).
    apply In_sorted in Hin. simpl. now apply Hrow.
Qed.

End MonthlyReleases.


(* ================================================================== *)
(** ** [get_audience_overlap_network] *)

Lemma pair_eqb_eq (x y : string * string) : pair_eqb x y = true <-> x = y.
Proof.
  destruct x as [a b], y as [c d]. unfold pair_eqb. simpl.
  rewrite andb_true_iff, !String.eqb_eq. split.
  - now intros [-> ->].
  - intros E. injection E as -> ->. auto.
Qed.

Lemma mem_In (x : string) (l : list string) : mem x l = true <-> In x l.
Proof.
  unfold mem. rewrite existsb_exists. split.
  - intros (y & Hy & E). apply String.eqb_eq in E. now subst.
  - intros H. exists x. split; [exact H | apply String.eqb_refl].
Qed.

Lemma network_fold (ids : list string) (gs : list Listing.t) :
  forall st,
    fold_left
      (fun st g =>
         let src_id := str_id (Listing.steamId g) in
         let src_name :=
           match Listing.name g with
           | Some s => s
           | None => src_id
           end in
         fold_left (network_add ids src_id src_name)
           (Game.audienceOverlap (Listing.game g)) st)
      gs st
    = fold_left (network_step ids)
        (flat_map
           (fun g => map (fun ao => (g, ao))
                       (Game.audienceOverlap (Listing.game g))) gs)
        st.
Proof.
  induction gs as [|g gs IH]; intros st; [reflexivity|].
  cbn [fold_left flat_map]. rewrite fold_left_app, IH. f_equal.
  generalize st.
  induction (Game.audienceOverlap (Listing.game g)) as [|ao aos IHa];
    intros st0; [reflexivity|].
  cbn [fold_left map]. now rewrite IHa.
Qed.

Section Network.
Variable games : list Listing.t.

Local Abbreviation game_ids := (network_ids games).
Local Abbreviation step := (network_step game_ids).
Local Abbreviation holds := (network_invariant game_ids).

Lemma network_step_holds (done : list (Listing.t * Overlap.t))
  (st : list Link.t * list (string * string))
  (ev : Listing.t * Overlap.t) :
  holds done st -> holds (done ++ [ev]) (step st ev).
Proof.
  destruct st as [edges seen], ev as [g ao].
  intros (Hseen & Hnd & Hall & Hdone). simpl in Hseen, Hnd, Hall, Hdone.
  unfold network_invariant, network_step, network_add. cbn [fst snd].
  fold (listed_link ao).
  destruct (Qle_bool (1 # 10) (listed_link ao)) eqn:Elink; cbn [negb].
  2:{ repeat split; try assumption; try apply Hseen.
      intros ev Hin Hstrong. apply in_app_or in Hin as [Hin|[<-|[]]];
        [now apply Hdone|].
      simpl in Hstrong. apply Qle_bool_iff in Hstrong. congruence. }
  fold (listed_key g ao).
  destruct (existsb (pair_eqb (listed_key g ao)) seen) eqn:Eseen.
  - repeat split; try assumption; try apply Hseen.
    intros ev Hin Hstrong. apply in_app_or in Hin as [Hin|[<-|[]]];
      [now apply Hdone|].
    simpl. apply Hseen. apply existsb_exists in Eseen as (k & Hk & E).
    apply pair_eqb_eq in E. now subst k.
  - assert (Hnew : ~ In (listed_key g ao) (map link_key edges)).
    { intros Hin. apply Hseen in Hin.
      assert (existsb (pair_eqb (listed_key g ao)) seen = true).
      { apply existsb_exists. exists (listed_key g ao).
        split; [exact Hin | now apply pair_eqb_eq]. }
      congruence. }
    cbn [fst snd]. rewrite map_app. cbn [map]. unfold link_key at 2 4 6.
    cbn [Link.source_id Link.target_id]. fold (listed_key g ao).
    repeat split.
    + intros [<-|Hin]; apply in_or_app; [right; now left|left].
      now apply Hseen.
    + intros Hin. apply in_app_or in Hin as [Hin|[<-|[]]];
        [right; now apply Hseen | now left].
    + apply NoDup_app.
      * exact Hnd.
      * repeat constructor. simpl. tauto.
      * intros k Hk [<-|[]]. contradiction.
    + apply Forall_app. split; [exact Hall|].
      constructor; [|constructor]. simpl. split; [|reflexivity].
      now apply Qle_bool_iff.
    + intros ev Hin Hstrong. apply in_or_app.
      apply in_app_or in Hin as [Hin|[<-|[]]].
      * left. now apply Hdone.
      * right. now left.
Qed.

Lemma network_loop (events : list (Listing.t * Overlap.t)) :
  forall done st,
    holds done st -> holds (done ++ events) (fold_left step events st).
Proof.
  induction events as [|ev events IH]; intros done st Hst; simpl.
  - now rewrite app_nil_r.
  - replace (done ++ ev :: events) with ((done ++ [ev]) ++ events)
      by now rewrite <- app_assoc.
    apply IH. now apply network_step_holds.
Qed.

(** X22. In the edges of [get_audience_overlap_network], every link is
    at least 0.1, no two edges join the same unordered pair of games,
    every pair that some game lists with a link of at least 0.1 has its
    edge, and [in_dataset] says whether the target is one of the
    games. *)
Theorem network_edges_are_strong_and_distinct :
  let edges := get_audience_overlap_network games in
  Forall (fun e => 1 # 10 <= Link.link e) edges /\
  NoDup (map link_key edges) /\
  (forall g overlap,
     In g games -> In overlap (Game.audienceOverlap (Listing.game g)) ->
     1 # 10 <= listed_link overlap ->
     In (listed_key g overlap) (map link_key edges)) /\
  (forall e, In e edges ->
     (Link.in_dataset e = true <->
      exists g, In g games /\
        str_id (Listing.steamId g) = Link.target_id e)).
Proof.
  intros edges. unfold edges, get_audience_overlap_network.
  fold (network_ids games).
  set (events :=
         flat_map
           (fun g => map (fun ao => (g, ao))
                       (Game.audienceOverlap (Listing.game g))) games).
  rewrite network_fold. fold events.
  destruct (network_loop events [] ([], [])) as (_ & Hnd & Hall & Hdone).
  { repeat split; try tauto; constructor. }
  split; [|split; [|split]].
  - eapply Forall_impl; [|exact Hall]. now intros e [H _].
  - exact Hnd.
  - intros g ao Hg Hao Hstrong.
    apply (Hdone (g, ao)); [|exact Hstrong].
    simpl. unfold events. apply in_flat_map. exists g. split; [exact Hg|].
    apply in_map_iff. eauto.
  - intros e He. rewrite Forall_forall in Hall.
    destruct (Hall e He) as [_ ->]. rewrite mem_In. unfold network_ids.
    rewrite in_map_iff. split; intros (g & H1 & H2); eauto.
Qed.

End Network.


(* ================================================================== *)
(** ** The aggregate of a single game *)

Lemma bucket_fold_revenue_inc (es : list (Snapshot.t * Q * Q)) :
  forall b : Buckets.t,
    Buckets.revenue_inc (fold_left bucket_upd es b)
    = Buckets.revenue_inc b ++ map event_revenue_inc es.
Proof.
  induction es as [|[[item ps] pr] es IH]; intros b; simpl.
  - now rewrite app_nil_r.
  - rewrite IH. simpl. now rewrite <- app_assoc.
Qed.

Lemma aggregate_row_totals (b : Buckets.t) (row : Aggregate.t) :
  aggregate_row b = Returned row ->
  Aggregate.total_games row = Z.of_nat (List.length (Buckets.sales_inc b)) /\
  Aggregate.sales_inc row = sum (Buckets.sales_inc b) /\
  Aggregate.revenue_inc row = sum (Buckets.revenue_inc b).
Proof.
  unfold aggregate_row. rewrite !_avg_returns. cbn [bind].
  intros E. injection E as <-. repeat split.
Qed.

(** A period of a game's walk has one contribution, with the increments
    of the period's row. *)
Lemma select_walk_row (items : list (period * Snapshot.t)) :
  forall ps pr p r,
    NoDup (keys items) ->
    In (p, r) (walk period_row items ps pr) ->
    exists ev,
      select p
        (walk (fun item prev_sales prev_revenue =>
                 (item, prev_sales, prev_revenue)) items ps pr) = [ev] /\
      event_sales_inc ev = PeriodRow.sales_inc r /\
      event_revenue_inc ev = PeriodRow.revenue_inc r.
Proof.
  induction items as [|[k item] items IH]; intros ps pr p r Hnd Hin;
    [destruct Hin|].
  inversion Hnd as [|? ? Hk Hnd']; subst.
  cbn [walk] in *. unfold select. cbn [filter fst].
  destruct Hin as [E|Hin].
  - injection E as -> <-. rewrite eqb_refl. cbn [map snd].
    exists (item, ps, pr). split; [|split; reflexivity].
    f_equal. fold (select p (walk (fun item0 prev_sales prev_revenue =>
      (item0, prev_sales, prev_revenue)) items
      (get_or (Snapshot.sales item) 0) (get_or (Snapshot.revenue item) 0))).
    destruct (select p _) as [|e es] eqn:Es; [reflexivity|].
    exfalso. apply Hk.
    assert (Hin : In e (select p (walk (fun item0 prev_sales prev_revenue =>
      (item0, prev_sales, prev_revenue)) items
      (get_or (Snapshot.sales item) 0) (get_or (Snapshot.revenue item) 0))))
      by (rewrite Es; now left).
    apply In_select in Hin. apply (in_map fst) in Hin.
    fold (keys (walk (fun item0 prev_sales prev_revenue =>
      (item0, prev_sales, prev_revenue)) items
      (get_or (Snapshot.sales item) 0) (get_or (Snapshot.revenue item) 0)))
      in Hin.
    now rewrite keys_walk in Hin.
  - assert (Hne : p <> k).
    { intros ->. apply Hk. apply (in_map fst) in Hin.
      fold (keys (walk period_row items (get_or (Snapshot.sales item) 0)
                    (get_or (Snapshot.revenue item) 0))) in Hin.
      now rewrite keys_walk in Hin. }
    rewrite (eqb_neq p k Hne).
    apply (IH _ _ p r Hnd' Hin).
Qed.

Section OneGame.
Variable fromtimestamp : Z -> option datetime.
Variables (freq : string) (year_min year_max : Z).

Lemma collect_within_all_within (history : list Snapshot.t) :
  (forall item, In item history ->
     out_of_window fromtimestamp year_min year_max item = false) ->
  collect_within fromtimestamp freq year_min year_max history
  = collect_by_period fromtimestamp freq history.
Proof.
  intros Hin. unfold collect_within, collect_by_period.
  generalize (@nil (period * Snapshot.t)) as acc.
  induction history as [|item history IH]; intros acc; [reflexivity|].
  cbn [fold_left].
  pose proof (Hin item (or_introl eq_refl)) as Hitem.
  unfold out_of_window in Hitem.
  destruct (snapshot_datetime fromtimestamp item) as [dt|].
  - rewrite Hitem. apply IH. intros; apply Hin; now right.
  - apply IH. intros; apply Hin; now right.
Qed.

(** X23. The aggregate of a single game is the game's own history
    within the bounds: [get_history_aggregate] on the game alone has the
    periods of [get_history_for_game] on the game without its snapshots
    outside the bounds, each with one game and with the sales and revenue
    increments of the period's row. *)
Theorem aggregate_of_one_game_is_its_history (g : Game.t) :
  exists agg rows,
    get_history_aggregate fromtimestamp [g] freq year_min year_max
      = Returned agg /\
    get_history_for_game fromtimestamp
      (within_window fromtimestamp year_min year_max g) freq
      = Returned rows /\
    keys agg = keys rows /\
    forall p a r, In (p, a) agg -> In (p, r) rows ->
      Aggregate.total_games a = 1%Z /\
      Aggregate.sales_inc a == PeriodRow.sales_inc r /\
      Aggregate.revenue_inc a == PeriodRow.revenue_inc r.
Proof.
  set (items := by_key period_leb
                  (winners fromtimestamp freq year_min year_max g)).
  assert (Hrows :
    get_history_for_game fromtimestamp
      (within_window fromtimestamp year_min year_max g) freq
    = Returned (walk period_row items 0 0)).
  { rewrite get_history_for_game_by_key. unfold items.
    rewrite <- (winners_within_window fromtimestamp freq year_min year_max g).
    unfold winners. rewrite collect_within_all_within; [reflexivity|].
    intros item Hin. apply In_sorted in Hin.
    unfold within_window in Hin. cbn [Game.history] in Hin.
    apply filter_In in Hin as [_ Hin]. now apply negb_true_iff in Hin. }
  assert (Hevents :
    aggregate_events fromtimestamp freq year_min year_max [g]
    = walk (fun item prev_sales prev_revenue =>
              (item, prev_sales, prev_revenue)) items 0 0).
  { unfold aggregate_events. cbn [flat_map]. now rewrite app_nil_r. }
  assert (Hnd : NoDup (keys items)).
  { unfold items. rewrite keys_by_key.
    apply NoDup_sorted, NoDup_collect_within. }
  unfold get_history_aggregate. rewrite aggregate_loop. cbn [bind].
  rewrite Hevents.
  set (events := walk _ items 0 0).
  destruct (accumulated_rows bucket_upd Buckets.empty events aggregate_row
              (sorted (fun x y => period_leb (fst x) (fst y))))
    as (res & Hres & Hk & Hkeys & Hrow).
  { intros l. apply sorted_perm. }
  { intros es _.
    destruct (aggregate_row_spec (fold_left bucket_upd es Buckets.empty))
      as (row & Hr & _). eauto. }
  exists res, (walk period_row items 0 0).
  split; [exact Hres|]. split; [exact Hrows|]. split.
  - rewrite Hk, keys_walk.
    change (keys (sorted (fun x y => period_leb (fst x) (fst y))
                    (accumulate bucket_upd Buckets.empty [] events)))
      with (keys (by_key period_leb
                    (accumulate bucket_upd Buckets.empty [] events))).
    rewrite keys_by_key.
    replace (keys items)
      with (sorted period_leb
              (keys (winners fromtimestamp freq year_min year_max g)))
      by (unfold items; now rewrite keys_by_key).
    apply sorted_unique.
    + apply period_leb_total.
    + apply period_leb_trans.
    + apply NoDup_Permutation.
      * apply NoDup_keys_accumulate. constructor.
      * apply NoDup_collect_within.
      * intros p. rewrite In_keys_accumulate. unfold events.
        rewrite keys_walk. unfold items. rewrite keys_by_key, In_sorted.
        simpl. tauto.
    + intros x y _ _. apply period_leb_antisym.
  - intros p a r Ha Hr. apply Hrow in Ha.
    destruct (select_walk_row items 0 0 p r Hnd Hr) as (ev & Hsel & Hs & Hv).
    fold events in Hsel. rewrite Hsel in Ha.
    apply aggregate_row_totals in Ha as (Ht & Hsi & Hri).
    rewrite bucket_fold_sales_inc in Ht, Hsi.
    rewrite bucket_fold_revenue_inc in Hri.
    cbn [map app Buckets.empty Buckets.sales_inc Buckets.revenue_inc
         List.length] in Ht, Hsi, Hri.
    rewrite Ht, Hsi, Hri, Hs, Hv. unfold sum. cbn [fold_left].
    split; [reflexivity|]. split; lra.
Qed.

End OneGame.


(* ================================================================== *)
(** ** The rows of [get_history_for_game] *)

Section HistoryRows.
Variable fromtimestamp : Z -> option datetime.
Variable freq : string.

(** X24. [get_history_for_game] returns one row for every period in which
    the game has a snapshot with a usable time stamp, in strictly
    ascending order of the periods, and every row carries the values of
    the latest snapshot of its period: the last one of the period in the
    order of the time stamps. *)
Theorem history_rows_carry_the_latest_snapshot (game : Game.t) :
  exists rows,
    get_history_for_game fromtimestamp game freq = Returned rows /\
    StronglySorted period_lt (keys rows) /\
    (forall p, In p (keys rows) <->
       exists item, In item (Game.history game) /\
         period_key fromtimestamp freq item = Some p) /\
    forall p row, In (p, row) rows ->
      exists item,
        last_opt (with_key (period_key fromtimestamp freq) p
                    (sorted by_timeStamp (Game.history game))) = Some item /\
        PeriodRow.cumul_sales row = get_or (Snapshot.sales item) 0 /\
        PeriodRow.cumul_revenue row = get_or (Snapshot.revenue item) 0 /\
        PeriodRow.ccu row = get_or (Snapshot.players item) 0 /\
        PeriodRow.score row = get_or (Snapshot.score item) 0 /\
        PeriodRow.playtime row = get_or (Snapshot.avgPlaytime item) 0 /\
        PeriodRow.price row = get_or (Snapshot.price item) 0 /\
        PeriodRow.followers row = get_or (Snapshot.followers item) 0 /\
        PeriodRow.wishlists row = get_or (Snapshot.wishlists item) 0 /\
        PeriodRow.reviews row = get_or (Snapshot.reviews item) 0.
Proof.
  set (history := sorted by_timeStamp (Game.history game)).
  set (by_period := collect_by_period fromtimestamp freq history).
  assert (Hnd : NoDup (keys by_period)) by apply NoDup_collect_by_period.
  exists (walk period_row (by_key period_leb by_period) 0 0).
  split; [apply get_history_for_game_by_key|].
  rewrite keys_walk, keys_by_key. split; [|split].
  - apply sorted_strictly.
    + apply period_leb_total.
    + apply period_leb_trans.
    + exact Hnd.
  - intros p. rewrite In_sorted. split.
    + intros Hin. apply In_keys_get in Hin as (item & Hget).
      unfold by_period in Hget. rewrite get_collect_by_period in Hget.
      apply last_opt_In in Hget. unfold with_key in Hget.
      apply filter_In in Hget as [Hin Hkey].
      exists item. split; [now apply In_sorted in Hin|].
      destruct (period_key fromtimestamp freq item) as [p'|];
        [|discriminate].
      apply eqb_eq in Hkey. now subst.
    + intros (item & Hin & Hkey).
      destruct (get by_period p) as [v|] eqn:Hget.
      { apply get_Some_In in Hget. apply (in_map fst) in Hget. exact Hget. }
      exfalso. unfold by_period in Hget.
      rewrite get_collect_by_period in Hget.
      destruct (last_opt_nonempty
                  (with_key (period_key fromtimestamp freq) p history))
        as (x & Hx); [|congruence].
      intros Hnil.
      assert (Hi : In item
                     (with_key (period_key fromtimestamp freq) p history)).
      { unfold with_key. apply filter_In. split.
        - now apply In_sorted.
        - rewrite Hkey. apply eqb_refl. }
      rewrite Hnil in Hi. destruct Hi.
  - intros p row Hin.
    apply In_walk in Hin as (item & ps & pr & Hitem & ->).
    apply In_by_key in Hitem. apply In_get in Hitem; [|exact Hnd].
    unfold by_period in Hitem. rewrite get_collect_by_period in Hitem.
    exists item. split; [exact Hitem|]. repeat split.
Qed.

End HistoryRows.
